(** * InnerCircle: voice session engine and schedule synchronisation

    A shallow embedding of the voice hook ([useVoiceAI]), the voice
    session screen, the local notification scheduler and the schedule
    provider of the InnerCircle client, with the properties the
    specification states about them.

    JavaScript runs one synchronous segment at a time; an [async]
    function runs up to its next [await], is suspended, and is resumed
    with the awaited promise's result in whatever state the other
    segments left behind.  The embedding keeps that structure: an async
    function is a state transformer that returns either a settled result
    or a suspended continuation ([Async]).  Two semantics are given on
    top: [exec] runs one call to completion against an oracle that
    answers every awaited platform call, and [run] interleaves any number
    of calls, resuming them in any order. *)

From Stdlib Require Import List ZArith NArith Lia Bool String Ascii.
Import ListNotations.

Set Implicit Arguments.
Set Warnings "-register-all".

(* ================================================================== *)
(** ** JavaScript strings *)
(* ================================================================== *)

(** A JavaScript string is a sequence of UTF-16 code units. *)
Definition jsstr : Type := list N.

(** String literals of the source (all of them ASCII). *)
Definition lit (s : string) : jsstr :=
  map N_of_ascii (list_ascii_of_string s).

(** [WhiteSpace] and [LineTerminator] code points of ECMA-262, the
    characters [String.prototype.trim] strips. *)
Definition is_js_space (c : N) : bool :=
  ((9 <=? c) && (c <=? 13) || (c =? 32) || (c =? 160) || (c =? 5760)
   || (8192 <=? c) && (c <=? 8202) || (c =? 8232) || (c =? 8233)
   || (c =? 8239) || (c =? 8287) || (c =? 12288) || (c =? 65279))%N.

Fixpoint trimStart (s : jsstr) : jsstr :=
  match s with
  | [] => []
  | c :: r => if is_js_space c then trimStart r else s
  end.

Definition trimEnd (s : jsstr) : jsstr := rev (trimStart (rev s)).

Definition trim (s : jsstr) : jsstr := trimEnd (trimStart s).

(** Truthiness of a string: every string but the empty one. *)
Definition truthy (s : jsstr) : bool :=
  match s with [] => false | _ :: _ => true end.

(** [a || b] on strings. *)
Definition js_or (a b : jsstr) : jsstr := if truthy a then a else b.

(** [Array.prototype.join]. *)
Fixpoint join (sep : jsstr) (l : list jsstr) : jsstr :=
  match l with
  | [] => []
  | [x] => x
  | x :: r => x ++ sep ++ join sep r
  end.

Definition jsstr_eqb (a b : jsstr) : bool :=
  if list_eq_dec N.eq_dec a b then true else false.

Fixpoint startsWith (s p : jsstr) : bool :=
  match p, s with
  | [], _ => true
  | _ :: _, [] => false
  | a :: p', b :: s' => (a =? b)%N && startsWith s' p'
  end.

(** [String.prototype.includes]. *)
Fixpoint includes (s p : jsstr) : bool :=
  startsWith s p || match s with [] => false | _ :: s' => includes s' p end.

(** [toLowerCase], on the ASCII letters (the voice names the platform
    reports); other code units are left as they are. *)
Definition toLowerCase (s : jsstr) : jsstr :=
  map (fun c => if (65 <=? c) && (c <=? 90) then c + 32 else c)%N s.

(** [String.prototype.split] on a one-unit separator. *)
Fixpoint split_on (sep : N) (s : jsstr) : list jsstr :=
  match s with
  | [] => [[]]
  | c :: r =>
      if (c =? sep)%N then [] :: split_on sep r
      else match split_on sep r with
           | [] => [[c]]
           | x :: xs => (c :: x) :: xs
           end
  end.

Definition is_digit (c : N) : bool := ((48 <=? c) && (c <=? 57))%N.

Fixpoint digits_value (acc : Z) (seen : bool) (s : jsstr) : option Z :=
  match s with
  | c :: r =>
      if is_digit c then digits_value (acc * 10 + Z.of_N (c - 48)) true r
      else if seen then Some acc else None
  | [] => if seen then Some acc else None
  end.

(** [parseInt(s, 10)]: leading white space is skipped, a sign is read,
    then the longest run of decimal digits; [None] is [NaN]. *)
Definition parseInt10 (s : jsstr) : option Z :=
  match trimStart s with
  | 45%N :: r => option_map Z.opp (digits_value 0 false r)
  | 43%N :: r => digits_value 0 false r
  | r => digits_value 0 false r
  end.

(** What a [catch] clause receives: an [Error] with its message, or any
    other thrown value (whose [.message] is undefined). *)
Inductive JsError : Type :=
| ErrorObj (message : jsstr)
| ThrownValue.

Definition error_message (e : JsError) : option jsstr :=
  match e with ErrorObj m => Some m | ThrownValue => None end.

(** [error.message || fallback]. *)
Definition message_or (e : JsError) (fallback : jsstr) : jsstr :=
  match error_message e with
  | Some m => js_or m fallback
  | None => fallback
  end.

(* ================================================================== *)
(** ** Data model *)
(* ================================================================== *)

Inductive Role : Type := user | assistant.

Definition Role_eqb (a b : Role) : bool :=
  match a, b with
  | user, user | assistant, assistant => true
  | _, _ => false
  end.

(** [Message] of the voice session screen.  The id is the string
    [`${Date.now()}-${role}-${random}`]; its three parts are kept apart. *)
Record Message : Type := mkMessage {
  id : N * Role * N;
  role : Role;
  content : jsstr;
  timestamp : N
}.

(** Entries of the hook's [conversationHistory]. *)
Record HistoryEntry : Type := mkHistoryEntry {
  h_role : Role;
  h_content : jsstr
}.

(** [VoiceAIState], the hook's React state. *)
Record VoiceAIState : Type := mkVoiceAIState {
  isListening : bool;
  isProcessing : bool;
  isSpeaking : bool;
  transcript : jsstr;
  error : option jsstr;
  isConnected : bool
}.

(** An [Audio.Recording]; [getURI()] reads its file URI ([null] when the
    platform has none). *)
Record Recording : Type := mkRecording { rec_uri : option jsstr }.

(** The Deepgram [WebSocket]. *)
Record Socket : Type := mkSocket { socket_id : N }.

(** The hook's refs. *)
Record HookRefs : Type := mkHookRefs {
  conversationHistory : list HistoryEntry;
  recording : option Recording;
  deepgramSocket : option Socket;
  fullTranscript : jsstr;
  hasRespondedRef : bool
}.

(** State of [VoiceSessionScreen]. *)
Record Screen : Type := mkScreen {
  messages : list Message;
  isSessionActive : bool
}.

Inductive AppStateStatus : Type :=
| active | background | inactive | unknown | extension.

(** Refs of [ScheduleProvider]. *)
Record ScheduleRefs : Type := mkScheduleRefs {
  appState : AppStateStatus;
  lastCheckedRef : N;
  hasTriggeredThisSessionRef : bool
}.

(** The argument of [Audio.setAudioModeAsync]; an absent key is [None]. *)
Record AudioMode : Type := mkAudioMode {
  allowsRecordingIOS : bool;
  playsInSilentModeIOS : option bool
}.

Inductive PermissionStatus : Type := granted | denied | undetermined.

Record Voice : Type := mkVoice {
  identifier : option jsstr;
  name : jsstr;
  language : jsstr
}.

(** Voice settings: pitch and rate, in thousandths. *)
Record VoiceSettings : Type := mkVoiceSettings {
  pitch : N;
  rate : N
}.

Record SpeechOptions : Type := mkSpeechOptions {
  sp_language : jsstr;
  sp_pitch : N;
  sp_rate : N;
  sp_voice : option jsstr
}.

Inductive ConversationMode : Type := voice | text.

(** [data] of a scheduled notification. *)
Record NotificationData : Type := mkNotificationData {
  screen_name : jsstr;
  flowType : jsstr
}.

(** The argument of [Notifications.scheduleNotificationAsync]: content and
    a [TIME_INTERVAL] trigger.  [seconds] is a JavaScript number; [None]
    is [NaN]. *)
Record NotificationRequest : Type := mkNotificationRequest {
  title : jsstr;
  body : jsstr;
  data : NotificationData;
  seconds : option Z;
  repeats : bool
}.

(** [Types.JournalCreate] as the voice session screen fills it. *)
Record JournalCreate : Type := mkJournalCreate {
  user_id : N;
  jc_content : jsstr;
  prompt_used : option jsstr;
  is_voice_entry : bool;
  voice_transcript : jsstr;
  entry_type : jsstr
}.

(** A [fetch] response: its [ok] flag and a handle for its body. *)
Record Response : Type := mkResponse { resp_ok : bool; resp_body : N }.

Record Blob : Type := mkBlob { blob_id : N }.

(** The body of the transcription upload's answer, as far as
    [transcribeAudioFile] reads it: [None] is a body on which reading
    [.results] throws ([null]); [Some t] is the value of
    [results?.channels?.[0]?.alternatives?.[0]?.transcript]. *)
Definition DeepgramResult : Type := option (option jsstr).

(** The body of [GET /api/schedule/{id}/check]. *)
Record CheckData : Type := mkCheckData {
  should_trigger : option bool;
  conversation_mode : option jsstr
}.

(** What [checkScheduleFromBackend] returns (or [null]). *)
Record CheckResult : Type := mkCheckResult {
  shouldTrigger : bool;
  conversationMode : option jsstr
}.

(** A frame of the streaming transcription socket. *)
Record Frame : Type := mkFrame {
  frame_transcript : option jsstr;
  is_final : bool
}.

(** The platform and backend calls the code awaits, indexed by the type
    of the value the promise resolves with. *)
Inductive Call : Type -> Type :=
| Audio_requestPermissionsAsync : Call PermissionStatus
| Audio_setAudioModeAsync (mode : AudioMode) : Call unit
| Audio_Recording_createAsync : Call Recording
| Recording_stopAndUnloadAsync (r : Recording) : Call unit
| WebSocket_open (key : jsstr) : Call Socket
| fetch_uri (uri : jsstr) : Call Response
| Response_blob (r : Response) : Call Blob
| fetch_deepgram_listen (key : jsstr) (body : Blob) : Call Response
| Response_json_transcript (r : Response) : Call DeepgramResult
| api_voice_getReflection (content : jsstr) : Call (option (option jsstr))
| api_journals_getQuestion (uid : N) (days : N) : Call (option (option jsstr))
| api_journals_create (data : JournalCreate) : Call unit
| Speech_getAvailableVoicesAsync : Call (list Voice)
| Speech_speak (text : jsstr) (opts : SpeechOptions) : Call unit
| Notifications_cancelAllScheduledNotificationsAsync : Call unit
| Notifications_getPermissionsAsync : Call PermissionStatus
| Notifications_requestPermissionsAsync : Call PermissionStatus
| Notifications_scheduleNotificationAsync (req : NotificationRequest) : Call unit
| fetch_schedule_check (uid : N) : Call Response
| Response_json_check (r : Response) : Call CheckData.

Inductive Haptic : Type := ImpactMedium | NotifySuccess | NotifyError.

(** Observable effects, in the order they happen: every dispatch of an
    awaited call, every state the hook hands to React ([setState]), every
    call of a callback the screen registered, and the fire-and-forget
    platform calls. *)
Inductive Event : Type :=
| EvAwait (X : Type) (c : Call X)
| EvSetState (s : VoiceAIState)
| EvOnTranscript (t : jsstr)
| EvOnResponse (t : jsstr)
| EvOnError (m : option jsstr)
| EvOnPartialTranscript (t : jsstr)
| EvSpeechStop
| EvSocketClose (s : Socket)
| EvConsoleWarn (what : jsstr)
| EvConsoleError (what : jsstr)
| EvHaptics (h : Haptic)
| EvRouterReplace (path : jsstr)
| EvRouterPush (path : jsstr)
| EvAlert (a_title a_message : jsstr) (buttons : list jsstr).

(** The device: the OS audio session mode, the OS store of scheduled
    local notifications, the clock ([Date.now()], in ms), its time zone,
    and the values [Math.random()] will return, in 2^-53.

    The time zone is the local time zone adjustment of ECMAScript,
    [LocalTZA(t, isUTC)], in ms: [LocalTZA t true] is the offset of local
    time from UTC at the instant [t]; [LocalTZA t false] is the offset the
    zone gives to the local time value [t] (where the clock is set back
    or forward, the engine settles which offset a repeated or skipped
    local time gets).  It depends on [t]: daylight saving changes it. *)
Record Device : Type := mkDevice {
  audioMode : AudioMode;
  scheduled : list NotificationRequest;
  Date_now : N;
  LocalTZA : Z -> bool -> Z;
  random_tape : nat -> N;
  random_pos : nat
}.

Record World : Type := mkWorld {
  state : VoiceAIState;
  refs : HookRefs;
  screen : Screen;
  sched : ScheduleRefs;
  device : Device;
  trace : list Event
}.

(** *** Field updates *)

Definition set_isListening (b : bool) (s : VoiceAIState) : VoiceAIState :=
  mkVoiceAIState b s.(isProcessing) s.(isSpeaking) s.(transcript) s.(error) s.(isConnected).
Definition set_isProcessing (b : bool) (s : VoiceAIState) : VoiceAIState :=
  mkVoiceAIState s.(isListening) b s.(isSpeaking) s.(transcript) s.(error) s.(isConnected).
Definition set_isSpeaking (b : bool) (s : VoiceAIState) : VoiceAIState :=
  mkVoiceAIState s.(isListening) s.(isProcessing) b s.(transcript) s.(error) s.(isConnected).
Definition set_transcript (t : jsstr) (s : VoiceAIState) : VoiceAIState :=
  mkVoiceAIState s.(isListening) s.(isProcessing) s.(isSpeaking) t s.(error) s.(isConnected).
Definition set_error (e : option jsstr) (s : VoiceAIState) : VoiceAIState :=
  mkVoiceAIState s.(isListening) s.(isProcessing) s.(isSpeaking) s.(transcript) e s.(isConnected).
Definition set_isConnected (b : bool) (s : VoiceAIState) : VoiceAIState :=
  mkVoiceAIState s.(isListening) s.(isProcessing) s.(isSpeaking) s.(transcript) s.(error) b.

Definition set_conversationHistory (h : list HistoryEntry) (r : HookRefs) : HookRefs :=
  mkHookRefs h r.(recording) r.(deepgramSocket) r.(fullTranscript) r.(hasRespondedRef).
Definition set_recording (x : option Recording) (r : HookRefs) : HookRefs :=
  mkHookRefs r.(conversationHistory) x r.(deepgramSocket) r.(fullTranscript) r.(hasRespondedRef).
Definition set_deepgramSocket (x : option Socket) (r : HookRefs) : HookRefs :=
  mkHookRefs r.(conversationHistory) r.(recording) x r.(fullTranscript) r.(hasRespondedRef).
Definition set_fullTranscript (t : jsstr) (r : HookRefs) : HookRefs :=
  mkHookRefs r.(conversationHistory) r.(recording) r.(deepgramSocket) t r.(hasRespondedRef).
Definition set_hasRespondedRef (b : bool) (r : HookRefs) : HookRefs :=
  mkHookRefs r.(conversationHistory) r.(recording) r.(deepgramSocket) r.(fullTranscript) b.

Definition set_messages (m : list Message) (s : Screen) : Screen :=
  mkScreen m s.(isSessionActive).
Definition set_isSessionActive (b : bool) (s : Screen) : Screen :=
  mkScreen s.(messages) b.

Definition set_appState (a : AppStateStatus) (r : ScheduleRefs) : ScheduleRefs :=
  mkScheduleRefs a r.(lastCheckedRef) r.(hasTriggeredThisSessionRef).
Definition set_lastCheckedRef (t : N) (r : ScheduleRefs) : ScheduleRefs :=
  mkScheduleRefs r.(appState) t r.(hasTriggeredThisSessionRef).
Definition set_hasTriggeredThisSessionRef (b : bool) (r : ScheduleRefs) : ScheduleRefs :=
  mkScheduleRefs r.(appState) r.(lastCheckedRef) b.

Definition set_audioMode (m : AudioMode) (d : Device) : Device :=
  mkDevice m d.(scheduled) d.(Date_now) d.(LocalTZA) d.(random_tape) d.(random_pos).
Definition set_scheduled (l : list NotificationRequest) (d : Device) : Device :=
  mkDevice d.(audioMode) l d.(Date_now) d.(LocalTZA) d.(random_tape) d.(random_pos).
Definition set_Date_now (t : N) (d : Device) : Device :=
  mkDevice d.(audioMode) d.(scheduled) t d.(LocalTZA) d.(random_tape) d.(random_pos).
Definition set_random_pos (p : nat) (d : Device) : Device :=
  mkDevice d.(audioMode) d.(scheduled) d.(Date_now) d.(LocalTZA) d.(random_tape) p.

Definition on_state (f : VoiceAIState -> VoiceAIState) (w : World) : World :=
  mkWorld (f w.(state)) w.(refs) w.(screen) w.(sched) w.(device) w.(trace).
Definition on_refs (f : HookRefs -> HookRefs) (w : World) : World :=
  mkWorld w.(state) (f w.(refs)) w.(screen) w.(sched) w.(device) w.(trace).
Definition on_screen (f : Screen -> Screen) (w : World) : World :=
  mkWorld w.(state) w.(refs) (f w.(screen)) w.(sched) w.(device) w.(trace).
Definition on_sched (f : ScheduleRefs -> ScheduleRefs) (w : World) : World :=
  mkWorld w.(state) w.(refs) w.(screen) (f w.(sched)) w.(device) w.(trace).
Definition on_device (f : Device -> Device) (w : World) : World :=
  mkWorld w.(state) w.(refs) w.(screen) w.(sched) (f w.(device)) w.(trace).
Definition log (e : Event) (w : World) : World :=
  mkWorld w.(state) w.(refs) w.(screen) w.(sched) w.(device) (w.(trace) ++ [e]).

(* ================================================================== *)
(** ** Async functions *)
(* ================================================================== *)

(** How a promise settles: fulfilled with a value or rejected. *)
Inductive result (A : Type) : Type :=
| Ok (a : A)
| Thrown (e : JsError).
Arguments Ok {A} a.
Arguments Thrown {A} e.

(** A call in progress.  [Done r]: it has settled.  [Await c k]: it is
    suspended on the promise of the call [c]; [k] is the rest of the
    function, run on the promise's result in the world of that moment.
    [AwaitRace c ms k]: it is suspended on [Promise.race] of the call's
    promise and a timer of [ms] milliseconds; [k None] is the timer's
    branch.  [Tick k]: it awaits a promise that has already settled (the
    promise of an async function of the program that has run to its
    end) and resumes in a later microtask. *)
Inductive Async (A : Type) : Type :=
| Done (r : result A)
| Await (X : Type) (c : Call X) (k : result X -> World -> World * Async A)
| AwaitRace (X : Type) (c : Call X) (ms : N)
    (k : option (result X) -> World -> World * Async A)
| Tick (k : World -> World * Async A).
Arguments Done {A} r.
Arguments Await {A X} c k.
Arguments AwaitRace {A X} c ms k.
Arguments Tick {A} k.

(** An async function body: runs synchronously up to its first await. *)
Definition Fn (A : Type) : Type := World -> World * Async A.

Definition ret {A} (a : A) : Fn A := fun w => (w, Done (Ok a)).

Definition throw {A} (e : JsError) : Fn A := fun w => (w, Done (Thrown e)).

Fixpoint bindA {A B} (p : Async A) (f : A -> Fn B) (w : World) : World * Async B :=
  match p with
  | Done (Ok a) => f a w
  | Done (Thrown e) => (w, Done (Thrown e))
  | Await c k =>
      (w, Await c (fun r w' => let (w'', p') := k r w' in bindA p' f w''))
  | AwaitRace c ms k =>
      (w, AwaitRace c ms (fun r w' => let (w'', p') := k r w' in bindA p' f w''))
  | Tick k =>
      (w, Tick (fun w' => let (w'', p') := k w' in bindA p' f w''))
  end.

Definition bind {A B} (m : Fn A) (f : A -> Fn B) : Fn B :=
  fun w => let (w', p) := m w in bindA p f w'.

(** [try { ... } catch (e) { h e }]: what the handler throws propagates. *)
Fixpoint catchA {A} (p : Async A) (h : JsError -> Fn A) (w : World) : World * Async A :=
  match p with
  | Done (Ok a) => (w, Done (Ok a))
  | Done (Thrown e) => h e w
  | Await c k =>
      (w, Await c (fun r w' => let (w'', p') := k r w' in catchA p' h w''))
  | AwaitRace c ms k =>
      (w, AwaitRace c ms (fun r w' => let (w'', p') := k r w' in catchA p' h w''))
  | Tick k =>
      (w, Tick (fun w' => let (w'', p') := k w' in catchA p' h w''))
  end.

Definition try_catch {A} (m : Fn A) (h : JsError -> Fn A) : Fn A :=
  fun w => let (w', p) := m w in catchA p h w'.

(** [await c]: the dispatch is recorded, the function is suspended. *)
Definition await {X} (c : Call X) : Fn X :=
  fun w => (log (EvAwait c) w, Await c (fun r w' => (w', Done r))).

(** [await m()] for an async function [m] of the program: [m] runs (with
    its own awaits), and the caller resumes a microtask after it
    settled, with its value or its exception. *)
Fixpoint tickA {A} (p : Async A) (w : World) : World * Async A :=
  match p with
  | Done r => (w, Tick (fun w' => (w', Done r)))
  | Await c k => (w, Await c (fun r w' => let (w'', p') := k r w' in tickA p' w''))
  | AwaitRace c ms k =>
      (w, AwaitRace c ms (fun r w' => let (w'', p') := k r w' in tickA p' w''))
  | Tick k => (w, Tick (fun w' => let (w'', p') := k w' in tickA p' w''))
  end.

Definition await_async {A} (m : Fn A) : Fn A :=
  fun w => let (w', p) := m w in tickA p w'.

(** [await Promise.race([c, timer ms])], [None] when the timer wins. *)
Definition await_race {X} (c : Call X) (ms : N) : Fn (option (result X)) :=
  fun w => (log (EvAwait c) w, AwaitRace c ms (fun r w' => (w', Done (Ok r)))).

Definition read {A} (f : World -> A) : Fn A := fun w => (w, Done (Ok (f w))).

Definition modify (f : World -> World) : Fn unit := fun w => (f w, Done (Ok tt)).

Definition emit (e : Event) : Fn unit := modify (log e).

Definition when (b : bool) (m : Fn unit) : Fn unit := if b then m else ret tt.

Declare Scope fn_scope.
Delimit Scope fn_scope with fn.
Bind Scope fn_scope with Fn.
Notation "x <- m ;; k" := (bind m (fun x => k))
  (at level 61, m at next level, right associativity) : fn_scope.
Notation "m ;; k" := (bind m (fun _ => k))
  (at level 61, right associativity) : fn_scope.
Open Scope fn_scope.

(** *** Running one call to completion *)

(** What the environment does with an awaited call: the promise settles
    after some milliseconds, or never. *)
Inductive Reply (X : Type) : Type :=
| SettlesAfter (latency : N) (r : result X)
| NeverSettles.
Arguments SettlesAfter {X} latency r.
Arguments NeverSettles {X}.

Definition Oracle : Type := forall X, Call X -> Reply X.

Inductive Outcome (A : Type) : Type :=
| Returned (a : A)
| Raised (e : JsError)
| Hung.
Arguments Returned {A} a.
Arguments Raised {A} e.
Arguments Hung {A}.

Definition advance (ms : N) : World -> World :=
  on_device (fun d => set_Date_now (d.(Date_now) + ms)%N d).

(** In a race the call wins when it settles no later than the timer. *)
Fixpoint execA {A} (o : Oracle) (p : Async A) (w : World) : World * Outcome A :=
  match p with
  | Done (Ok a) => (w, Returned a)
  | Done (Thrown e) => (w, Raised e)
  | Await c k =>
      match o _ c with
      | SettlesAfter t r => let (w', p') := k r (advance t w) in execA o p' w'
      | NeverSettles => (w, Hung)
      end
  | AwaitRace c ms k =>
      match o _ c with
      | SettlesAfter t r =>
          if (t <=? ms)%N
          then let (w', p') := k (Some r) (advance t w) in execA o p' w'
          else let (w', p') := k None (advance ms w) in execA o p' w'
      | NeverSettles => let (w', p') := k None (advance ms w) in execA o p' w'
      end
  | Tick k => let (w', p') := k w in execA o p' w'
  end.

Definition exec {A} (o : Oracle) (m : Fn A) (w : World) : World * Outcome A :=
  let (w', p) := m w in execA o p w'.

(** *** Interleaving calls *)

(** What can happen next: a new call starts and runs to its first await;
    the promise a suspended call waits for settles and the call runs to
    its next await; the timer of a suspended race fires. *)
Inductive Step (Op : Type) : Type :=
| Start (op : Op)
| Settle (i : nat) (o : forall X, Call X -> result X)
| Timer (i : nat).
Arguments Start {Op} op.
Arguments Settle {Op} i o.
Arguments Timer {Op} i.

(** The world and the calls in progress, in the order they started. *)
Record Running : Type := mkRunning {
  world : World;
  tasks : list (Async unit)
}.

Fixpoint replace_nth {A} (i : nat) (x : A) (l : list A) : list A :=
  match l, i with
  | [], _ => []
  | _ :: r, O => x :: r
  | y :: r, S j => y :: replace_nth j x r
  end.

Definition resume (r : Running) (i : nat) (seg : World * Async unit) : Running :=
  mkRunning (fst seg) (replace_nth i (snd seg) r.(tasks)).

Definition step {Op} (interp : Op -> Fn unit) (r : Running) (s : Step Op) : Running :=
  match s with
  | Start op =>
      let (w', p) := interp op r.(world) in mkRunning w' (r.(tasks) ++ [p])
  | Settle i o =>
      match nth_error r.(tasks) i with
      | Some (Await c k) => resume r i (k (o _ c) r.(world))
      | Some (AwaitRace c _ k) => resume r i (k (Some (o _ c)) r.(world))
      | Some (Tick k) => resume r i (k r.(world))
      | _ => r
      end
  | Timer i =>
      match nth_error r.(tasks) i with
      | Some (AwaitRace c _ k) => resume r i (k None r.(world))
      | _ => r
      end
  end.

Definition run {Op} (interp : Op -> Fn unit) (r : Running) (l : list (Step Op)) : Running :=
  fold_left (step interp) l r.

(** The calls a step starts are among those [ok] admits. *)
Definition starts {Op} (ok : Op -> bool) (s : Step Op) : bool :=
  match s with
  | Start op => ok op
  | _ => true
  end.

(* ================================================================== *)
(** ** The voice hook, [useVoiceAI] *)
(* ================================================================== *)

(** A callback the screen passes to the hook: it runs synchronously, reads
    the clock and [Math.random], and updates the screen's state. *)
Definition Handler (X : Type) : Type := X -> Device * Screen -> Device * Screen.

Record UseVoiceAIOptions : Type := mkOptions {
  onTranscript : option (Handler jsstr);
  onResponse : option (Handler jsstr);
  onError : option (Handler (option jsstr));
  onPartialTranscript : option (Handler jsstr);
  recordOnly : bool;
  startingQuestion : option jsstr
}.

(** [options.h?.(x)]: nothing happens when the screen registered no [h];
    [ev] is the event that records the call. *)
Definition call_handler {X} (ev : X -> Event) (h : option (Handler X)) (x : X) : Fn unit :=
  match h with
  | Some f =>
      modify (fun w =>
        let (d, s) := f x (w.(device), w.(screen)) in
        log (ev x) (on_screen (fun _ => s) (on_device (fun _ => d) w)))
  | None => ret tt
  end.

Definition setState (f : VoiceAIState -> VoiceAIState) : Fn unit :=
  modify (fun w => log (EvSetState (f w.(state))) (on_state f w)).

Definition set_ref (f : HookRefs -> HookRefs) : Fn unit :=
  modify (on_refs f).

(** [Math.random()], in units of 2^-53. *)
Definition Math_random : Fn N :=
  u <- read (fun w => (w.(device).(random_tape) w.(device).(random_pos) mod 2 ^ 53)%N) ;;
  modify (on_device (fun d => set_random_pos (S d.(random_pos)) d)) ;;
  ret u.

(** The integer [M] rounded as a double rounds: to 53 significant bits,
    to nearest, ties to even. *)
Definition round53 (M : N) : N :=
  let sh := (N.size M - 53)%N in
  let q := (M / 2 ^ sh)%N in
  let r := (M mod 2 ^ sh)%N in
  let half := (2 ^ sh / 2)%N in
  if (sh =? 0)%N then M
  else if (half <? r)%N || ((r =? half)%N && N.odd q) then ((q + 1) * 2 ^ sh)%N
  else (q * 2 ^ sh)%N.

(** [Math.floor(Math.random() * len)], for [Math.random()] returning
    [u / 2^53].  The product is a double: [u * len / 2^53] rounded, which
    is [u * len] rounded, over [2^53]; [Math.floor] takes the integer
    part of that. *)
Definition random_index (u : N) (len : nat) : nat :=
  N.to_nat (round53 (u * N.of_nat len) / 2 ^ 53)%N.

(** [Audio.setAudioModeAsync(mode)]; when it succeeds the OS audio session
    is in that mode (a key that is absent keeps its value). *)
Definition apply_mode (m : AudioMode) (d : Device) : Device :=
  set_audioMode
    (mkAudioMode m.(allowsRecordingIOS)
       match m.(playsInSilentModeIOS) with
       | Some b => Some b
       | None => d.(audioMode).(playsInSilentModeIOS)
       end) d.

Definition setAudioModeAsync (m : AudioMode) : Fn unit :=
  await (Audio_setAudioModeAsync m) ;;
  modify (on_device (apply_mode m)).

Definition placeholder_key : jsstr := lit "your_deepgram_api_key_here".

(** [!DEEPGRAM_API_KEY || DEEPGRAM_API_KEY === "your_deepgram_api_key_here"]. *)
Definition key_missing (key : jsstr) : bool :=
  negb (truthy key) || jsstr_eqb key placeholder_key.

Definition cleanup : Fn unit :=
  rec <- read (fun w => w.(refs).(recording)) ;;
  match rec with
  | Some r =>
      try_catch (await (Recording_stopAndUnloadAsync r)) (fun _ => ret tt) ;;
      set_ref (set_recording None)
  | None => ret tt
  end ;;
  sock <- read (fun w => w.(refs).(deepgramSocket)) ;;
  match sock with
  | Some s => emit (EvSocketClose s) ;; set_ref (set_deepgramSocket None)
  | None => ret tt
  end ;;
  emit EvSpeechStop.

(** The promise of [connectToDeepgram]: rejected at once without a key,
    resolved by the socket's [onopen], rejected by its [onerror]. *)
Definition connectToDeepgram (key : jsstr) : Fn Socket :=
  if key_missing key then throw (ErrorObj (lit "Deepgram API key not configured"))
  else
    try_catch
      (socket <- await (WebSocket_open key) ;;
       setState (set_isConnected true) ;;
       ret socket)
      (fun e =>
         emit (EvConsoleError (lit "Deepgram error:")) ;;
         setState (fun prev => set_isConnected false (set_error (Some (lit "Connection error")) prev)) ;;
         throw e).

(** [socket.onmessage].  A frame whose JSON does not parse, or has no
    transcript at [channel.alternatives[0]], carries [None]. *)
Definition socket_onmessage (options : UseVoiceAIOptions) (f : Frame) : Fn unit :=
  match f.(frame_transcript) with
  | Some t =>
      if truthy t then
        if f.(is_final) && truthy (trim t) then
          set_ref (fun r =>
            set_fullTranscript
              (r.(fullTranscript) ++ (if truthy r.(fullTranscript) then lit " " else []) ++ t) r) ;;
          full <- read (fun w => w.(refs).(fullTranscript)) ;;
          setState (set_transcript full) ;;
          call_handler EvOnPartialTranscript options.(onPartialTranscript) full
        else if negb f.(is_final) && truthy (trim t) then
          full <- read (fun w => w.(refs).(fullTranscript)) ;;
          call_handler EvOnPartialTranscript options.(onPartialTranscript) (full ++ lit " " ++ t)
        else ret tt
      else ret tt
  | None => ret tt
  end.

Definition socket_onclose : Fn unit := setState (set_isConnected false).

Definition stopSpeaking : Fn unit :=
  emit EvSpeechStop ;;
  setState (set_isSpeaking false).

Definition voice_hints : list jsstr :=
  [lit "female"; lit "samantha"; lit "karen"; lit "moira"; lit "tessa";
   lit "fiona"; lit "victoria"; lit "allison"; lit "ava"; lit "susan"; lit "zoe"].

Definition is_female_voice (v : Voice) : bool :=
  startsWith v.(language) (lit "en") &&
  (existsb (includes (toLowerCase v.(name))) voice_hints
   || match v.(identifier) with
      | Some i => includes (toLowerCase i) (lit "female")
      | None => false
      end
   || match v.(identifier) with
      | Some i => includes (toLowerCase i) (lit "enhanced")
      | None => false
      end).

(** [Math.max(3000, Math.ceil(text.length / 15) * 1000)]. *)
Definition speak_timeout (text : jsstr) : N :=
  N.max 3000 ((N.of_nat (List.length text) + 14) / 15 * 1000).

(** The options [speak] passes to [Speech.speak] (its callbacks apart). *)
Definition speech_options (settings : VoiceSettings) (femaleVoice : option Voice)
    : SpeechOptions :=
  mkSpeechOptions (lit "en-US") settings.(pitch) settings.(rate)
    match femaleVoice with Some v => v.(identifier) | None => None end.

(** [speak].  The race is between the promise the speech engine's
    [onDone]/[onError] callbacks settle and the timer; each of the three
    callbacks clears [isSpeaking] before it settles its promise.  (A
    callback of the engine that fires after the timer has won clears
    [isSpeaking] once more; that late callback is not part of the call.) *)
Definition speak (settings : VoiceSettings) (text : jsstr) : Fn unit :=
  if negb (truthy (trim text)) then ret tt
  else
    try_catch
      (setState (set_isSpeaking true) ;;
       voices <- await Speech_getAvailableVoicesAsync ;;
       let femaleVoice := find is_female_voice voices in
       let timeoutMs := speak_timeout text in
       r <- await_race (Speech_speak text (speech_options settings femaleVoice)) timeoutMs ;;
       match r with
       | Some (Ok _) => setState (set_isSpeaking false)
       | Some (Thrown err) => setState (set_isSpeaking false) ;; throw err
       | None => setState (set_isSpeaking false)
       end)
      (fun _ =>
         emit (EvConsoleError (lit "Error speaking:")) ;;
         setState (set_isSpeaking false)).

Definition startListening (key : jsstr) (options : UseVoiceAIOptions) : Fn unit :=
  try_catch
    (setState (fun prev => set_transcript [] (set_error None (set_isListening true prev))) ;;
     set_ref (set_fullTranscript []) ;;
     status <- await Audio_requestPermissionsAsync ;;
     match status with
     | granted => ret tt
     | _ => throw (ErrorObj (lit "Microphone permission not granted"))
     end ;;
     setAudioModeAsync (mkAudioMode true (Some true)) ;;
     when (negb (key_missing key))
       (try_catch
          (socket <- await_async (connectToDeepgram key) ;;
           set_ref (set_deepgramSocket (Some socket)))
          (fun _ => emit (EvConsoleWarn (lit "Deepgram connection failed, using fallback mode:")))) ;;
     rec <- await Audio_Recording_createAsync ;;
     set_ref (set_recording (Some rec)))
    (fun e =>
       emit (EvConsoleError (lit "Error starting recording:")) ;;
       setState (fun prev =>
         set_error (Some (message_or e (lit "Failed to start recording")))
           (set_isListening false prev)) ;;
       call_handler EvOnError options.(onError) (error_message e)).

Definition sampleTranscripts : list jsstr :=
  [lit "I had a really productive day today";
   lit "Feeling a bit stressed about work";
   lit "Had a wonderful conversation with a friend";
   lit "I've been thinking about my goals";
   lit "Today was challenging but rewarding"].

Definition transcribeAudioFile (key : jsstr) (uri : jsstr) : Fn unit :=
  if key_missing key then
    emit (EvConsoleWarn (lit "No Deepgram API key, using simulated transcript")) ;;
    u <- Math_random ;;
    set_ref (set_fullTranscript (nth (random_index u (List.length sampleTranscripts)) sampleTranscripts []))
  else
    try_catch
      (response <- await (fetch_uri uri) ;;
       blob <- await (Response_blob response) ;;
       transcribeResponse <- await (fetch_deepgram_listen key blob) ;;
       result <- await (Response_json_transcript transcribeResponse) ;;
       match result with
       | None => throw (ErrorObj (lit "Cannot read properties of null"))
       | Some t =>
           match t with
           | Some t' => when (truthy t') (set_ref (set_fullTranscript t'))
           | None => ret tt
           end
       end)
      (fun _ =>
         emit (EvConsoleError (lit "Error transcribing audio:")) ;;
         set_ref (set_fullTranscript (lit "I'd like to reflect on my day"))).

Definition reflection_fallback : jsstr :=
  lit "Thank you for sharing. I'm here to listen.".

Definition no_speech_message : jsstr :=
  lit "No speech detected. Please try again.".

(** [stopListening], in the three blocks of its [try]: stopping the
    recording and resolving the transcript ([if (recording.current)]),
    processing the transcript ([if (finalTranscript)]), and in it the one
    exchange with the reflection agent ([else if (!hasRespondedRef.current)]). *)
Definition stopListening_capture (key : jsstr) : Fn unit :=
  rec <- read (fun w => w.(refs).(recording)) ;;
  match rec with
  | Some r =>
      await (Recording_stopAndUnloadAsync r) ;;
      rec' <- read (fun w => w.(refs).(recording)) ;;
      match rec' with
      | None => throw (ErrorObj (lit "Cannot read property 'getURI' of null"))
      | Some r' =>
          let uri := r'.(rec_uri) in
          set_ref (set_recording None) ;;
          sock <- read (fun w => w.(refs).(deepgramSocket)) ;;
          match sock with
          | Some s => emit (EvSocketClose s) ;; set_ref (set_deepgramSocket None)
          | None => ret tt
          end ;;
          full <- read (fun w => w.(refs).(fullTranscript)) ;;
          match uri with
          | Some u =>
              when (negb (truthy full) && truthy u)
                (await_async (transcribeAudioFile key u))
          | None => ret tt
          end
      end
  | None => ret tt
  end.

Definition stopListening_reflect (settings : VoiceSettings)
    (options : UseVoiceAIOptions) (finalTranscript : jsstr) : Fn unit :=
  set_ref (set_hasRespondedRef true) ;;
  response <-
    try_catch
      (res <- await (api_voice_getReflection finalTranscript) ;;
       match res with
       | Some (Some r) => ret (if truthy (trim r) then trim r else reflection_fallback)
       | _ => ret reflection_fallback
       end)
      (fun _ =>
         emit (EvConsoleWarn (lit "Voice reflection API failed:")) ;;
         ret reflection_fallback) ;;
  set_ref (fun r =>
    set_conversationHistory
      (r.(conversationHistory)
       ++ [mkHistoryEntry user finalTranscript; mkHistoryEntry assistant response]) r) ;;
  setState (set_isProcessing false) ;;
  call_handler EvOnResponse options.(onResponse) response ;;
  await_async (speak settings response).

Definition stopListening_process (settings : VoiceSettings)
    (options : UseVoiceAIOptions) : Fn unit :=
  full <- read (fun w => w.(refs).(fullTranscript)) ;;
  let finalTranscript := trim full in
  if truthy finalTranscript then
    setState (set_transcript finalTranscript) ;;
    call_handler EvOnTranscript options.(onTranscript) finalTranscript ;;
    if options.(recordOnly) then setState (set_isProcessing false)
    else
      responded <- read (fun w => w.(refs).(hasRespondedRef)) ;;
      if negb responded then stopListening_reflect settings options finalTranscript
      else setState (set_isProcessing false)
  else
    setState (set_isProcessing false) ;;
    call_handler EvOnError options.(onError) (Some no_speech_message).

Definition stopListening (key : jsstr) (settings : VoiceSettings)
    (options : UseVoiceAIOptions) : Fn unit :=
  try_catch
    (setState (fun prev => set_isProcessing true (set_isListening false prev)) ;;
     stopListening_capture key ;;
     stopListening_process settings options ;;
     setAudioModeAsync (mkAudioMode false None))
    (fun e =>
       emit (EvConsoleError (lit "Error stopping recording:")) ;;
       setState (fun prev =>
         set_error (Some (message_or e (lit "Failed to process recording")))
           (set_isProcessing false prev)) ;;
       call_handler EvOnError options.(onError) (error_message e)).

Definition toggleListening (key : jsstr) (settings : VoiceSettings)
    (options : UseVoiceAIOptions) : Fn unit :=
  listening <- read (fun w => w.(state).(isListening)) ;;
  if listening then await_async (stopListening key settings options)
  else await_async (startListening key options).

Definition default_question : jsstr := lit "How are you feeling right now?".

(** [api.journals.getQuestion(USER_ID, 3).then((r) => r?.question).catch(() => null)]
    [|| "How are you feeling right now?"].  [USER_ID] is a constant of the
    program. *)
Definition fetched_question (USER_ID : N) : Fn jsstr :=
  fetched <- try_catch (r <- await (api_journals_getQuestion USER_ID 3) ;;
                        ret match r with Some q => q | None => None end)
                       (fun _ => ret None) ;;
  ret match fetched with
      | Some q => js_or q default_question
      | None => default_question
      end.

Definition greet (USER_ID : N) (settings : VoiceSettings)
    (options : UseVoiceAIOptions) : Fn unit :=
  question <-
    match options.(startingQuestion) with
    | Some q => if truthy (trim q) then ret (trim q) else fetched_question USER_ID
    | None => fetched_question USER_ID
    end ;;
  set_ref (fun r =>
    set_conversationHistory (r.(conversationHistory) ++ [mkHistoryEntry assistant question]) r) ;;
  call_handler EvOnResponse options.(onResponse) question ;;
  await_async (speak settings question).

Definition prompts : list jsstr :=
  [lit "Let me offer you a thought to reflect on: What small moment of joy did you experience today?";
   lit "Here's something to consider: If you could change one thing about your day, what would it be?";
   lit "Let me suggest: What are you most grateful for right now?";
   lit "Think about this: What's one thing you learned about yourself recently?";
   lit "Consider this: Who made a positive impact on your day, and why?"].

Definition suggestPrompt (settings : VoiceSettings) (options : UseVoiceAIOptions) : Fn unit :=
  u <- Math_random ;;
  let prompt := nth (random_index u (List.length prompts)) prompts [] in
  set_ref (fun r =>
    set_conversationHistory (r.(conversationHistory) ++ [mkHistoryEntry assistant prompt]) r) ;;
  call_handler EvOnResponse options.(onResponse) prompt ;;
  await_async (speak settings prompt).

Definition resetForNewSession : Fn unit :=
  set_ref (fun r =>
    set_fullTranscript [] (set_conversationHistory [] (set_hasRespondedRef false r))).

Definition clearHistory : Fn unit := resetForNewSession.

(** The operations of the hook a screen (or the platform) can start. *)
Inductive HookOp : Type :=
| OpStartListening
| OpStopListening
| OpToggleListening
| OpSpeak (text : jsstr)
| OpStopSpeaking
| OpGreet
| OpSuggestPrompt
| OpResetForNewSession
| OpClearHistory
| OpCleanup
| OpSocketMessage (f : Frame)
| OpSocketClose
| OpElapse (ms : N).

Definition hook_op (key : jsstr) (USER_ID : N) (settings : VoiceSettings)
    (options : UseVoiceAIOptions) (op : HookOp) : Fn unit :=
  match op with
  | OpStartListening => startListening key options
  | OpStopListening => stopListening key settings options
  | OpToggleListening => toggleListening key settings options
  | OpSpeak t => speak settings t
  | OpStopSpeaking => stopSpeaking
  | OpGreet => greet USER_ID settings options
  | OpSuggestPrompt => suggestPrompt settings options
  | OpResetForNewSession => resetForNewSession
  | OpClearHistory => clearHistory
  | OpCleanup => cleanup
  | OpSocketMessage f => socket_onmessage options f
  | OpSocketClose => socket_onclose
  | OpElapse ms => modify (advance ms)
  end.


(* ================================================================== *)
(** ** The voice session screen *)
(* ================================================================== *)

(** Route parameters of the screen. *)
Record Params : Type := mkParams {
  prompt : option jsstr;
  recordOnly_param : option jsstr
}.

(** [params.recordOnly === "true" || params.recordOnly === "1"]. *)
Definition screen_recordOnly (p : Params) : bool :=
  match p.(recordOnly_param) with
  | Some s => jsstr_eqb s (lit "true") || jsstr_eqb s (lit "1")
  | None => false
  end.

(** [typeof params.prompt === "string" ? params.prompt?.trim() || null : null]. *)
Definition promptQuestion (p : Params) : option jsstr :=
  match p.(prompt) with
  | Some s => if truthy (trim s) then Some (trim s) else None
  | None => None
  end.

Definition addMessage (r : Role) : Handler jsstr :=
  fun c ds =>
    let (d, s) := ds in
    let u := (d.(random_tape) d.(random_pos) mod 2 ^ 53)%N in
    (set_random_pos (S d.(random_pos)) d,
     set_messages
       (s.(messages) ++ [mkMessage (d.(Date_now), r, u) r c d.(Date_now)]) s).

(** The options the screen passes to [useVoiceAI]. *)
Definition screen_options (p : Params) : UseVoiceAIOptions :=
  mkOptions
    (Some (addMessage user))
    (if screen_recordOnly p then None else Some (addMessage assistant))
    None
    None
    (screen_recordOnly p)
    (promptQuestion p).

Definition setIsSessionActive (b : bool) : Fn unit :=
  modify (on_screen (set_isSessionActive b)).

Definition handleStartSession (USER_ID : N) (settings : VoiceSettings) (p : Params) : Fn unit :=
  setIsSessionActive true ;;
  resetForNewSession ;;
  emit (EvHaptics ImpactMedium) ;;
  if screen_recordOnly p then ret tt
  else
    match promptQuestion p with
    | Some q =>
        modify (fun w =>
          let (d, s) := addMessage assistant q (w.(device), w.(screen)) in
          on_screen (fun _ => s) (on_device (fun _ => d) w)) ;;
        await_async (speak settings q)
    | None => await_async (greet USER_ID settings (screen_options p))
    end.

(** [messages.filter((m) => m.role === "user").map((m) => m.content).join(" ")]. *)
Definition user_transcript (ms : list Message) : jsstr :=
  join (lit " ")
    (map content (filter (fun m => Role_eqb m.(role) user) ms)).

Definition handleEndSession (USER_ID : N) (p : Params) : Fn unit :=
  setIsSessionActive false ;;
  stopSpeaking ;;
  ms <- read (fun w => w.(screen).(messages)) ;;
  let transcript := user_transcript ms in
  when (truthy (trim transcript))
    (try_catch
       (await (api_journals_create
                 (mkJournalCreate USER_ID (trim transcript) p.(prompt) true
                    (trim transcript) (lit "voice_note"))) ;;
        emit (EvHaptics NotifySuccess))
       (fun _ =>
          emit (EvConsoleError (lit "Error saving voice entry:")) ;;
          emit (EvHaptics NotifyError))) ;;
  emit (EvRouterReplace (lit "/(tabs)")).

Definition handleClose (USER_ID : N) (p : Params) : Fn unit :=
  sessionActive <- read (fun w => w.(screen).(isSessionActive)) ;;
  ms <- read (fun w => w.(screen).(messages)) ;;
  if sessionActive && negb (Nat.eqb (List.length ms) 0) then handleEndSession USER_ID p
  else stopSpeaking ;; emit (EvRouterReplace (lit "/(tabs)")).

(** What can happen on the voice session screen. *)
Inductive ScreenOp : Type :=
| OpHook (op : HookOp)
| OpHandleStartSession
| OpHandleEndSession
| OpHandleClose.

Definition screen_op (key : jsstr) (USER_ID : N) (settings : VoiceSettings)
    (p : Params) (op : ScreenOp) : Fn unit :=
  match op with
  | OpHook h => hook_op key USER_ID settings (screen_options p) h
  | OpHandleStartSession => handleStartSession USER_ID settings p
  | OpHandleEndSession => handleEndSession USER_ID p
  | OpHandleClose => handleClose USER_ID p
  end.

(* ================================================================== *)
(** ** Local notifications *)
(* ================================================================== *)

Definition CHECK_INTERVAL_MS : Z := (2 * 60 * 1000)%Z.

Definition MIN_SECONDS : Z := 60%Z.

Definition MS_PER_DAY : Z := 86400000%Z.

Definition requestNotificationPermissions : Fn bool :=
  existingStatus <- await Notifications_getPermissionsAsync ;;
  finalStatus <-
    match existingStatus with
    | granted => ret existingStatus
    | _ => await Notifications_requestPermissionsAsync
    end ;;
  ret match finalStatus with granted => true | _ => false end.

(** *** Dates

    A time value is a number of ms since the epoch, as in ECMAScript;
    [None] is the invalid date, whose time value is [NaN].  Local time
    follows the zone of the device. *)

(** [LocalTime(t)] and [UTC(t)] of ECMAScript. *)
Definition LocalTime (d : Device) (t : Z) : Z := (t + d.(LocalTZA) t true)%Z.

Definition UTC (d : Device) (t : Z) : Z := (t - d.(LocalTZA) t false)%Z.

(** [TimeClip]: a date holds at most 8.64e15 ms either side of the
    epoch. *)
Definition TimeClip (t : Z) : option Z :=
  if (Z.abs t <=? 8640000000000000)%Z then Some t else None.

(** [date.setHours(hour, minute, 0, 0)] on the date of time value [t]:
    [MakeDate(Day(LocalTime(t)), MakeTime(hour, minute, 0, 0))], the
    local day of [t] with the time of day replaced, turned into an
    instant by [UTC] and clipped. *)
Definition Date_setHours (d : Device) (t hour minute : Z) : option Z :=
  TimeClip (UTC d (LocalTime d t / MS_PER_DAY * MS_PER_DAY
                   + (hour * 3600000 + minute * 60000)))%Z.

(** [date.setDate(date.getDate() + 1)] on the date of time value [t]:
    [MakeDate(MakeDay(year, month, date + 1), TimeWithinDay(LocalTime(t)))].
    The day after the local day of [t] ([MakeDay] carries a day of the
    month past its end into the next month) with the same time within
    the day: the local time value one day of 86400000 ms later, turned
    into an instant by [UTC] and clipped. *)
Definition Date_setDate_next (d : Device) (t : Z) : option Z :=
  TimeClip (UTC d (LocalTime d t + MS_PER_DAY))%Z.

(** [secondsUntilNextOccurrence], on the device's clock and in its zone.
    [next] is today's date at [hour:minute] local time; a day is added
    when that is not after [now].  [None] is [NaN]: what a [NaN] hour or
    minute gives, and what a date out of range gives ([NaN <= now] is
    false, and [Math.max(60, NaN)] is [NaN]). *)
Definition secondsUntilNextOccurrence (hour minute : option Z) (d : Device) : option Z :=
  match hour, minute with
  | Some h, Some m =>
      let now := Z.of_N d.(Date_now) in
      match Date_setHours d now h m with
      | Some next =>
          match (if next <=? now then Date_setDate_next d next else Some next)%Z with
          | Some next => Some (Z.max MIN_SECONDS ((next - now) / 1000))%Z
          | None => None
          end
      | None => None
      end
  | _, _ => None
  end.

(** The result [{ ok, error? }]. *)
Record ScheduleOutcome : Type := mkScheduleOutcome {
  ok : bool;
  sn_error : option jsstr
}.

(** [parseInt(parts[i], 10)]; a missing part is [undefined], which parses
    to [NaN]. *)
Definition parse_part (parts : list jsstr) (i : nat) : option Z :=
  match nth_error parts i with
  | Some s => parseInt10 s
  | None => None
  end.

Definition notification_content (conversationMode : ConversationMode) (secs : option Z)
    : NotificationRequest :=
  let isVoice := match conversationMode with voice => true | text => false end in
  mkNotificationRequest
    (lit "Inner Circle")
    (if isVoice then lit "Is it a good time to talk? Tap for voice journal."
     else lit "Time to journal! Tap to write your thoughts.")
    (mkNotificationData
       (if isVoice then lit "voice-session" else lit "compose")
       (lit "scheduled"))
    secs
    false.

(** [scheduleLocalNotifications].  The OS store follows the two platform
    calls: a fulfilled [cancelAllScheduledNotificationsAsync] leaves it
    empty, a fulfilled [scheduleNotificationAsync] adds the request. *)
Definition scheduleLocalNotifications (time : jsstr) (daysOfWeek : list jsstr)
    (enabled : bool) (conversationMode : ConversationMode) : Fn ScheduleOutcome :=
  await Notifications_cancelAllScheduledNotificationsAsync ;;
  modify (on_device (set_scheduled [])) ;;
  if negb enabled || Nat.eqb (List.length daysOfWeek) 0 then ret (mkScheduleOutcome true None)
  else
    hasPermission <- await_async requestNotificationPermissions ;;
    if negb hasPermission
    then ret (mkScheduleOutcome false (Some (lit "Notification permission denied")))
    else
      let parts := split_on 58%N time in
      let hour := parse_part parts 0 in
      let minute := parse_part parts 1 in
      secs <- read (fun w => secondsUntilNextOccurrence hour minute w.(device)) ;;
      let request := notification_content conversationMode secs in
      try_catch
        (await (Notifications_scheduleNotificationAsync request) ;;
         modify (on_device (fun d => set_scheduled (d.(scheduled) ++ [request]) d)) ;;
         ret (mkScheduleOutcome true None))
        (fun e =>
           ret (mkScheduleOutcome false (Some match e with
                                               | ErrorObj m => m
                                               | ThrownValue => lit "Failed to schedule"
                                               end))).

Definition checkScheduleFromBackend (userId : N) : Fn (option CheckResult) :=
  try_catch
    (response <- await (fetch_schedule_check userId) ;;
     if negb response.(resp_ok) then ret None
     else
       data <- await (Response_json_check response) ;;
       ret (Some (mkCheckResult
                    match data.(should_trigger) with Some b => b | None => false end
                    data.(conversation_mode))))
    (fun _ => ret None).

(* ================================================================== *)
(** ** The schedule provider *)
(* ================================================================== *)

Definition prompt_alert : Event :=
  EvAlert (lit "Is it a good time to talk?")
    (lit "Inner Circle is here for your check-in.")
    [lit "Not now"; lit "Let's talk"].

Definition checkAndPrompt (USER_ID : N) : Fn unit :=
  result <- await_async (checkScheduleFromBackend USER_ID) ;;
  triggered <- read (fun w => w.(sched).(hasTriggeredThisSessionRef)) ;;
  if negb match result with Some r => r.(shouldTrigger) | None => false end || triggered
  then ret tt
  else
    modify (on_sched (set_hasTriggeredThisSessionRef true)) ;;
    emit prompt_alert.

(** The callback of [setInterval(..., CHECK_INTERVAL_MS)]. *)
Definition poll_tick (USER_ID : N) : Fn unit :=
  st <- read (fun w => w.(sched).(appState)) ;;
  match st with
  | active =>
      now <- read (fun w => w.(device).(Date_now)) ;;
      last <- read (fun w => w.(sched).(lastCheckedRef)) ;;
      if (Z.of_N now - Z.of_N last <? CHECK_INTERVAL_MS)%Z then ret tt
      else
        modify (on_sched (set_lastCheckedRef now)) ;;
        await_async (checkAndPrompt USER_ID)
  | _ => ret tt
  end.

(** The [AppState] change listener. *)
Definition appState_change (USER_ID : N) (nextState : AppStateStatus) : Fn unit :=
  prev <- read (fun w => w.(sched).(appState)) ;;
  let wasBackground := match prev with inactive | background => true | _ => false end in
  modify (on_sched (set_appState nextState)) ;;
  if wasBackground && match nextState with active => true | _ => false end
  then checkAndPrompt USER_ID
  else ret tt.

(** What can happen to a mounted [ScheduleProvider]: its mount effect's
    initial check, a tick of the poll timer, an app-state change, and the
    passing of time. *)
Inductive ScheduleOp : Type :=
| OpInitialCheck
| OpPollTick
| OpAppStateChange (nextState : AppStateStatus)
| OpTimePasses (ms : N).

Definition schedule_op (USER_ID : N) (op : ScheduleOp) : Fn unit :=
  match op with
  | OpInitialCheck => checkAndPrompt USER_ID
  | OpPollTick => poll_tick USER_ID
  | OpAppStateChange s => appState_change USER_ID s
  | OpTimePasses ms => modify (advance ms)
  end.

(** *** Observations on traces *)

Definition is_reflection_call (e : Event) : bool :=
  match e with
  | EvAwait (api_voice_getReflection _) => true
  | _ => false
  end.

Definition is_speech_call (e : Event) : bool :=
  match e with
  | EvAwait (Speech_speak _ _) => true
  | _ => false
  end.

Definition is_alert (e : Event) : bool :=
  match e with
  | EvAlert _ _ _ => true
  | _ => false
  end.

Definition count (f : Event -> bool) (t : list Event) : nat :=
  List.length (filter f t).

(** The reflection calls dispatched so far, and the prompts shown. *)
Definition reflections (w : World) : nat := count is_reflection_call w.(trace).

Definition alerts (w : World) : nat := count is_alert w.(trace).

(** A string that [trim] leaves as it is and that is not empty: its first
    and last code units are no white space. *)
Definition trimmed (s : jsstr) : bool :=
  match s with
  | [] => false
  | c :: _ => negb (is_js_space c) && negb (is_js_space (last s c))
  end.

(* ================================================================== *)
(** ** What every segment guarantees *)
(* ================================================================== *)

(** A suspended call is resumed in a world other segments have changed,
    so what can be said of it is said of each of its segments: whatever
    world a segment starts in, the world it ends in is related to it by
    [G].  [R] restricts the results the environment may give. *)
Section Guarantee.

Variable G : World -> World -> Prop.
Variable R : forall X : Type, Call X -> result X -> Prop.

(** Every later segment of the call [p] is a [G] step. *)
Fixpoint segments {A} (p : Async A) : Prop :=
  match p with
  | Done _ => True
  | Await c k =>
      forall r w, R c r -> let (w', p') := k r w in G w w' /\ segments p'
  | AwaitRace c _ k =>
      forall r w, match r with Some r' => R c r' | None => True end ->
                  let (w', p') := k r w in G w w' /\ segments p'
  | Tick k =>
      forall w, let (w', p') := k w in G w w' /\ segments p'
  end.

(** [within P m]: when [m] runs in the middle of a segment that started
    in [w0] and has reached [w] with [P w0 w], the segment ends in a
    world [G]-related to [w0], and the later segments are [G] steps. *)
Definition within {A} (P : World -> World -> Prop) (m : Fn A) : Prop :=
  forall w0 w, P w0 w -> let (w', p) := m w in G w0 w' /\ segments p.

(** Every segment of [m], the first one included, is a [G] step. *)
Definition keeps {A} (m : Fn A) : Prop := within eq m.

(** Whatever [p] returns satisfies [T]. *)
Fixpoint returns {A} (T : A -> Prop) (p : Async A) : Prop :=
  match p with
  | Done (Ok a) => T a
  | Done (Thrown _) => True
  | Await c k => forall r w, R c r -> returns T (snd (k r w))
  | AwaitRace c _ k =>
      forall r w, match r with Some r' => R c r' | None => True end ->
                  returns T (snd (k r w))
  | Tick k => forall w, returns T (snd (k w))
  end.

Definition yields {A} (T : A -> Prop) (m : Fn A) : Prop :=
  forall w, returns T (snd (m w)).

Definition step_allowed {Op} (s : Step Op) : Prop :=
  match s with
  | Settle _ o => forall X (c : Call X), R c (o X c)
  | _ => True
  end.

Definition oracle_allowed (o : Oracle) : Prop :=
  forall X (c : Call X) t r, o X c = SettlesAfter t r -> R c r.

End Guarantee.

Definition any_result : forall X : Type, Call X -> result X -> Prop :=
  fun _ _ _ => True.


(** The prompt guard, in the same way. *)
Definition prompt_gate (w w' : World) : Prop :=
  (w.(sched).(hasTriggeredThisSessionRef) = true ->
   w'.(sched).(hasTriggeredThisSessionRef) = true) /\
  alerts w' =
    alerts w
    + (if negb w.(sched).(hasTriggeredThisSessionRef)
          && w'.(sched).(hasTriggeredThisSessionRef) then 1 else 0).

(** The speech calls dispatched so far, and the transcripts reported to
    the screen's [onTranscript]. *)
Definition speeches (w : World) : nat := count is_speech_call w.(trace).

Definition transcripts (t : list Event) : list jsstr :=
  flat_map (fun e => match e with EvOnTranscript x => [x] | _ => [] end) t.


(** [ends o J m]: run to completion from a world in [J], [m] ends in a
    world in [J], however it ends. *)
Definition ends {A} (o : Oracle) (J : World -> Prop) (m : Fn A) : Prop :=
  forall w, J w -> J (fst (exec o m w)).

(** The remote check does not say "trigger": whatever else the
    environment answers, the body of the check never carries
    [should_trigger: true]. *)
Definition no_trigger : forall X : Type, Call X -> result X -> Prop :=
  fun X c =>
    match c in Call X return result X -> Prop with
    | Response_json_check _ =>
        fun r => match r with
                 | Ok d => d.(should_trigger) <> Some true
                 | Thrown _ => True
                 end
    | _ => fun _ => True
    end.

(** The guard is not spent: it stays down, and no prompt is shown. *)
Definition guard_unspent (w w' : World) : Prop :=
  w.(sched).(hasTriggeredThisSessionRef) = false ->
  w'.(sched).(hasTriggeredThisSessionRef) = false /\ alerts w' = alerts w.

(** The remote check answers "trigger": the request succeeds and its
    body carries [should_trigger: true]. *)
Definition says_trigger (o : Oracle) : Prop :=
  (forall uid, exists t b, o _ (fetch_schedule_check uid) = SettlesAfter t (Ok (mkResponse true b))) /\
  (forall r, exists t mode,
      o _ (Response_json_check r) = SettlesAfter t (Ok (mkCheckData (Some true) mode))).

(** [frame allowed f]: a step that leaves [f] of the world as it is and
    adds to the trace only events [allowed] admits. *)
Definition frame {X} (allowed : Event -> bool) (f : World -> X) (w w' : World) : Prop :=
  f w' = f w /\
  exists t, w'.(trace) = w.(trace) ++ t /\ forallb allowed t = true.

(** The events of the capture block: stopping the recording, closing the
    socket, the upload and the console. *)
Definition capture_event (e : Event) : bool :=
  match e with
  | EvAwait (Recording_stopAndUnloadAsync _)
  | EvAwait (fetch_uri _)
  | EvAwait (Response_blob _)
  | EvAwait (fetch_deepgram_listen _ _)
  | EvAwait (Response_json_transcript _)
  | EvSocketClose _
  | EvConsoleWarn _
  | EvConsoleError _ => true
  | _ => false
  end.

(** The events of [speak]. *)
Definition speak_event (e : Event) : bool :=
  match e with
  | EvAwait Speech_getAvailableVoicesAsync
  | EvAwait (Speech_speak _ _)
  | EvSetState _
  | EvConsoleError _ => true
  | _ => false
  end.

(** The events of the turn's end: resetting the audio mode, and what the
    [catch] clause does when the screen registered no [onError]. *)
Definition closing_event (e : Event) : bool :=
  match e with
  | EvAwait (Audio_setAudioModeAsync _)
  | EvSetState _
  | EvConsoleError _ => true
  | _ => false
  end.

(** What of the world the capture block leaves alone. *)
Definition beside_capture (w : World) :=
  (w.(state), w.(screen), w.(sched), w.(refs).(hasRespondedRef),
   w.(refs).(conversationHistory), w.(device).(audioMode), w.(device).(scheduled)).

(** What [speak] leaves alone. *)
Definition beside_speak (w : World) :=
  (w.(refs), w.(screen), w.(sched), w.(device).(audioMode), w.(device).(scheduled),
   w.(state).(isListening), w.(state).(isProcessing), w.(state).(transcript),
   w.(state).(error)).

(** Reports to [onError], and replies passed to [onResponse]. *)
Definition errors_reported (t : list Event) : list (option jsstr) :=
  flat_map (fun e => match e with EvOnError m => [m] | _ => [] end) t.

Definition responses (t : list Event) : list jsstr :=
  flat_map (fun e => match e with EvOnResponse x => [x] | _ => [] end) t.

(** The notification permission is granted -- it is already, or it is
    when asked for -- after [latency] ms in all. *)
Definition permission_granted (o : Oracle) (latency : N) : Prop :=
  o _ Notifications_getPermissionsAsync = SettlesAfter latency (Ok granted) \/
  exists t1 s t2,
    o _ Notifications_getPermissionsAsync = SettlesAfter t1 (Ok s) /\
    s <> granted /\
    o _ Notifications_requestPermissionsAsync = SettlesAfter t2 (Ok granted) /\
    latency = (t1 + t2)%N.

(** The local time of day, in ms, and the local day (counted from the
    epoch) at the instant [t]. *)
Definition time_of_day (d : Device) (t : Z) : Z := (LocalTime d t mod MS_PER_DAY)%Z.

Definition local_day (d : Device) (t : Z) : Z := (LocalTime d t / MS_PER_DAY)%Z.

(** Today's date at [h:m], as a local time value. *)
Definition today_at (d : Device) (h m : Z) : Z :=
  (local_day d (Z.of_N d.(Date_now)) * MS_PER_DAY + (h * 3600000 + m * 60000))%Z.

(** The zone has the local time [tl]: the instant [UTC] gives it shows
    that local time (a local time skipped when the clock is set forward
    does not), and is within the range of dates. *)
Definition local_time_exists (d : Device) (tl : Z) : Prop :=
  LocalTime d (UTC d tl) = tl /\ (Z.abs (UTC d tl) <= 8640000000000000)%Z.

(** A zone without clock changes: one offset throughout. *)
Definition fixed_zone (d : Device) (offset : Z) : Prop :=
  forall t isUTC, d.(LocalTZA) t isUTC = offset.

(** The events a call of [scheduleLocalNotifications] has added, and the
    requests among them. *)
Definition requests (t : list Event) : list NotificationRequest :=
  flat_map (fun e => match e with
                     | EvAwait (Notifications_scheduleNotificationAsync r) => [r]
                     | _ => []
                     end) t.

(** The journal entries a trace asks the backend to create. *)
Definition journal_calls (t : list Event) : list JournalCreate :=
  flat_map (fun e => match e with
                     | EvAwait (api_journals_create d) => [d]
                     | _ => []
                     end) t.

(** Every message of the user in the log is a trimmed, non-empty string. *)
Definition user_messages_trimmed (w : World) : Prop :=
  Forall (fun m => m.(role) = user -> trimmed m.(content) = true) w.(screen).(messages).

(** A step keeps the user's messages trimmed. *)
Definition log_trimmed (w w' : World) : Prop :=
  user_messages_trimmed w -> user_messages_trimmed w'.



(** The call ended with an exception thrown to its caller. *)
Definition raised {A} (oc : Outcome A) : bool :=
  match oc with Raised _ => true | _ => false end.

(** What the end of a turn leaves alone. *)
Definition beside_closing (w : World) := (w.(screen), w.(refs)).

(** How [exec] continues from the outcome of a first part, and how a
    [catch] handler takes over. *)
Definition then_exec {A B} (o : Oracle) (f : A -> Fn B) (r : World * Outcome A)
    : World * Outcome B :=
  match r with
  | (w, Returned a) => exec o (f a) w
  | (w, Raised e) => (w, Raised e)
  | (w, Hung) => (w, Hung)
  end.

Definition catch_exec {A} (o : Oracle) (h : JsError -> Fn A) (r : World * Outcome A)
    : World * Outcome A :=
  match r with
  | (w, Raised e) => exec o (h e) w
  | _ => r
  end.

(* ================================================================== *)
(** ** Sample worlds, answers and runs *)
(* ================================================================== *)

(** The world when the screens have just been mounted. *)
Definition mounted : World :=
  mkWorld
    (mkVoiceAIState false false false [] None false)
    (mkHookRefs [] None None [] false)
    (mkScreen [] false)
    (mkScheduleRefs active 0 false)
    (mkDevice (mkAudioMode false None) [] 1700000000000 (fun _ _ => 0%Z) (fun _ => 0%N) 0)
    [].

Definition sample_settings : VoiceSettings := mkVoiceSettings 1000 1000.

Definition sample_params : Params := mkParams None None.

(** An environment in which every call succeeds: the microphone and the
    notifications are permitted, the reflection agent replies, the
    remote check says "trigger". *)
Definition all_fine : forall X : Type, Call X -> result X :=
  fun X c =>
    match c in Call X return result X with
    | Audio_requestPermissionsAsync => Ok granted
    | Audio_setAudioModeAsync _ => Ok tt
    | Audio_Recording_createAsync => Ok (mkRecording (Some (lit "file:///rec.wav")))
    | Recording_stopAndUnloadAsync _ => Ok tt
    | WebSocket_open _ => Ok (mkSocket 1)
    | fetch_uri _ => Ok (mkResponse true 1)
    | Response_blob _ => Ok (mkBlob 1)
    | fetch_deepgram_listen _ _ => Ok (mkResponse true 2)
    | Response_json_transcript _ => Ok (Some (Some (lit "I slept well")))
    | api_voice_getReflection _ => Ok (Some (Some (lit "What helped you sleep?")))
    | api_journals_getQuestion _ _ => Ok (Some (Some (lit "How was your day?")))
    | api_journals_create _ => Ok tt
    | Speech_getAvailableVoicesAsync => Ok []
    | Speech_speak _ _ => Ok tt
    | Notifications_cancelAllScheduledNotificationsAsync => Ok tt
    | Notifications_getPermissionsAsync => Ok granted
    | Notifications_requestPermissionsAsync => Ok granted
    | Notifications_scheduleNotificationAsync _ => Ok tt
    | fetch_schedule_check _ => Ok (mkResponse true 3)
    | Response_json_check _ => Ok (mkCheckData (Some true) (Some (lit "voice")))
    end.

(** The same, each promise settling after 10 ms. *)
Definition prompt_oracle : Oracle := fun X c => SettlesAfter 10 (all_fine c).

(** The same, but the remote check says "do not trigger". *)
Definition not_now : forall X : Type, Call X -> result X :=
  fun X c =>
    match c in Call X return result X with
    | Response_json_check _ => Ok (mkCheckData (Some false) None)
    | c' => all_fine c'
    end.

(** The same as [all_fine], but the reflection request is rejected (what
    [request] does on a network error or a response that is not 2xx). *)
Definition agent_down : forall X : Type, Call X -> result X :=
  fun X c =>
    match c in Call X return result X with
    | api_voice_getReflection _ => Thrown (ErrorObj (lit "Request failed"))
    | c' => all_fine c'
    end.

Definition agent_down_oracle : Oracle := fun X c => SettlesAfter 10 (agent_down c).

(** Two turns of one session without a transcription key, the second one
    spoken and stopped while the reflection request of the first is still
    in flight; the reply arrives last. *)
Definition overlapping_turns : list (Step HookOp) :=
  [ Start OpStartListening; Settle 0 all_fine; Settle 0 all_fine; Settle 0 all_fine;
    Start OpStopListening; Settle 1 all_fine; Settle 1 all_fine;
    Start OpStartListening; Settle 2 all_fine; Settle 2 all_fine; Settle 2 all_fine;
    Start OpStopListening; Settle 3 all_fine; Settle 3 all_fine; Settle 3 all_fine;
    Settle 1 all_fine; Settle 1 all_fine; Settle 1 all_fine; Settle 1 all_fine;
    Settle 1 all_fine ].

(** A world in which a recording is running and the session has already
    had its exchange. *)
Definition after_exchange : World :=
  on_refs (fun r => set_hasRespondedRef true
                      (set_recording (Some (mkRecording (Some (lit "file:///rec.wav")))) r))
    mounted.

(** The provider's events around one scheduled time: the initial check
    and a return to the foreground both ask the backend before either
    answer has arrived, then a poll tick asks too. *)
Definition crossing : list (Step ScheduleOp) :=
  [ Start OpInitialCheck;
    Start (OpAppStateChange background);
    Start (OpAppStateChange active);
    Settle 0 all_fine; Settle 2 all_fine; Settle 0 all_fine; Settle 2 all_fine;
    Settle 0 all_fine; Settle 2 all_fine;
    Start (OpTimePasses 120000); Start OpPollTick;
    Settle 4 all_fine; Settle 4 all_fine; Settle 4 all_fine; Settle 4 all_fine ].

(** Checks that all come back negative. *)
Definition quiet_checks : list (Step ScheduleOp) :=
  [ Start OpInitialCheck; Settle 0 not_now; Settle 0 not_now; Settle 0 not_now;
    Start (OpTimePasses 120000); Start OpPollTick;
    Settle 2 not_now; Settle 2 not_now; Settle 2 not_now; Settle 2 not_now ].

(** A world in which a recording is running: the audio session is in
    recording mode, as [startListening] leaves it. *)
Definition recording_now : World :=
  on_device (set_audioMode (mkAudioMode true (Some true)))
    (on_refs (set_recording (Some (mkRecording (Some (lit "file:///rec.wav")))))
       (on_state (set_isListening true) mounted)).

(** The recording cannot be stopped: [stopAndUnloadAsync] rejects. *)
Definition stop_fails : forall X : Type, Call X -> result X :=
  fun X c =>
    match c in Call X return result X with
    | Recording_stopAndUnloadAsync _ =>
        Thrown (ErrorObj (lit "Stop encountered an error: recording not stopped"))
    | c' => all_fine c'
    end.

Definition stop_fails_oracle : Oracle := fun X c => SettlesAfter 10 (stop_fails c).

(** The same world as [mounted], with another value coming from
    [Math.random]: one half. *)
Definition mounted_half : World :=
  on_device (fun d => mkDevice d.(audioMode) d.(scheduled) d.(Date_now) d.(LocalTZA)
                        (fun _ => (2 ^ 52)%N) d.(random_pos)) mounted.

(** A transcription key is configured and the upload hears nothing. *)
Definition sample_key : jsstr := lit "dg_live_0123456789".

Definition silence : forall X : Type, Call X -> result X :=
  fun X c =>
    match c in Call X return result X with
    | Response_json_transcript _ => Ok (Some (Some []))
    | c' => all_fine c'
    end.

Definition silence_oracle : Oracle := fun X c => SettlesAfter 10 (silence c).

(** Events that would show the user that something went wrong. *)
Definition is_surfacing (e : Event) : bool :=
  match e with
  | EvOnError _ | EvAlert _ _ _ => true
  | _ => false
  end.

(** The speech engine never calls back. *)
Definition engine_silent : Oracle :=
  fun X c =>
    match c in Call X return Reply X with
    | Speech_speak _ _ => NeverSettles
    | c' => SettlesAfter 10 (all_fine c')
    end.

(** 08:59:30 local time on a device two hours east of UTC, with one
    trigger pending. *)
Definition before_nine : World :=
  on_device (fun d => mkDevice d.(audioMode)
                        [mkNotificationRequest (lit "Inner Circle") (lit "old")
                           (mkNotificationData (lit "compose") (lit "scheduled"))
                           (Some 3600%Z) false]
                        (1700000000000 - 1700000000000 mod 86400000
                         + 6 * 3600000 + 59 * 60000 + 30000)%N
                        (fun _ _ => 7200000%Z) d.(random_tape) d.(random_pos)) mounted.

(** New York on 1 November 2026 at 00:30 local time (04:30 UTC): at
    06:00 UTC, 02:00 local time, the clock is set back from four to five
    hours behind UTC.  The local hour from 01:00 to 02:00 comes twice;
    [UTC] takes its first pass, as ECMAScript has it. *)
Definition new_york (t : Z) (isUTC : bool) : Z :=
  if isUTC
  then (if t <? 1793512800000 then -14400000 else -18000000)%Z
  else (if t <? 1793512800000 - 14400000 then -14400000 else -18000000)%Z.

Definition fall_back_night : World :=
  on_device (fun d => mkDevice d.(audioMode) d.(scheduled) 1793507400000 new_york
                        d.(random_tape) d.(random_pos)) mounted.

(** A recorded session on the screen: start, two turns, the reply. *)
Definition two_turn_session : list (Step ScreenOp) :=
  Start OpHandleStartSession
  :: Settle 0 all_fine :: Settle 0 all_fine :: Settle 0 all_fine :: Settle 0 all_fine
  :: Settle 0 all_fine :: Settle 0 all_fine
  :: map (fun s => match s with
                   | Start op => Start (OpHook op)
                   | Settle i o => Settle (S i) o
                   | Timer i => Timer (S i)
                   end) overlapping_turns.

(** The options of a caller that does register [onError] (the callback
    leaves the screen as it is). *)
Definition reporting_options : UseVoiceAIOptions :=
  mkOptions (Some (addMessage user)) (Some (addMessage assistant))
    (Some (fun _ ds => ds)) None false None.

(* ================================================================== *)
(** ** Calls that never reject *)
(* ================================================================== *)

(** Run to its end against [o], the call does not end with an exception
    thrown to its caller (its promise is never rejected). *)
Definition never_rejects {A} (o : Oracle) (m : Fn A) : Prop :=
  forall w, raised (snd (exec o m w)) = false.

(* ================================================================== *)
(** ** More observations and sample answers *)
(* ================================================================== *)

(** The transcripts [socket.onmessage] commits: those of the final frames
    whose transcript is not blank. *)
Definition heard (fs : list Frame) : list jsstr :=
  flat_map (fun f => match f.(frame_transcript) with
                     | Some t => if f.(is_final) && truthy (trim t) then [t] else []
                     | None => []
                     end) fs.

(** The sentence [transcribeAudioFile] stores when the upload fails. *)
Definition canned_transcript : jsstr := lit "I'd like to reflect on my day".

(** The microphone permission is refused. *)
Definition mic_denied : Oracle :=
  fun X c =>
    match c in Call X return Reply X with
    | Audio_requestPermissionsAsync => SettlesAfter 10 (Ok denied)
    | c' => SettlesAfter 10 (all_fine c')
    end.

(** The streaming socket cannot be opened. *)
Definition socket_down : Oracle :=
  fun X c =>
    match c in Call X return Reply X with
    | WebSocket_open _ => SettlesAfter 10 (Thrown ThrownValue)
    | c' => SettlesAfter 10 (all_fine c')
    end.

(** The recorder cannot be created. *)
Definition recorder_busy : Oracle :=
  fun X c =>
    match c in Call X return Reply X with
    | Audio_Recording_createAsync =>
        SettlesAfter 10 (Thrown (ErrorObj (lit "Only one Recording object can be prepared")))
    | c' => SettlesAfter 10 (all_fine c')
    end.

(** The recording file cannot be read back for the upload. *)
Definition upload_fails : Oracle :=
  fun X c =>
    match c in Call X return Reply X with
    | fetch_uri _ => SettlesAfter 10 (Thrown (ErrorObj (lit "Network request failed")))
    | c' => SettlesAfter 10 (all_fine c')
    end.

(** Requests for a starting question. *)
Definition is_question_call (e : Event) : bool :=
  match e with
  | EvAwait (api_journals_getQuestion _ _) => true
  | _ => false
  end.

(** What the voice session screen itself starts: its three handlers, the
    microphone button ([toggleListening]), the "Stop speaking" button, and
    what the hook does on its own (socket events, the unmount cleanup);
    time passes.  It calls [greet] and [speak] from [handleStartSession]
    only. *)
Definition screen_triggers (op : ScreenOp) : bool :=
  match op with
  | OpHandleStartSession | OpHandleEndSession | OpHandleClose => true
  | OpHook OpToggleListening | OpHook OpStopSpeaking | OpHook OpCleanup
  | OpHook (OpSocketMessage _) | OpHook OpSocketClose | OpHook (OpElapse _) => true
  | OpHook _ => false
  end.

(** A step in which no AI takes part: no reflection request, no question
    request, no speech, and the messages it adds are the user's. *)
Definition ai_silent (w w' : World) : Prop :=
  reflections w' = reflections w /\
  speeches w' = speeches w /\
  count is_question_call w'.(trace) = count is_question_call w.(trace) /\
  exists added,
    w'.(screen).(messages) = w.(screen).(messages) ++ added /\
    Forall (fun m => m.(role) = user) added.

(** A step that only adds messages to the log. *)
Definition log_grows (w w' : World) : Prop :=
  exists added, w'.(screen).(messages) = w.(screen).(messages) ++ added.

(** The screen opened with a prompt, and opened for recording only. *)
Definition prompted_params : Params :=
  mkParams (Some (lit " What made you smile today? ")) None.

Definition record_only_params : Params := mkParams None (Some (lit "true")).

(** A note recorded on the record-only screen: the session is started,
    the microphone button is pressed twice (start, then stop), and the
    session is ended, each await settling in turn. *)
Definition recorded_note : list (Step ScreenOp) :=
  [ Start OpHandleStartSession;
    Start (OpHook OpToggleListening);
    Settle 1 all_fine; Settle 1 all_fine; Settle 1 all_fine; Settle 1 all_fine;
    Start (OpHook OpToggleListening);
    Settle 2 all_fine; Settle 2 all_fine; Settle 2 all_fine; Settle 2 all_fine;
    Start OpHandleEndSession; Settle 3 all_fine ].

(** Frames of one utterance: interim results, then the final ones. *)
Definition sample_frames : list Frame :=
  [ mkFrame (Some (lit "I slept")) false;
    mkFrame (Some (lit "I slept well")) true;
    mkFrame (Some (lit "  ")) true;
    mkFrame None false;
    mkFrame (Some (lit "and woke")) false;
    mkFrame (Some (lit "and woke up early.")) true ].

(** Remote schedule checks dispatched so far. *)
Definition is_check_call (e : Event) : bool :=
  match e with
  | EvAwait (fetch_schedule_check _) => true
  | _ => false
  end.

Definition checks (w : World) : nat := count is_check_call w.(trace).

(** A step of the provider that spaces the checks of the poll timer: the
    clock does not go back, the time of the last check moves only when a
    check is dispatched, and then by at least [CHECK_INTERVAL_MS] for each
    check, to a time that is not before the first of them nor after the
    clock. *)
Definition poll_spaced (w w' : World) : Prop :=
  (w.(device).(Date_now) <= w'.(device).(Date_now))%N /\
  (checks w <= checks w')%nat /\
  (checks w' = checks w -> w'.(sched).(lastCheckedRef) = w.(sched).(lastCheckedRef)) /\
  (checks w < checks w' ->
   (w'.(sched).(lastCheckedRef) <= w'.(device).(Date_now))%N /\
   (Z.of_N w.(device).(Date_now)
    + (Z.of_nat (checks w') - Z.of_nat (checks w) - 1) * CHECK_INTERVAL_MS
    <= Z.of_N w'.(sched).(lastCheckedRef))%Z /\
   (Z.of_N w.(sched).(lastCheckedRef)
    + (Z.of_nat (checks w') - Z.of_nat (checks w)) * CHECK_INTERVAL_MS
    <= Z.of_N w'.(sched).(lastCheckedRef))%Z).

(** The poll timer's ticks and the passing of time. *)
Definition is_poll (op : ScheduleOp) : bool :=
  match op with
  | OpPollTick | OpTimePasses _ => true
  | _ => false
  end.



(** The notification permission is refused, also when asked for. *)
Definition notifications_refused : Oracle :=
  fun X c =>
    match c in Call X return Reply X with
    | Notifications_getPermissionsAsync => SettlesAfter 10 (Ok undetermined)
    | Notifications_requestPermissionsAsync => SettlesAfter 10 (Ok denied)
    | c' => SettlesAfter 10 (all_fine c')
    end.

(** The platform refuses to schedule. *)
Definition scheduler_fails : Oracle :=
  fun X c =>
    match c in Call X return Reply X with
    | Notifications_scheduleNotificationAsync _ =>
        SettlesAfter 10 (Thrown (ErrorObj (lit "Failed to schedule the notification")))
    | c' => SettlesAfter 10 (all_fine c')
    end.

(** The platform refuses to cancel. *)
Definition cancel_fails : Oracle :=
  fun X c =>
    match c in Call X return Reply X with
    | Notifications_cancelAllScheduledNotificationsAsync =>
        SettlesAfter 10 (Thrown (ErrorObj (lit "Could not cancel")))
    | c' => SettlesAfter 10 (all_fine c')
    end.

(** Poll ticks two minutes apart, with two extra ticks in between. *)
Definition ticking : list (Step ScheduleOp) :=
  [ Start (OpTimePasses 120000); Start OpPollTick; Settle 1 all_fine;
    Start (OpTimePasses 60000); Start OpPollTick;
    Start (OpTimePasses 1000); Start OpPollTick; Settle 1 all_fine;
    Start (OpTimePasses 59000); Start OpPollTick; Settle 6 all_fine ].



(* ================================================================== *)
(** ** Formatting numbers; the settings and compose screens *)
(* ================================================================== *)

(** [Number.prototype.toString()] of a non-negative integer: its decimal
    digits, most significant first.  [fuel] bounds the number of digits. *)
Fixpoint digits_from (fuel : nat) (n : N) (acc : jsstr) : jsstr :=
  match fuel with
  | O => acc
  | S f =>
      let acc' := (48 + n mod 10)%N :: acc in
      if (n / 10 =? 0)%N then acc' else digits_from f (n / 10) acc'
  end.

Definition toString10 (n : N) : jsstr :=
  digits_from (S (N.to_nat (N.log2 n))) n [].

(** [s.padStart(target, pad)] for a pad string of one code unit. *)
Definition padStart (target : nat) (pad : N) (s : jsstr) : jsstr :=
  repeat pad (target - List.length s) ++ s.

(** [formatDuration] of the voice session screen:
    [`${Math.floor(seconds / 60)}:${(seconds % 60).toString().padStart(2, "0")}`]. *)
Definition formatDuration (seconds : N) : jsstr :=
  let mins := (seconds / 60)%N in
  let secs := (seconds mod 60)%N in
  toString10 mins ++ lit ":" ++ padStart 2 48 (toString10 secs).

(** The time string [saveSchedule] of the settings screen sends to the
    backend and to [scheduleLocalNotifications]:
    [`${hour.toString().padStart(2, "0")}:${minute.toString().padStart(2, "0")}`]. *)
Definition schedule_time (selectedHour selectedMinute : N) : jsstr :=
  padStart 2 48 (toString10 selectedHour) ++ lit ":" ++ padStart 2 48 (toString10 selectedMinute).

(** The state update of [toggleDay] in the settings screen:
    [prev.includes(day) ? prev.filter((d) => d !== day) : [...prev, day]]. *)
Definition toggleDay (day : jsstr) (prev : list jsstr) : list jsstr :=
  if existsb (jsstr_eqb day) prev
  then filter (fun d => negb (jsstr_eqb d day)) prev
  else prev ++ [day].

(** The state update of the compose screen's [onTranscript]:
    [prev + (prev ? " " : "") + text]. *)
Definition compose_onTranscript (prev text : jsstr) : jsstr :=
  prev ++ (if truthy prev then lit " " else []) ++ text.

(** [handleNotificationResponse] of the schedule provider, on the
    [screen] field of the tapped notification's data ([None] when the
    data has none). *)
Definition handleNotificationResponse (screen_field : option jsstr) : Fn unit :=
  match screen_field with
  | Some s =>
      if jsstr_eqb s (lit "voice-session") then emit (EvRouterPush (lit "/voice-session"))
      else if jsstr_eqb s (lit "compose") then emit (EvRouterPush (lit "/(tabs)/compose"))
      else ret tt
  | None => ret tt
  end.

(** One step of reading a decimal number, digit by digit. *)
Definition digit_step (a : Z) (c : N) : Z := (a * 10 + Z.of_N (c - 48))%Z.

(** The reply [stopListening] takes from the reflection agent's answer:
    [res?.response?.trim()] when that is not empty, else the fallback. *)
Definition chosen_reply (res : option (option jsstr)) : jsstr :=
  match res with
  | Some (Some r) => if truthy (trim r) then trim r else reflection_fallback
  | _ => reflection_fallback
  end.

(** The agent answers with white space around its question. *)
Definition agent_replies : Oracle :=
  fun X c =>
    match c in Call X return Reply X with
    | api_voice_getReflection _ =>
        SettlesAfter 10 (Ok (Some (Some (lit "  What helped you sleep?  "))))
    | c' => SettlesAfter 10 (all_fine c')
    end.

(* ================================================================== *)
(** ** Turns after the exchange; slow platform calls *)
(* ================================================================== *)



(** The lookup of the voices never settles. *)
Definition voices_pending : Oracle :=
  fun X c =>
    match c in Call X return Reply X with
    | Speech_getAvailableVoicesAsync => NeverSettles
    | c' => SettlesAfter 10 (all_fine c')
    end.

(** The lookup of the voices takes an hour, and the speech engine never
    calls back. *)
Definition voices_slow : Oracle :=
  fun X c =>
    match c in Call X return Reply X with
    | Speech_getAvailableVoicesAsync => SettlesAfter 3600000 (Ok [])
    | Speech_speak _ _ => NeverSettles
    | c' => SettlesAfter 10 (all_fine c')
    end.
(* ================================================================== *)
(** * Properties *)
(* ================================================================== *)

(** ** Laws of async functions *)

Lemma Async_induction A (P : Async A -> Prop) :
  (forall r, P (Done r)) ->
  (forall X (c : Call X) k, (forall r w, P (snd (k r w))) -> P (Await c k)) ->
  (forall X (c : Call X) ms k, (forall r w, P (snd (k r w))) -> P (AwaitRace c ms k)) ->
  (forall k, (forall w, P (snd (k w))) -> P (Tick k)) ->
  forall p, P p.
Proof.
  intros Hd Ha Hr Ht. fix IH 1. intros [r|X c k|X c ms k|k].
  - apply Hd.
  - apply Ha. intros r w. apply IH.
  - apply Hr. intros r w. apply IH.
  - apply Ht. intros w. apply IH.
Qed.

Lemma execA_bindA A B (o : Oracle) (f : A -> Fn B) (p : Async A) :
  forall w, (let (w', p') := bindA p f w in execA o p' w') = then_exec o f (execA o p w).
Proof.
  induction p as [r|X c k IH|X c ms k IH|k IH] using Async_induction; intros w; simpl.
  - destruct r; reflexivity.
  - destruct (o X c) as [t r|]; [|reflexivity].
    specialize (IH r (advance t w)). destruct (k r (advance t w)); apply IH.
  - destruct (o X c) as [t r|].
    + destruct (t <=? ms)%N.
      * specialize (IH (Some r) (advance t w)). destruct (k (Some r) (advance t w)); apply IH.
      * specialize (IH None (advance ms w)). destruct (k None (advance ms w)); apply IH.
    + specialize (IH None (advance ms w)). destruct (k None (advance ms w)); apply IH.
  - specialize (IH w). destruct (k w); apply IH.
Qed.

Lemma exec_bind A B (o : Oracle) (m : Fn A) (f : A -> Fn B) w :
  exec o (bind m f) w = then_exec o f (exec o m w).
Proof.
  unfold exec, bind. destruct (m w) as [w' p]. apply execA_bindA.
Qed.

Lemma execA_catchA A (o : Oracle) (h : JsError -> Fn A) (p : Async A) :
  forall w, (let (w', p') := catchA p h w in execA o p' w') = catch_exec o h (execA o p w).
Proof.
  induction p as [r|X c k IH|X c ms k IH|k IH] using Async_induction; intros w; simpl.
  - destruct r; reflexivity.
  - destruct (o X c) as [t r|]; [|reflexivity].
    specialize (IH r (advance t w)). destruct (k r (advance t w)); apply IH.
  - destruct (o X c) as [t r|].
    + destruct (t <=? ms)%N.
      * specialize (IH (Some r) (advance t w)). destruct (k (Some r) (advance t w)); apply IH.
      * specialize (IH None (advance ms w)). destruct (k None (advance ms w)); apply IH.
    + specialize (IH None (advance ms w)). destruct (k None (advance ms w)); apply IH.
  - specialize (IH w). destruct (k w); apply IH.
Qed.

Lemma exec_try_catch A (o : Oracle) (m : Fn A) (h : JsError -> Fn A) w :
  exec o (try_catch m h) w = catch_exec o h (exec o m w).
Proof.
  unfold exec, try_catch. destruct (m w) as [w' p]. apply execA_catchA.
Qed.

Lemma execA_tickA A (o : Oracle) (p : Async A) :
  forall w, (let (w', p') := tickA p w in execA o p' w') = execA o p w.
Proof.
  induction p as [r|X c k IH|X c ms k IH|k IH] using Async_induction; intros w; simpl.
  - destruct r; reflexivity.
  - destruct (o X c) as [t r|]; [|reflexivity].
    specialize (IH r (advance t w)). destruct (k r (advance t w)); apply IH.
  - destruct (o X c) as [t r|].
    + destruct (t <=? ms)%N.
      * specialize (IH (Some r) (advance t w)). destruct (k (Some r) (advance t w)); apply IH.
      * specialize (IH None (advance ms w)). destruct (k None (advance ms w)); apply IH.
    + specialize (IH None (advance ms w)). destruct (k None (advance ms w)); apply IH.
  - specialize (IH w). destruct (k w); apply IH.
Qed.

Lemma exec_await_async A (o : Oracle) (m : Fn A) w :
  exec o (await_async m) w = exec o m w.
Proof.
  unfold exec, await_async. destruct (m w) as [w' p]. apply execA_tickA.
Qed.

Lemma exec_ret A (o : Oracle) (a : A) w : exec o (ret a) w = (w, Returned a).
Proof. reflexivity. Qed.

Lemma exec_throw A (o : Oracle) e w : exec o (@throw A e) w = (w, Raised e).
Proof. reflexivity. Qed.

Lemma exec_read A (o : Oracle) (g : World -> A) w : exec o (read g) w = (w, Returned (g w)).
Proof. reflexivity. Qed.

Lemma exec_modify (o : Oracle) f w : exec o (modify f) w = (f w, Returned tt).
Proof. reflexivity. Qed.

Lemma exec_emit (o : Oracle) e w : exec o (emit e) w = (log e w, Returned tt).
Proof. reflexivity. Qed.

Lemma exec_await X (o : Oracle) (c : Call X) w :
  exec o (await c) w =
  match o X c with
  | SettlesAfter t (Ok x) => (advance t (log (EvAwait c) w), Returned x)
  | SettlesAfter t (Thrown e) => (advance t (log (EvAwait c) w), Raised e)
  | NeverSettles => (log (EvAwait c) w, Hung)
  end.
Proof.
  unfold exec, await; simpl. destruct (o X c) as [t [x|e]|]; reflexivity.
Qed.

Lemma exec_await_race X (o : Oracle) (c : Call X) ms w :
  exec o (await_race c ms) w =
  match o X c with
  | SettlesAfter t r =>
      if (t <=? ms)%N then (advance t (log (EvAwait c) w), Returned (Some r))
      else (advance ms (log (EvAwait c) w), Returned None)
  | NeverSettles => (advance ms (log (EvAwait c) w), Returned None)
  end.
Proof.
  unfold exec, await_race; simpl. destruct (o X c) as [t r|]; [destruct (t <=? ms)%N|]; reflexivity.
Qed.

Lemma exec_setState (o : Oracle) f w :
  exec o (setState f) w = (log (EvSetState (f w.(state))) (on_state f w), Returned tt).
Proof. reflexivity. Qed.

Lemma exec_set_ref (o : Oracle) f w : exec o (set_ref f) w = (on_refs f w, Returned tt).
Proof. reflexivity. Qed.

Lemma exec_setAudioModeAsync (o : Oracle) m w :
  exec o (setAudioModeAsync m) w =
  match o _ (Audio_setAudioModeAsync m) with
  | SettlesAfter t (Ok _) =>
      (on_device (apply_mode m) (advance t (log (EvAwait (Audio_setAudioModeAsync m)) w)),
       Returned tt)
  | SettlesAfter t (Thrown e) =>
      (advance t (log (EvAwait (Audio_setAudioModeAsync m)) w), Raised e)
  | NeverSettles => (log (EvAwait (Audio_setAudioModeAsync m)) w, Hung)
  end.
Proof.
  unfold setAudioModeAsync. rewrite exec_bind, exec_await.
  destruct (o unit (Audio_setAudioModeAsync m)) as [t [[]|e]|]; reflexivity.
Qed.

(** ** Trimmed strings *)

Lemma trimStart_head s :
  match trimStart s with
  | [] => True
  | c :: _ => is_js_space c = false
  end.
Proof.
  induction s as [|c s IH]; simpl; [exact Logic.I|].
  destruct (is_js_space c) eqn:E; [exact IH|exact E].
Qed.

Lemma trimStart_suffix s : exists pre, s = pre ++ trimStart s.
Proof.
  induction s as [|c s [pre IH]]; simpl.
  - exists []. reflexivity.
  - destruct (is_js_space c).
    + exists (c :: pre). simpl. rewrite <- IH. reflexivity.
    + exists []. reflexivity.
Qed.

Lemma last_nonempty (s : jsstr) d d' : s <> [] -> last s d = last s d'.
Proof.
  induction s as [|c s IH]; intros Hs; [contradiction|].
  destruct s as [|c' s']; [reflexivity|].
  change (last (c' :: s') d = last (c' :: s') d'). apply IH. discriminate.
Qed.

Lemma last_app_nonempty (a s : jsstr) d : s <> [] -> last (a ++ s) d = last s d.
Proof.
  intros Hs. induction a as [|c a IH]; [reflexivity|].
  simpl. destruct (a ++ s) eqn:E; [|exact IH].
  apply app_eq_nil in E. tauto.
Qed.

Lemma rev_head_last (s : jsstr) c : s <> [] -> exists t, rev s = last s c :: t.
Proof.
  intros Hs. pose proof (app_removelast_last c Hs) as E.
  exists (rev (removelast s)).
  rewrite E at 1. rewrite rev_app_distr. reflexivity.
Qed.

Lemma trimmed_head_last s :
  trimmed s = true <->
  exists c t, s = c :: t /\ is_js_space c = false /\ is_js_space (last s c) = false.
Proof.
  unfold trimmed. split.
  - destruct s as [|c t]; [discriminate|]. intros H.
    apply andb_true_iff in H as [H1 H2]. apply negb_true_iff in H1, H2.
    exists c, t. auto.
  - intros (c & t & -> & H1 & H2).
    change (negb (is_js_space c) && negb (is_js_space (last (c :: t) c)) = true).
    apply andb_true_iff. split; apply negb_true_iff; assumption.
Qed.

(** [trim] leaves a trimmed string as it is. *)
Lemma trim_trimmed s : trimmed s = true -> trim s = s.
Proof.
  intros H. apply trimmed_head_last in H as (c & t & -> & H1 & H2).
  unfold trim, trimEnd. cbn [trimStart]. rewrite H1.
  destruct (@rev_head_last (c :: t) c ltac:(discriminate)) as [u Hu].
  rewrite Hu. cbn [trimStart]. rewrite H2. rewrite <- Hu. apply rev_involutive.
Qed.

(** What [trim] returns is empty or trimmed. *)
Lemma trimmed_trim s : truthy (trim s) = true -> trimmed (trim s) = true.
Proof.
  unfold trim, trimEnd. intros Hne.
  pose proof (trimStart_head s) as Ha.
  pose proof (trimStart_head (rev (trimStart s))) as Hb.
  destruct (trimStart_suffix (rev (trimStart s))) as [pre Hpre].
  set (a := trimStart s) in *. set (b := trimStart (rev a)) in *.
  destruct b as [|cb b'] eqn:Eb; [discriminate Hne|].
  assert (Ha' : exists ca a', a = ca :: a').
  { destruct a as [|ca a']; [destruct pre; discriminate|eauto]. }
  destruct Ha' as (ca & a' & Ea). rewrite Ea in Ha.
  apply trimmed_head_last.
  destruct (rev (cb :: b')) as [|c t] eqn:Er.
  { apply (f_equal (@List.length N)) in Er. rewrite length_rev in Er. discriminate. }
  exists c, t. split; [reflexivity|].
  assert (Hlast : last (c :: t) c = cb).
  { rewrite <- Er. simpl. rewrite last_last. reflexivity. }
  assert (Hhead : c = ca).
  { assert (E : rev (rev a) = rev (pre ++ cb :: b')) by (rewrite Hpre; reflexivity).
    rewrite rev_involutive, rev_app_distr, Er, Ea in E. simpl in E.
    injection E as E _. auto. }
  rewrite Hlast, Hhead. auto.
Qed.

Lemma trimmed_truthy s : trimmed s = true -> truthy s = true.
Proof. destruct s; [discriminate|reflexivity]. Qed.

(** Trimmed strings joined by a space make a trimmed string. *)
Lemma trimmed_join (l : list jsstr) :
  l <> [] -> Forall (fun s => trimmed s = true) l -> trimmed (join (lit " ") l) = true.
Proof.
  induction l as [|x l IH]; intros Hne Hl; [contradiction|].
  inversion Hl as [|? ? Hx Hl']; subst.
  destruct l as [|y l']; [exact Hx|].
  specialize (IH ltac:(discriminate) Hl').
  change (join (lit " ") (x :: y :: l')) with (x ++ lit " " ++ join (lit " ") (y :: l')).
  set (z := join (lit " ") (y :: l')) in *.
  apply trimmed_head_last in Hx as (c & t & -> & Hc & _).
  apply trimmed_head_last in IH as (cz & tz & Ez & _ & Hz).
  apply trimmed_head_last. exists c, (t ++ lit " " ++ z).
  split; [reflexivity|]. split; [exact Hc|].
  replace ((c :: t) ++ lit " " ++ z) with (((c :: t) ++ lit " ") ++ z)
    by (rewrite <- app_assoc; reflexivity).
  rewrite last_app_nonempty by (rewrite Ez; discriminate).
  rewrite (@last_nonempty z c cz) by (rewrite Ez; discriminate). exact Hz.
Qed.

(** ** Rules for what segments guarantee *)

Section GuaranteeRules.

Variable G : World -> World -> Prop.
Variable R : forall X : Type, Call X -> result X -> Prop.
Hypothesis G_refl : forall w, G w w.
Hypothesis G_trans : forall w1 w2 w3, G w1 w2 -> G w2 w3 -> G w1 w3.

Lemma keeps_within A (P : World -> World -> Prop) (m : Fn A) :
  keeps G R m -> (forall w0 w, P w0 w -> G w0 w) -> within G R P m.
Proof.
  intros Hm HP w0 w Hw. specialize (Hm w w eq_refl).
  destruct (m w) as [w' p]. destruct Hm. split; eauto.
Qed.

Lemma within_weaken A (P P' : World -> World -> Prop) (m : Fn A) :
  within G R P m -> (forall w0 w, P' w0 w -> P w0 w) -> within G R P' m.
Proof. intros Hm HP w0 w Hw. apply Hm, HP, Hw. Qed.

Lemma keeps_ret A (a : A) : keeps G R (ret a).
Proof. intros w0 w <-. simpl. auto. Qed.

Lemma keeps_throw A e : keeps G R (@throw A e).
Proof. intros w0 w <-. simpl. auto. Qed.

Lemma keeps_read A (g : World -> A) : keeps G R (read g).
Proof. intros w0 w <-. simpl. auto. Qed.

Lemma keeps_modify f : (forall w, G w (f w)) -> keeps G R (modify f).
Proof. intros Hf w0 w <-. simpl. auto. Qed.

Lemma keeps_await X (c : Call X) :
  (forall w, G w (log (EvAwait c) w)) -> keeps G R (await c).
Proof.
  intros Hc w0 w <-. simpl. split; [auto|]. intros r w' _. simpl. auto.
Qed.

Lemma keeps_await_race X (c : Call X) ms :
  (forall w, G w (log (EvAwait c) w)) -> keeps G R (await_race c ms).
Proof.
  intros Hc w0 w <-. simpl. split; [auto|]. intros r w' _. simpl. auto.
Qed.

Lemma segments_bindA A B (f : A -> Fn B) (p : Async A) :
  (forall a, keeps G R (f a)) ->
  forall w0 w, G w0 w -> segments G R p ->
  let (w', p') := bindA p f w in G w0 w' /\ segments G R p'.
Proof.
  intros Hf.
  induction p as [r|X c k IH|X c ms k IH|k IH] using Async_induction;
    intros w0 w Hw Hp; simpl in *.
  - destruct r as [a|e]; [|auto].
    specialize (Hf a w w eq_refl). destruct (f a w) as [w' p']. destruct Hf. eauto.
  - split; auto. intros r w1 Hr. specialize (Hp r w1 Hr). specialize (IH r w1).
    destruct (k r w1) as [w2 p2]. destruct Hp. apply IH; auto.
  - split; auto. intros r w1 Hr. specialize (Hp r w1 Hr). specialize (IH r w1).
    destruct (k r w1) as [w2 p2]. destruct Hp. apply IH; auto.
  - split; auto. intros w1. specialize (Hp w1). specialize (IH w1).
    destruct (k w1) as [w2 p2]. destruct Hp. apply IH; auto.
Qed.

Lemma within_bind A B (P : World -> World -> Prop) (m : Fn A) (f : A -> Fn B) :
  within G R P m -> (forall a, keeps G R (f a)) -> within G R P (bind m f).
Proof.
  intros Hm Hf w0 w Hw. unfold bind. specialize (Hm w0 w Hw).
  destruct (m w) as [w' p]. destruct Hm. apply segments_bindA; auto.
Qed.

Lemma keeps_bind A B (m : Fn A) (f : A -> Fn B) :
  keeps G R m -> (forall a, keeps G R (f a)) -> keeps G R (bind m f).
Proof. apply within_bind. Qed.

Lemma segments_catchA A (h : JsError -> Fn A) (p : Async A) :
  (forall e, keeps G R (h e)) ->
  forall w0 w, G w0 w -> segments G R p ->
  let (w', p') := catchA p h w in G w0 w' /\ segments G R p'.
Proof.
  intros Hh.
  induction p as [r|X c k IH|X c ms k IH|k IH] using Async_induction;
    intros w0 w Hw Hp; simpl in *.
  - destruct r as [a|e]; [auto|].
    specialize (Hh e w w eq_refl). destruct (h e w) as [w' p']. destruct Hh. eauto.
  - split; auto. intros r w1 Hr. specialize (Hp r w1 Hr). specialize (IH r w1).
    destruct (k r w1) as [w2 p2]. destruct Hp. apply IH; auto.
  - split; auto. intros r w1 Hr. specialize (Hp r w1 Hr). specialize (IH r w1).
    destruct (k r w1) as [w2 p2]. destruct Hp. apply IH; auto.
  - split; auto. intros w1. specialize (Hp w1). specialize (IH w1).
    destruct (k w1) as [w2 p2]. destruct Hp. apply IH; auto.
Qed.

Lemma within_try_catch A (P : World -> World -> Prop) (m : Fn A) (h : JsError -> Fn A) :
  within G R P m -> (forall e, keeps G R (h e)) -> within G R P (try_catch m h).
Proof.
  intros Hm Hh w0 w Hw. unfold try_catch. specialize (Hm w0 w Hw).
  destruct (m w) as [w' p]. destruct Hm. apply segments_catchA; auto.
Qed.

Lemma keeps_try_catch A (m : Fn A) (h : JsError -> Fn A) :
  keeps G R m -> (forall e, keeps G R (h e)) -> keeps G R (try_catch m h).
Proof. apply within_try_catch. Qed.

Lemma segments_tickA A (p : Async A) :
  forall w0 w, G w0 w -> segments G R p ->
  let (w', p') := tickA p w in G w0 w' /\ segments G R p'.
Proof.
  induction p as [r|X c k IH|X c ms k IH|k IH] using Async_induction;
    intros w0 w Hw Hp; simpl in *.
  - split; auto.
  - split; auto. intros r w1 Hr. specialize (Hp r w1 Hr). specialize (IH r w1).
    destruct (k r w1) as [w2 p2]. destruct Hp. apply IH; auto.
  - split; auto. intros r w1 Hr. specialize (Hp r w1 Hr). specialize (IH r w1).
    destruct (k r w1) as [w2 p2]. destruct Hp. apply IH; auto.
  - split; auto. intros w1. specialize (Hp w1). specialize (IH w1).
    destruct (k w1) as [w2 p2]. destruct Hp. apply IH; auto.
Qed.

Lemma within_await_async A (P : World -> World -> Prop) (m : Fn A) :
  within G R P m -> within G R P (await_async m).
Proof.
  intros Hm w0 w Hw. unfold await_async. specialize (Hm w0 w Hw).
  destruct (m w) as [w' p]. destruct Hm. apply segments_tickA; auto.
Qed.

Lemma keeps_await_async A (m : Fn A) : keeps G R m -> keeps G R (await_async m).
Proof. apply within_await_async. Qed.

(** Within a segment: a value read from the world is known for the rest
    of the segment, and an update moves the segment on. *)
Lemma within_read_bind A B (P : World -> World -> Prop) (g : World -> A) (f : A -> Fn B) :
  (forall a, within G R (fun w0 w => P w0 w /\ g w = a) (f a)) ->
  within G R P (bind (read g) f).
Proof.
  intros Hf w0 w Hw. unfold bind, read; simpl. apply (Hf (g w) w0 w). auto.
Qed.

Lemma within_modify_bind B (P P' : World -> World -> Prop) (h : World -> World)
    (f : unit -> Fn B) :
  (forall w0 w, P w0 w -> P' w0 (h w)) ->
  within G R P' (f tt) ->
  within G R P (bind (modify h) f).
Proof.
  intros Hh Hf w0 w Hw. unfold bind, modify; simpl. apply (Hf w0 (h w)). auto.
Qed.

Lemma within_await X (P : World -> World -> Prop) (c : Call X) :
  (forall w0 w, P w0 w -> G w0 (log (EvAwait c) w)) -> within G R P (await c).
Proof.
  intros Hc w0 w Hw. simpl. split; [auto|]. intros r w' _. simpl. auto.
Qed.

(** *** What a call returns *)

Lemma yields_ret A (T : A -> Prop) a : T a -> yields R T (ret a).
Proof. intros Ha w. exact Ha. Qed.

Lemma yields_throw A (T : A -> Prop) e : yields R T (throw e).
Proof. intros w. exact Logic.I. Qed.

Lemma yields_await X (c : Call X) : yields R (fun x => R c (Ok x)) (await c).
Proof. intros w. simpl. intros [x|e] w' Hr; simpl; auto. Qed.

Lemma returns_bindA A B (U : A -> Prop) (T : B -> Prop) (f : A -> Fn B) (p : Async A) :
  (forall a, U a -> yields R T (f a)) ->
  returns R U p -> forall w, returns R T (snd (bindA p f w)).
Proof.
  intros Hf.
  induction p as [r|X c k IH|X c ms k IH|k IH] using Async_induction; intros Hp w; simpl in *.
  - destruct r as [a|e]; simpl; auto. apply Hf, Hp.
  - intros r w1 Hr. specialize (Hp r w1 Hr). specialize (IH r w1 Hp).
    destruct (k r w1) as [w2 p2]. apply IH.
  - intros r w1 Hr. specialize (Hp r w1 Hr). specialize (IH r w1 Hp).
    destruct (k r w1) as [w2 p2]. apply IH.
  - intros w1. specialize (Hp w1). specialize (IH w1 Hp).
    destruct (k w1) as [w2 p2]. apply IH.
Qed.

Lemma yields_bind A B (U : A -> Prop) (T : B -> Prop) (m : Fn A) (f : A -> Fn B) :
  yields R U m -> (forall a, U a -> yields R T (f a)) -> yields R T (bind m f).
Proof.
  intros Hm Hf w. unfold bind. specialize (Hm w). destruct (m w) as [w' p].
  eapply returns_bindA; eauto.
Qed.

Lemma returns_catchA A (T : A -> Prop) (h : JsError -> Fn A) (p : Async A) :
  (forall e, yields R T (h e)) ->
  returns R T p -> forall w, returns R T (snd (catchA p h w)).
Proof.
  intros Hh.
  induction p as [r|X c k IH|X c ms k IH|k IH] using Async_induction; intros Hp w; simpl in *.
  - destruct r as [a|e]; simpl; auto. apply Hh.
  - intros r w1 Hr. specialize (Hp r w1 Hr). specialize (IH r w1 Hp).
    destruct (k r w1) as [w2 p2]. apply IH.
  - intros r w1 Hr. specialize (Hp r w1 Hr). specialize (IH r w1 Hp).
    destruct (k r w1) as [w2 p2]. apply IH.
  - intros w1. specialize (Hp w1). specialize (IH w1 Hp).
    destruct (k w1) as [w2 p2]. apply IH.
Qed.

Lemma yields_try_catch A (T : A -> Prop) (m : Fn A) (h : JsError -> Fn A) :
  yields R T m -> (forall e, yields R T (h e)) -> yields R T (try_catch m h).
Proof.
  intros Hm Hh w. unfold try_catch. specialize (Hm w). destruct (m w) as [w' p].
  eapply returns_catchA; eauto.
Qed.

Lemma returns_tickA A (T : A -> Prop) (p : Async A) :
  returns R T p -> forall w, returns R T (snd (tickA p w)).
Proof.
  induction p as [r|X c k IH|X c ms k IH|k IH] using Async_induction; intros Hp w; simpl in *.
  - intros w1. exact Hp.
  - intros r w1 Hr. specialize (Hp r w1 Hr). specialize (IH r w1 Hp).
    destruct (k r w1) as [w2 p2]. apply IH.
  - intros r w1 Hr. specialize (Hp r w1 Hr). specialize (IH r w1 Hp).
    destruct (k r w1) as [w2 p2]. apply IH.
  - intros w1. specialize (Hp w1). specialize (IH w1 Hp).
    destruct (k w1) as [w2 p2]. apply IH.
Qed.

Lemma yields_await_async A (T : A -> Prop) (m : Fn A) :
  yields R T m -> yields R T (await_async m).
Proof.
  intros Hm w. unfold await_async. specialize (Hm w). destruct (m w) as [w' p].
  apply returns_tickA, Hm.
Qed.

Lemma segments_bindA_returns A B (U : A -> Prop) (f : A -> Fn B) (p : Async A) :
  (forall a, U a -> keeps G R (f a)) ->
  returns R U p ->
  forall w0 w, G w0 w -> segments G R p ->
  let (w', p') := bindA p f w in G w0 w' /\ segments G R p'.
Proof.
  intros Hf.
  induction p as [r|X c k IH|X c ms k IH|k IH] using Async_induction;
    intros Hu w0 w Hw Hp; simpl in *.
  - destruct r as [a|e]; [|auto].
    specialize (Hf a Hu w w eq_refl). destruct (f a w) as [w' p']. destruct Hf. eauto.
  - split; auto. intros r w1 Hr. specialize (Hp r w1 Hr). specialize (Hu r w1 Hr).
    specialize (IH r w1). destruct (k r w1) as [w2 p2]. destruct Hp. apply IH; auto.
  - split; auto. intros r w1 Hr. specialize (Hp r w1 Hr). specialize (Hu r w1 Hr).
    specialize (IH r w1). destruct (k r w1) as [w2 p2]. destruct Hp. apply IH; auto.
  - split; auto. intros w1. specialize (Hp w1). specialize (Hu w1).
    specialize (IH w1). destruct (k w1) as [w2 p2]. destruct Hp. apply IH; auto.
Qed.

(** The rest of a function may rely on what its first part returns. *)
Lemma keeps_bind_yields A B (U : A -> Prop) (m : Fn A) (f : A -> Fn B) :
  keeps G R m -> yields R U m -> (forall a, U a -> keeps G R (f a)) ->
  keeps G R (bind m f).
Proof.
  intros Hm Hu Hf w0 w Heq. subst w0. unfold bind. specialize (Hm w w eq_refl). specialize (Hu w).
  destruct (m w) as [w' p]. destruct Hm. eapply segments_bindA_returns; eauto.
Qed.

(** *** Soundness for interleaved runs *)

Lemma Forall_replace_nth A (P : A -> Prop) (l : list A) : forall i x,
  Forall P l -> P x -> Forall P (replace_nth i x l).
Proof.
  induction l as [|y l IH]; intros [|i] x Hl Hx; simpl; auto;
    inversion Hl; subst; constructor; auto.
Qed.

(** A step resumes a call or starts one: the suspended calls stay calls
    whose segments are [G] steps, whatever is started; and the step
    itself is a [G] step when what it starts keeps [G]. *)
Lemma step_segments Op (interp : Op -> Fn unit) (r : Running) (s : Step Op) :
  (forall op w, segments G R (snd (interp op w))) ->
  step_allowed R s ->
  Forall (segments G R) r.(tasks) ->
  Forall (segments G R) (step interp r s).(tasks).
Proof.
  intros Hops Hs Ht. destruct s as [op|i o|i]; simpl in *.
  - specialize (Hops op r.(world)). destruct (interp op (world r)) as [w' p]. simpl in *.
    apply Forall_app. split; auto.
  - destruct (nth_error (tasks r) i) as [p|] eqn:Hn; [|auto].
    assert (Hp : segments G R p).
    { apply nth_error_In in Hn. rewrite Forall_forall in Ht. auto. }
    destruct p as [res|X c k|X c ms k|k]; simpl in *; auto.
    + specialize (Hp (o X c) r.(world) (Hs X c)). unfold resume.
      destruct (k (o X c) (world r)) as [w' p']. simpl.
      apply Forall_replace_nth; tauto.
    + specialize (Hp (Some (o X c)) r.(world) (Hs X c)). unfold resume.
      destruct (k (Some (o X c)) (world r)) as [w' p']. simpl.
      apply Forall_replace_nth; tauto.
    + specialize (Hp r.(world)). unfold resume.
      destruct (k (world r)) as [w' p']. simpl.
      apply Forall_replace_nth; tauto.
  - destruct (nth_error (tasks r) i) as [p|] eqn:Hn; [|auto].
    assert (Hp : segments G R p).
    { apply nth_error_In in Hn. rewrite Forall_forall in Ht. auto. }
    destruct p as [res|X c k|X c ms k|k]; simpl in *; auto.
    specialize (Hp None r.(world) Logic.I). unfold resume.
    destruct (k None (world r)) as [w' p']. simpl.
    apply Forall_replace_nth; tauto.
Qed.

Lemma step_guarantee Op (interp : Op -> Fn unit) (ok : Op -> bool) (r : Running)
    (s : Step Op) :
  (forall op, ok op = true -> keeps G R (interp op)) ->
  starts ok s = true ->
  step_allowed R s ->
  Forall (segments G R) r.(tasks) ->
  G r.(world) (step interp r s).(world).
Proof.
  intros Hops Hok Hs Ht. destruct s as [op|i o|i]; simpl in *.
  - specialize (Hops op Hok r.(world) r.(world) eq_refl).
    destruct (interp op (world r)) as [w' p]. simpl. tauto.
  - destruct (nth_error (tasks r) i) as [p|] eqn:Hn; [|auto].
    assert (Hp : segments G R p).
    { apply nth_error_In in Hn. rewrite Forall_forall in Ht. auto. }
    destruct p as [res|X c k|X c ms k|k]; simpl in *; auto.
    + specialize (Hp (o X c) r.(world) (Hs X c)). unfold resume.
      destruct (k (o X c) (world r)) as [w' p']. simpl. tauto.
    + specialize (Hp (Some (o X c)) r.(world) (Hs X c)). unfold resume.
      destruct (k (Some (o X c)) (world r)) as [w' p']. simpl. tauto.
    + specialize (Hp r.(world)). unfold resume.
      destruct (k (world r)) as [w' p']. simpl. tauto.
  - destruct (nth_error (tasks r) i) as [p|] eqn:Hn; [|auto].
    assert (Hp : segments G R p).
    { apply nth_error_In in Hn. rewrite Forall_forall in Ht. auto. }
    destruct p as [res|X c k|X c ms k|k]; simpl in *; auto.
    specialize (Hp None r.(world) Logic.I). unfold resume.
    destruct (k None (world r)) as [w' p']. simpl. tauto.
Qed.


Lemma run_guarantee Op (interp : Op -> Fn unit) (ok : Op -> bool) (l : list (Step Op)) :
  (forall op w, segments G R (snd (interp op w))) ->
  (forall op, ok op = true -> keeps G R (interp op)) ->
  forallb (starts ok) l = true ->
  Forall (step_allowed R) l ->
  forall r, Forall (segments G R) r.(tasks) ->
  G r.(world) (run interp r l).(world).
Proof.
  intros Hsegs Hops Hok Hl. induction Hl as [|s l Hs Hl IH]; intros r Ht; simpl; auto.
  simpl in Hok. apply andb_true_iff in Hok as [Hok1 Hok2].
  eapply G_trans.
  - eapply step_guarantee; eauto.
  - apply IH; auto. apply step_segments; auto.
Qed.

(** *** Soundness for a call run to completion *)

Lemma execA_guarantee A (o : Oracle) (p : Async A) :
  oracle_allowed R o ->
  (forall ms w, G w (advance ms w)) ->
  forall w0 w, G w0 w -> segments G R p -> G w0 (fst (execA o p w)).
Proof.
  intros Ho Hadv.
  induction p as [r|X c k IH|X c ms k IH|k IH] using Async_induction;
    intros w0 w Hw Hp; simpl in *.
  - destruct r; auto.
  - destruct (o X c) as [t r|] eqn:Hoc; [|auto].
    specialize (Hp r (advance t w) (Ho X c t r Hoc)). specialize (IH r (advance t w)).
    destruct (k r (advance t w)) as [w2 p2]. destruct Hp. apply IH; eauto.
  - destruct (o X c) as [t r|] eqn:Hoc.
    + destruct (t <=? ms)%N.
      * specialize (Hp (Some r) (advance t w) (Ho X c t r Hoc)).
        specialize (IH (Some r) (advance t w)).
        destruct (k (Some r) (advance t w)) as [w2 p2]. destruct Hp. apply IH; eauto.
      * specialize (Hp None (advance ms w) Logic.I). specialize (IH None (advance ms w)).
        destruct (k None (advance ms w)) as [w2 p2]. destruct Hp. apply IH; eauto.
    + specialize (Hp None (advance ms w) Logic.I). specialize (IH None (advance ms w)).
      destruct (k None (advance ms w)) as [w2 p2]. destruct Hp. apply IH; eauto.
  - specialize (Hp w). specialize (IH w).
    destruct (k w) as [w2 p2]. destruct Hp. apply IH; eauto.
Qed.

Lemma exec_guarantee A (o : Oracle) (m : Fn A) w :
  keeps G R m ->
  oracle_allowed R o ->
  (forall ms w, G w (advance ms w)) ->
  G w (fst (exec o m w)).
Proof.
  intros Hm Ho Hadv. unfold exec. specialize (Hm w w eq_refl).
  destruct (m w) as [w' p]. destruct Hm. apply execA_guarantee; auto.
Qed.

End GuaranteeRules.

(** *** A call run to completion, part by part *)

Section Ends.

Variable o : Oracle.
Variable J : World -> Prop.



Lemma ends_await_async A (m : Fn A) : ends o J m -> ends o J (await_async m).
Proof. intros Hm w Hw. rewrite exec_await_async. apply Hm, Hw. Qed.


End Ends.

(** ** The one-exchange gate *)

Lemma count_snoc f t e : count f (t ++ [e]) = count f t + (if f e then 1 else 0).
Proof.
  unfold count. rewrite filter_app, length_app. simpl. destruct (f e); reflexivity.
Qed.





(** Proof search for [keeps]: [named] closes goals about functions that
    have their own lemma, [leaf] proves that an update is a step. *)
Ltac keeps_go Hr Ht named leaf :=
  repeat (first
    [ exact Hr | exact Ht
    | progress intros
    | progress cbv zeta
    | solve [named]
    | apply keeps_ret | apply keeps_throw | apply keeps_read
    | apply keeps_bind | apply keeps_try_catch | apply keeps_await_async
    | apply keeps_modify; solve [leaf]
    | apply keeps_await; solve [leaf]
    | apply keeps_await_race; solve [leaf]
    | match goal with
      | |- keeps _ _ (when _ _) => unfold when
      | |- keeps _ _ (emit _) => unfold emit
      | |- keeps _ _ (setState _) => unfold setState
      | |- keeps _ _ (set_ref _) => unfold set_ref
      | |- keeps _ _ (call_handler _ _ _) => unfold call_handler
      | |- keeps _ _ (setAudioModeAsync _) => unfold setAudioModeAsync
      | |- keeps _ _ Math_random => unfold Math_random
      | |- keeps _ _ (if ?b then _ else _) => destruct b eqn:?
      | |- keeps _ _ (match ?x with _ => _ end) => destruct x eqn:?
      end ]).

Create HintDb gate discriminated.



Section Gate.

Variable R : forall X : Type, Call X -> result X -> Prop.
















End Gate.

Lemma all_steps_allowed Op (l : list (Step Op)) : Forall (step_allowed any_result) l.
Proof.
  induction l as [|[op|i o|i] l IH]; constructor; simpl; auto; intros; exact Logic.I.
Qed.

Lemma any_oracle_allowed o : oracle_allowed any_result o.
Proof. intros X c t r _. exact Logic.I. Qed.



(** *** A turn after the exchange *)











(** ** The prompt guard *)

Lemma prompt_gate_refl w : prompt_gate w w.
Proof.
  unfold prompt_gate. destruct (hasTriggeredThisSessionRef (sched w)); simpl; split; auto; lia.
Qed.

Lemma prompt_gate_trans w1 w2 w3 :
  prompt_gate w1 w2 -> prompt_gate w2 w3 -> prompt_gate w1 w3.
Proof.
  unfold prompt_gate. intros [H1 E1] [H2 E2]. rewrite E2, E1. clear E1 E2.
  destruct (hasTriggeredThisSessionRef (sched w1)),
    (hasTriggeredThisSessionRef (sched w2)),
    (hasTriggeredThisSessionRef (sched w3)); simpl in *; split; auto; try lia;
    try (specialize (H1 eq_refl); discriminate);
    try (specialize (H2 eq_refl); discriminate).
Qed.

Lemma prompt_gate_frame w w' :
  hasTriggeredThisSessionRef (sched w') = hasTriggeredThisSessionRef (sched w) ->
  alerts w' = alerts w ->
  prompt_gate w w'.
Proof.
  unfold prompt_gate. intros -> ->.
  destruct (hasTriggeredThisSessionRef (sched w)); simpl; split; auto; lia.
Qed.

Ltac prompt_leaf :=
  intros;
  apply prompt_gate_frame;
  [ reflexivity
  | unfold alerts; simpl; rewrite ?count_snoc; simpl; lia ].

Ltac prompt_side := try exact prompt_gate_refl; try exact prompt_gate_trans.

Ltac prompt_go :=
  keeps_go prompt_gate_refl prompt_gate_trans ltac:(eauto with gate) prompt_leaf.

Lemma checkScheduleFromBackend_prompt R uid :
  keeps prompt_gate R (checkScheduleFromBackend uid).
Proof. unfold checkScheduleFromBackend. prompt_go. Qed.

(** The guard is read, set and the prompt shown in one segment, after the
    await of the remote check. *)
Lemma checkAndPrompt_prompt R uid : keeps prompt_gate R (checkAndPrompt uid).
Proof.
  unfold checkAndPrompt.
  apply keeps_bind; prompt_side.
  { apply keeps_await_async; prompt_side. apply checkScheduleFromBackend_prompt. }
  intros result. apply within_read_bind. intros triggered.
  destruct (negb match result with Some r => shouldTrigger r | None => false end || triggered)
    eqn:Hc.
  - apply keeps_within; prompt_side; [prompt_go|].
    intros w0 w [<- _]. apply prompt_gate_refl.
  - apply orb_false_iff in Hc as [_ ->].
    intros w0 w [<- Hf]. simpl. split; [|exact Logic.I].
    unfold prompt_gate, alerts. simpl. rewrite count_snoc, Hf. simpl. split; [discriminate|lia].
Qed.

Lemma schedule_op_prompt R uid op : keeps prompt_gate R (schedule_op uid op).
Proof.
  pose proof (checkAndPrompt_prompt R uid) as Hc.
  destruct op; simpl.
  - exact Hc.
  - unfold poll_tick. prompt_go.
  - unfold appState_change. prompt_go.
  - prompt_go.
Qed.

Lemma schedule_op_prompt_segments R uid op w :
  segments prompt_gate R (snd (schedule_op uid op w)).
Proof.
  pose proof (@schedule_op_prompt R uid op w w eq_refl) as H.
  destruct (schedule_op uid op w). apply H.
Qed.

(** *** Checks that do not say "trigger" *)

Lemma guard_unspent_refl w : guard_unspent w w.
Proof. intros H. auto. Qed.

Lemma guard_unspent_trans w1 w2 w3 :
  guard_unspent w1 w2 -> guard_unspent w2 w3 -> guard_unspent w1 w3.
Proof.
  intros H1 H2 Hf. destruct (H1 Hf) as [Hf2 E1]. destruct (H2 Hf2) as [Hf3 E2].
  split; congruence.
Qed.

Ltac unspent_leaf :=
  intros; intros ?; split;
  [ assumption
  | unfold alerts; simpl; rewrite ?count_snoc; simpl; lia ].

Ltac unspent_side := try exact guard_unspent_refl; try exact guard_unspent_trans.

Ltac unspent_go :=
  keeps_go guard_unspent_refl guard_unspent_trans ltac:(eauto with gate) unspent_leaf.

Lemma checkScheduleFromBackend_unspent R uid :
  keeps guard_unspent R (checkScheduleFromBackend uid).
Proof. unfold checkScheduleFromBackend. unspent_go. Qed.

(** Under [no_trigger] the check returns [null] or [shouldTrigger: false]. *)
Lemma checkScheduleFromBackend_yields uid :
  yields no_trigger
    (fun result => match result with Some r => shouldTrigger r | None => false end = false)
    (checkScheduleFromBackend uid).
Proof.
  unfold checkScheduleFromBackend.
  apply yields_try_catch; [|intros e; apply yields_ret; reflexivity].
  eapply yields_bind; [apply yields_await|]. intros response _.
  destruct (negb (resp_ok response)); [apply yields_ret; reflexivity|].
  eapply yields_bind; [apply yields_await|]. intros d Hd. simpl in Hd.
  apply yields_ret. simpl.
  destruct (should_trigger d) as [[|]|]; auto. contradiction Hd. reflexivity.
Qed.

Lemma checkAndPrompt_unspent uid : keeps guard_unspent no_trigger (checkAndPrompt uid).
Proof.
  unfold checkAndPrompt.
  eapply keeps_bind_yields; unspent_side.
  - apply keeps_await_async; unspent_side. apply checkScheduleFromBackend_unspent.
  - apply yields_await_async, checkScheduleFromBackend_yields.
  - intros result Hr. cbv beta in Hr. rewrite Hr. simpl. unspent_go.
Qed.

Lemma schedule_op_unspent uid op : keeps guard_unspent no_trigger (schedule_op uid op).
Proof.
  pose proof (checkAndPrompt_unspent uid) as Hc.
  destruct op; simpl.
  - exact Hc.
  - unfold poll_tick. unspent_go.
  - unfold appState_change. unspent_go.
  - unspent_go.
Qed.

(** A check that says "trigger", run while the guard is down, shows the
    prompt and spends the guard. *)
Lemma checkAndPrompt_triggers uid o w :
  says_trigger o ->
  hasTriggeredThisSessionRef (sched w) = false ->
  let w' := fst (exec o (checkAndPrompt uid) w) in
  hasTriggeredThisSessionRef (sched w') = true /\
  alerts w' = alerts w + 1 /\
  exists t, trace w' = t ++ [prompt_alert].
Proof.
  intros [Hfetch Hjson] Hf. destruct (Hfetch uid) as (t1 & b & E1).
  destruct (Hjson (mkResponse true b)) as (t2 & mode & E2).
  unfold checkAndPrompt. rewrite exec_bind, exec_await_async.
  unfold checkScheduleFromBackend.
  rewrite exec_try_catch, exec_bind, exec_await, E1. simpl.
  rewrite exec_bind, exec_await, E2. simpl.
  unfold exec, bind, read; simpl. rewrite Hf. simpl.
  unfold alerts; simpl. rewrite !count_snoc. simpl.
  repeat split; [lia|]. eexists. reflexivity.
Qed.

(** C5.  However the initial check, the ticks of the poll timer and the
    changes of the app state are interleaved, and whatever the backend
    answers and when, the provider shows the prompt at most once: the
    guard [hasTriggeredThisSessionRef] does not fall, and the number of
    prompts grows by one when it rises and by nothing otherwise. *)
Theorem prompt_at_most_once uid (w0 : World) (events : list (Step ScheduleOp)) :
  let r := run (schedule_op uid) (mkRunning w0 []) events in
  alerts r.(world) <= alerts w0 + 1 /\ prompt_gate w0 r.(world).
Proof.
  intros r.
  assert (Hg : prompt_gate w0 r.(world)).
  { unfold r.
    refine (@run_guarantee prompt_gate any_result prompt_gate_refl prompt_gate_trans
              ScheduleOp (schedule_op uid) (fun _ => true) events _ _ _ _
              (mkRunning w0 []) _).
    - intros op w. apply schedule_op_prompt_segments.
    - intros op _. apply schedule_op_prompt.
    - induction events as [|[?|? ?|?] l IH]; simpl; auto.
    - apply all_steps_allowed.
    - constructor. }
  split; [|exact Hg]. destruct Hg as [_ Hc]. rewrite Hc. destruct (negb _ && _); lia.
Qed.

(** The initial check and a return to the foreground both see the
    crossing, and a later poll tick sees it again: one prompt. *)
Example crossing_prompts_once :
  alerts (run (schedule_op 1) (mkRunning mounted []) crossing).(world) = 1.
Proof. vm_compute. reflexivity. Qed.

(** C10.  As long as no check says "trigger" -- the request fails, is not
    [ok], or its body has no [should_trigger: true] -- the guard stays
    down and no prompt is shown, however the provider's events and the
    answers are interleaved; a check that then says "trigger" shows the
    prompt and spends the guard. *)
Theorem negative_checks_keep_guard uid (w0 : World) (events : list (Step ScheduleOp))
    (o : Oracle) :
  hasTriggeredThisSessionRef (sched w0) = false ->
  Forall (step_allowed no_trigger) events ->
  says_trigger o ->
  let r := run (schedule_op uid) (mkRunning w0 []) events in
  hasTriggeredThisSessionRef (sched r.(world)) = false /\
  alerts r.(world) = alerts w0 /\
  let w' := fst (exec o (checkAndPrompt uid) r.(world)) in
  hasTriggeredThisSessionRef (sched w') = true /\
  alerts w' = alerts w0 + 1 /\
  exists t, trace w' = t ++ [prompt_alert].
Proof.
  intros Hf Hev Ho r.
  assert (Hg : guard_unspent w0 r.(world)).
  { unfold r.
    refine (@run_guarantee guard_unspent no_trigger guard_unspent_refl guard_unspent_trans
              ScheduleOp (schedule_op uid) (fun _ => true) events _ _ _ _
              (mkRunning w0 []) _).
    - intros op w. pose proof (@schedule_op_unspent uid op w w eq_refl) as H.
      destruct (schedule_op uid op w). apply H.
    - intros op _. apply schedule_op_unspent.
    - clear Hev. induction events as [|[?|? ?|?] l IH]; simpl; auto.
    - exact Hev.
    - constructor. }
  destruct (Hg Hf) as [Hf' Ha]. split; [exact Hf'|]. split; [exact Ha|].
  destruct (checkAndPrompt_triggers uid r.(world) Ho Hf') as (H1 & H2 & H3).
  split; [exact H1|]. split; [rewrite <- Ha; exact H2|exact H3].
Qed.

Lemma not_now_allowed i : step_allowed no_trigger (@Settle ScheduleOp i not_now).
Proof. intros X c. destruct c; simpl; auto; discriminate. Defined.

(** Two negative checks, then a positive one. *)
Lemma negative_checks_keep_guard_witness :
  hasTriggeredThisSessionRef (sched mounted) = false /\
  Forall (step_allowed no_trigger) quiet_checks /\
  says_trigger prompt_oracle /\
  let r := run (schedule_op 1) (mkRunning mounted []) quiet_checks in
  hasTriggeredThisSessionRef (sched r.(world)) = false /\
  alerts r.(world) = alerts mounted /\
  let w' := fst (exec prompt_oracle (checkAndPrompt 1) r.(world)) in
  hasTriggeredThisSessionRef (sched w') = true /\
  alerts w' = alerts mounted + 1 /\
  exists t, trace w' = t ++ [prompt_alert].
Proof.
  assert (H1 : hasTriggeredThisSessionRef (sched mounted) = false) by reflexivity.
  assert (H2 : Forall (step_allowed no_trigger) quiet_checks).
  { repeat constructor; apply not_now_allowed. }
  assert (H3 : says_trigger prompt_oracle).
  { split; intros; eexists; eexists; reflexivity. }
  split; [exact H1|]. split; [exact H2|]. split; [exact H3|].
  exact (@negative_checks_keep_guard 1 mounted quiet_checks prompt_oracle H1 H2 H3).
Defined.

(** ** The simulated transcript *)

(** Rounding adds at most half a unit of the last place. *)
Lemma round53_le M : (round53 M <= M + 2 ^ (N.size M - 53) / 2)%N.
Proof.
  unfold round53. set (sh := (N.size M - 53)%N).
  destruct (sh =? 0)%N eqn:E0; [apply N.le_add_r|]. apply N.eqb_neq in E0.
  assert (HP : (2 ^ sh = 2 * (2 ^ sh / 2))%N).
  { replace sh with (N.succ (N.pred sh)) by lia. rewrite N.pow_succ_r'.
    rewrite N.mul_comm, N.div_mul by discriminate. lia. }
  pose proof (N.div_mod M (2 ^ sh) ltac:(apply N.pow_nonzero; discriminate)) as Hdm.
  pose proof (N.mod_lt M (2 ^ sh) ltac:(apply N.pow_nonzero; discriminate)) as Hlt.
  set (q := (M / 2 ^ sh)%N) in *. set (r := (M mod 2 ^ sh)%N) in *.
  set (half := (2 ^ sh / 2)%N) in *. set (P := (2 ^ sh)%N) in *.
  clearbody q r half P.
  destruct ((half <? r)%N || ((r =? half)%N && N.odd q)) eqn:Eup.
  - assert (half <= r)%N.
    { apply orb_true_iff in Eup as [H|H];
        [apply N.ltb_lt in H; lia|apply andb_true_iff in H as [H _]; apply N.eqb_eq in H; lia]. }
    nia.
  - nia.
Qed.

(** When bits are dropped, the number has more than 53 of them. *)
Lemma round53_size M : (N.size M - 53 <> 0)%N -> (2 ^ (N.size M - 53) * 2 ^ 52 <= M)%N.
Proof.
  intros H. assert (HM : M <> 0%N) by (intros ->; apply H; reflexivity).
  rewrite N.size_log2 in * by exact HM.
  pose proof (N.log2_spec M ltac:(lia)) as [Hl _].
  rewrite <- N.pow_add_r. replace (N.succ (N.log2 M) - 53 + 52)%N with (N.log2 M) by lia.
  exact Hl.
Qed.

(** The rounded product stays below [len]: the index is in range. *)
Lemma random_index_bound u len :
  (u < 2 ^ 53)%N -> 0 < len -> random_index u len < len.
Proof.
  intros Hu Hlen. unfold random_index.
  assert (H : (round53 (u * N.of_nat len) / 2 ^ 53 < N.of_nat len)%N); [|lia].
  apply N.Div0.div_lt_upper_bound.
  pose proof (round53_le (u * N.of_nat len)) as Hle.
  destruct (N.eq_dec (N.size (u * N.of_nat len) - 53) 0) as [E|E].
  - rewrite E in Hle. change (2 ^ 0 / 2)%N with 0%N in Hle.
    change (2 ^ 53)%N with 9007199254740992%N in *. nia.
  - pose proof (round53_size _ E) as Hs.
    assert (HP : (2 ^ (N.size (u * N.of_nat len) - 53)
                  = 2 * (2 ^ (N.size (u * N.of_nat len) - 53) / 2))%N).
    { set (sh := (N.size (u * N.of_nat len) - 53)%N) in *.
      replace sh with (N.succ (N.pred sh)) by lia. rewrite N.pow_succ_r'.
      rewrite N.mul_comm, N.div_mul by discriminate. lia. }
    set (half := (2 ^ (N.size (u * N.of_nat len) - 53) / 2)%N) in *.
    set (P := (2 ^ (N.size (u * N.of_nat len) - 53))%N) in *.
    set (R := round53 (u * N.of_nat len)) in *.
    clearbody half P R.
    change (2 ^ 53)%N with 9007199254740992%N in *.
    change (2 ^ 52)%N with 4503599627370496%N in *. nia.
Qed.

(** At [Math.random() = 0.6] (the double [5404319552844595 / 2^53]) the
    product with 5 rounds up to 3: the index is 3, where the exact
    product would give 2. *)
Example random_index_rounds :
  random_index 5404319552844595 5 = 3 /\
  N.to_nat (5404319552844595 * 5 / 2 ^ 53) = 2 /\
  random_index (2 ^ 52) 5 = 2 /\ random_index (2 ^ 53 - 1) 5 = 4.
Proof. vm_compute. auto. Qed.

(** C8, as the code has it.  Without a transcription key,
    [transcribeAudioFile] is one synchronous segment that awaits nothing
    and stores one of the five sample sentences: the one [Math.random]
    picks. *)
Theorem simulated_transcript key uri (w : World) :
  key_missing key = true ->
  let u := (w.(device).(random_tape) w.(device).(random_pos) mod 2 ^ 53)%N in
  let w' := fst (transcribeAudioFile key uri w) in
  snd (transcribeAudioFile key uri w) = Done (Ok tt) /\
  w'.(refs).(fullTranscript) = nth (random_index u 5) sampleTranscripts [] /\
  In w'.(refs).(fullTranscript) sampleTranscripts /\
  truthy (trim w'.(refs).(fullTranscript)) = true /\
  w'.(trace) =
    w.(trace) ++ [EvConsoleWarn (lit "No Deepgram API key, using simulated transcript")].
Proof.
  intros Hkey u w'.
  assert (Hi : random_index u 5 < 5).
  { apply random_index_bound; [|lia]. apply N.mod_lt. discriminate. }
  assert (Hw : transcribeAudioFile key uri w
               = (on_refs (set_fullTranscript (nth (random_index u 5) sampleTranscripts []))
                    (on_device (fun d => set_random_pos (S d.(random_pos)) d)
                       (log (EvConsoleWarn
                               (lit "No Deepgram API key, using simulated transcript")) w)),
                  Done (Ok tt))).
  { unfold transcribeAudioFile. rewrite Hkey. reflexivity. }
  unfold w'. rewrite Hw. clear Hw. cbn [fst snd].
  revert Hi. generalize (random_index u 5) as i. intros i Hi.
  split; [reflexivity|]. split; [reflexivity|].
  destruct i as [|[|[|[|[|i]]]]]; try lia; cbn; auto 10.
Qed.

Lemma simulated_transcript_witness :
  key_missing placeholder_key = true /\
  let w := mounted in
  let u := (w.(device).(random_tape) w.(device).(random_pos) mod 2 ^ 53)%N in
  let w' := fst (transcribeAudioFile placeholder_key (lit "file:///rec.wav") w) in
  snd (transcribeAudioFile placeholder_key (lit "file:///rec.wav") w) = Done (Ok tt) /\
  w'.(refs).(fullTranscript) = nth (random_index u 5) sampleTranscripts [] /\
  In w'.(refs).(fullTranscript) sampleTranscripts /\
  truthy (trim w'.(refs).(fullTranscript)) = true /\
  w'.(trace) =
    w.(trace) ++ [EvConsoleWarn (lit "No Deepgram API key, using simulated transcript")].
Proof.
  split; [reflexivity|].
  exact (@simulated_transcript placeholder_key (lit "file:///rec.wav") mounted eq_refl).
Defined.

(** C8, as stated, fails: the placeholder is not one fixed transcript.
    In two worlds that differ only in what [Math.random] returns, the same
    call without a key stores two different sentences. *)
Lemma placeholder_not_fixed :
  key_missing [] = true /\
  fullTranscript (refs (fst (transcribeAudioFile [] (lit "file:///rec.wav") mounted)))
  = lit "I had a really productive day today" /\
  fullTranscript (refs (fst (transcribeAudioFile [] (lit "file:///rec.wav") mounted_half)))
  = lit "Had a wonderful conversation with a friend" /\
  jsstr_eqb
    (fullTranscript (refs (fst (transcribeAudioFile [] (lit "file:///rec.wav") mounted))))
    (fullTranscript (refs (fst (transcribeAudioFile [] (lit "file:///rec.wav") mounted_half))))
  = false.
Proof. vm_compute. auto. Qed.

(** ** The audio session after a failed stop *)

(** C9 fails on the code.  A recording is running and the audio session
    is in recording mode; [stopAndUnloadAsync] rejects.  [stopListening]
    returns, with the error in its state, and has not asked for the audio
    mode to be reset: the session is still in recording mode. *)
Theorem failed_stop_leaves_recording_mode :
  let r := exec stop_fails_oracle
             (stopListening [] sample_settings (screen_options sample_params))
             recording_now in
  recording_now.(device).(audioMode).(allowsRecordingIOS) = true /\
  snd r = Returned tt /\
  (fst r).(state).(error)
  = Some (lit "Stop encountered an error: recording not stopped") /\
  (fst r).(device).(audioMode).(allowsRecordingIOS) = true /\
  count (fun e => match e with EvAwait (Audio_setAudioModeAsync _) => true | _ => false end)
    (fst r).(trace) = 0.
Proof. vm_compute. auto. Qed.

(** The same for every world and oracle: when the stop rejects, the audio
    mode is what it was. *)
Lemma failed_stop_keeps_audio_mode key settings p (o : Oracle) (w : World) r t e :
  w.(refs).(recording) = Some r ->
  o _ (Recording_stopAndUnloadAsync r) = SettlesAfter t (Thrown e) ->
  (fst (exec o (stopListening key settings (screen_options p)) w)).(device).(audioMode)
  = w.(device).(audioMode).
Proof.
  intros Hrec Ho. unfold stopListening.
  rewrite exec_try_catch, exec_bind, exec_setState. simpl.
  rewrite exec_bind. unfold stopListening_capture at 1.
  rewrite exec_bind, exec_read. simpl. rewrite Hrec.
  rewrite exec_bind, exec_await, Ho. simpl. reflexivity.
Qed.

(** ** Speech playback *)

(** The timeout is [max(3000, ceil(len / 15) * 1000)]. *)
Lemma speak_timeout_ceil text :
  exists q : N,
    speak_timeout text = N.max 3000 (q * 1000) /\
    (N.of_nat (List.length text) <= 15 * q < N.of_nat (List.length text) + 15)%N.
Proof.
  exists ((N.of_nat (List.length text) + 14) / 15)%N. split; [reflexivity|].
  generalize (N.of_nat (List.length text)). intros n.
  pose proof (N.div_mod (n + 14) 15 ltac:(discriminate)) as H.
  pose proof (N.mod_lt (n + 14) 15 ltac:(discriminate)) as H'.
  revert H H'. generalize ((n + 14) / 15)%N ((n + 14) mod 15)%N. intros q r H H'. lia.
Qed.

(** C3, amended.  Provided the lookup of the voices settles -- after
    [tv] ms -- [speak] returns: it neither hangs nor throws, whatever the
    speech engine does, also when its callbacks never fire.  Of a text
    that is not blank the playback ends at the earlier of the engine's
    callback and the timer of [max(3000, ceil(len / 15) * 1000)] ms, so
    within that time of the call to the engine, which is [tv] ms after
    the call of [speak]; and every way out ([onDone], [onError], the
    timer, a failed lookup) leaves [isSpeaking] false.  A blank text
    returns at once and changes nothing. *)
Theorem speak_always_resolves settings text (o : Oracle) (w : World) tv rv :
  o _ Speech_getAvailableVoicesAsync = SettlesAfter tv rv ->
  let r := exec o (speak settings text) w in
  let timeoutMs := speak_timeout text in
  snd r = Returned tt /\
  (fst r).(state).(isSpeaking)
  = (if truthy (trim text) then false else w.(state).(isSpeaking)) /\
  ((fst r).(device).(Date_now) <= w.(device).(Date_now) + tv + timeoutMs)%N /\
  (truthy (trim text) = true ->
   forall voices, rv = Ok voices ->
   (fst r).(device).(Date_now)
   = (w.(device).(Date_now) + tv
      + match o _ (Speech_speak text
                     (speech_options settings (find is_female_voice voices))) with
        | SettlesAfter t _ => N.min t timeoutMs
        | NeverSettles => timeoutMs
        end)%N) /\
  (truthy (trim text) = false -> fst r = w) /\
  exists q : N,
    timeoutMs = N.max 3000 (q * 1000) /\
    (N.of_nat (List.length text) <= 15 * q < N.of_nat (List.length text) + 15)%N.
Proof.
  intros Hv r timeoutMs. unfold r, speak. clear r.
  destruct (truthy (trim text)) eqn:Hblank; cbn [negb].
  - rewrite exec_try_catch, exec_bind, exec_setState. simpl.
    rewrite exec_bind, exec_await, Hv.
    destruct rv as [voices|e]; simpl.
    + rewrite exec_bind, exec_await_race. fold timeoutMs.
      destruct (o unit (Speech_speak text
                          (speech_options settings (find is_female_voice voices))))
        as [t [x|e]|] eqn:Hs.
      * destruct (t <=? timeoutMs)%N eqn:Ht; simpl;
          [apply N.leb_le in Ht|apply N.leb_gt in Ht];
          (repeat split; [lia| |discriminate|apply speak_timeout_ceil]);
          intros _ voices' Hvs; injection Hvs as <-; rewrite Hs; lia.
      * destruct (t <=? timeoutMs)%N eqn:Ht; simpl;
          [apply N.leb_le in Ht|apply N.leb_gt in Ht];
          (repeat split; [lia| |discriminate|apply speak_timeout_ceil]);
          intros _ voices' Hvs; injection Hvs as <-; rewrite Hs; lia.
      * simpl.
        repeat split; [lia| |discriminate|apply speak_timeout_ceil].
        intros _ voices' Hvs. injection Hvs as <-. rewrite Hs. lia.
    + repeat split; [lia| |discriminate|apply speak_timeout_ceil].
      intros _ voices' Hvs. discriminate.
  - simpl. repeat split; [lia|discriminate|apply speak_timeout_ceil].
Qed.

(** The engine never calls back: the reply of the fallback string is
    cleared by the timer, 3000 ms after the call to the engine. *)
Lemma speak_always_resolves_witness :
  @engine_silent _ Speech_getAvailableVoicesAsync = SettlesAfter 10 (Ok []) /\
  let r := exec engine_silent (speak sample_settings reflection_fallback) mounted in
  snd r = Returned tt /\
  (fst r).(state).(isSpeaking) = false /\
  (fst r).(device).(Date_now) = (mounted.(device).(Date_now) + 10 + 3000)%N.
Proof.
  split; [reflexivity|].
  destruct (@speak_always_resolves sample_settings reflection_fallback engine_silent
              mounted 10 (Ok []) eq_refl) as (H1 & H2 & _ & H4 & _).
  split; [exact H1|]. split; [exact H2|].
  exact (H4 eq_refl [] eq_refl).
Defined.

(** C3, as stated, fails: the timer guards the playback only.  [speak]
    first awaits the lookup of the voices, with [isSpeaking] already
    true and no timer.  When that lookup never settles, [speak] never
    returns and [isSpeaking] stays true; when it takes an hour, [speak]
    returns an hour and three seconds after the call, not within the
    3000 ms computed for the text. *)
Lemma voices_lookup_unguarded :
  let r := exec voices_pending (speak sample_settings reflection_fallback) mounted in
  let r' := exec voices_slow (speak sample_settings reflection_fallback) mounted in
  snd r = Hung /\
  (fst r).(state).(isSpeaking) = true /\
  speak_timeout reflection_fallback = 3000%N /\
  snd r' = Returned tt /\
  ((fst r').(device).(Date_now) - mounted.(device).(Date_now) = 3603000)%N.
Proof. vm_compute. repeat split. Qed.

(** ** The local trigger *)

(** [next], as [secondsUntilNextOccurrence] computes it, is the instant
    the zone gives to [h:m] of today's date when that instant is after
    [now], and to [h:m] of tomorrow's date otherwise -- provided the zone
    has these two local times.  In a zone without clock changes it is
    the first instant after [now] at which the local time of day is
    [h:m], at most a day away. *)
Lemma secondsUntilNextOccurrence_next (d : Device) h m :
  (0 <= h < 24)%Z -> (0 <= m < 60)%Z ->
  local_time_exists d (today_at d h m) ->
  local_time_exists d (today_at d h m + MS_PER_DAY) ->
  let now := Z.of_N d.(Date_now) in
  let passed := (UTC d (today_at d h m) <=? now)%Z in
  exists next : Z,
    secondsUntilNextOccurrence (Some h) (Some m) d
    = Some (Z.max MIN_SECONDS ((next - now) / 1000)) /\
    next = UTC d (today_at d h m + (if passed then MS_PER_DAY else 0))%Z /\
    time_of_day d next = (h * 3600000 + m * 60000)%Z /\
    local_day d next = (local_day d now + (if passed then 1 else 0))%Z /\
    (passed = false -> now < next)%Z /\
    (forall offset, fixed_zone d offset -> now < next <= now + MS_PER_DAY)%Z.
Proof.
  intros Hh Hm [Hrt0 Hin0] [Hrt1 Hin1] now passed.
  assert (Hhm : (0 <= h * 3600000 + m * 60000 < MS_PER_DAY)%Z) by (unfold MS_PER_DAY; lia).
  assert (Hset : Date_setHours d now h m = Some (UTC d (today_at d h m))).
  { unfold Date_setHours, TimeClip. fold (local_day d now). fold now. fold (today_at d h m).
    apply Z.leb_le in Hin0. unfold today_at in *. fold now in Hin0. rewrite Hin0. reflexivity. }
  assert (Hnext : Date_setDate_next d (UTC d (today_at d h m))
                  = Some (UTC d (today_at d h m + MS_PER_DAY))).
  { unfold Date_setDate_next, TimeClip. rewrite Hrt0.
    apply Z.leb_le in Hin1. rewrite Hin1. reflexivity. }
  exists (UTC d (today_at d h m + (if passed then MS_PER_DAY else 0)))%Z.
  split.
  { unfold secondsUntilNextOccurrence. fold now. rewrite Hset. fold passed.
    destruct passed; [rewrite Hnext; reflexivity|rewrite Z.add_0_r; reflexivity]. }
  split; [reflexivity|].
  assert (Hday : forall k, (0 <= k)%Z ->
            ((today_at d h m + k * MS_PER_DAY) mod MS_PER_DAY = h * 3600000 + m * 60000 /\
             (today_at d h m + k * MS_PER_DAY) / MS_PER_DAY = local_day d now + k)%Z).
  { intros k Hk. unfold today_at. fold now.
    replace (local_day d now * MS_PER_DAY + (h * 3600000 + m * 60000) + k * MS_PER_DAY)%Z
      with ((h * 3600000 + m * 60000) + (local_day d now + k) * MS_PER_DAY)%Z by lia.
    split.
    - rewrite Z.mod_add by (unfold MS_PER_DAY; lia). apply Z.mod_small. exact Hhm.
    - rewrite Z.div_add by (unfold MS_PER_DAY; lia).
      rewrite Z.div_small by exact Hhm. lia. }
  assert (Hloc : LocalTime d (UTC d (today_at d h m + (if passed then MS_PER_DAY else 0)))
                 = (today_at d h m + (if passed then 1 else 0) * MS_PER_DAY)%Z).
  { destruct passed; [rewrite Hrt1; lia|rewrite Z.add_0_r, Hrt0; lia]. }
  split; [unfold time_of_day; rewrite Hloc; apply Hday; destruct passed; lia|].
  split; [unfold local_day at 1; rewrite Hloc;
          destruct (Hday (if passed then 1 else 0)%Z) as [_ ->]; destruct passed; lia|].
  split.
  { intros Hp. rewrite Hp, Z.add_0_r. unfold passed in Hp. apply Z.leb_gt in Hp. exact Hp. }
  intros offset Hz.
  assert (Hutc : forall t, UTC d t = (t - offset)%Z) by (intros t; unfold UTC; rewrite Hz; reflexivity).
  assert (Hlocal : local_day d now = ((now + offset) / MS_PER_DAY)%Z)
    by (unfold local_day, LocalTime; rewrite Hz; reflexivity).
  pose proof (Z.mod_pos_bound (now + offset) MS_PER_DAY ltac:(unfold MS_PER_DAY; lia)) as Hr.
  pose proof (Z.div_mod (now + offset) MS_PER_DAY ltac:(unfold MS_PER_DAY; lia)) as Hdm.
  assert (Hp : passed = (today_at d h m - offset <=? now)%Z)
    by (unfold passed; rewrite Hutc; reflexivity).
  clearbody passed. clear Hloc Hday Hset Hnext Hrt0 Hrt1 Hin0 Hin1.
  rewrite Hutc. unfold today_at in *. fold now in Hp |- *. rewrite Hlocal in *.
  set (q := ((now + offset) / MS_PER_DAY)%Z) in *.
  set (r := ((now + offset) mod MS_PER_DAY)%Z) in *. clearbody q r.
  unfold MS_PER_DAY in *.
  destruct passed; symmetry in Hp; [apply Z.leb_le in Hp|apply Z.leb_gt in Hp]; lia.
Qed.

(** A zone without clock changes has every local time of today and of
    tomorrow, as long as the clock is not at the end of the range of
    dates. *)
Lemma fixed_zone_has_times (d : Device) offset h m k :
  fixed_zone d offset ->
  (Z.of_N d.(Date_now) + 2 * MS_PER_DAY <= 8640000000000000)%Z ->
  (0 <= h < 24)%Z -> (0 <= m < 60)%Z -> (0 <= k <= 1)%Z ->
  local_time_exists d (today_at d h m + k * MS_PER_DAY).
Proof.
  intros Hz Hnow Hh Hm Hk. unfold local_time_exists, LocalTime, UTC, today_at, local_day, LocalTime.
  rewrite !Hz. split; [lia|].
  pose proof (N2Z.is_nonneg (Date_now d)) as H0.
  pose proof (Z.mod_pos_bound (Z.of_N (Date_now d) + offset) MS_PER_DAY
                ltac:(unfold MS_PER_DAY; lia)) as Hr.
  pose proof (Z.div_mod (Z.of_N (Date_now d) + offset) MS_PER_DAY
                ltac:(unfold MS_PER_DAY; lia)) as Hdm.
  set (q := ((Z.of_N (Date_now d) + offset) / MS_PER_DAY)%Z) in *.
  set (r := ((Z.of_N (Date_now d) + offset) mod MS_PER_DAY)%Z) in *. clearbody q r.
  unfold MS_PER_DAY in *. lia.
Qed.

Arguments secondsUntilNextOccurrence : simpl never.
Arguments notification_content : simpl never.

Lemma exec_requestNotificationPermissions (o : Oracle) (w : World) tp :
  permission_granted o tp ->
  exists w',
    exec o requestNotificationPermissions w = (w', Returned true) /\
    w'.(device) = (advance tp w).(device) /\
    (exists t, w'.(trace) = w.(trace) ++ t /\ requests t = []) /\
    w'.(device).(scheduled) = w.(device).(scheduled).
Proof.
  intros [Hg|(t1 & s & t2 & Hg & Hs & Hr & ->)]; unfold requestNotificationPermissions;
    rewrite exec_bind, exec_await, Hg; simpl.
  - eexists. split; [reflexivity|]. simpl. split; [reflexivity|]. split; [|reflexivity].
    eexists. split; [reflexivity|reflexivity].
  - destruct s; try contradiction; simpl;
      rewrite exec_bind, exec_await, Hr; simpl;
      (eexists; split; [reflexivity|]; simpl; split;
       [rewrite N.add_assoc; reflexivity|]; split; [|reflexivity];
       rewrite <- app_assoc; eexists; split; reflexivity).
Qed.




(** In that run: the first call left a trigger for 21:30; the second one
    replaced it by one due in 60 seconds (09:00 is less than 30 seconds
    away). *)
Example two_calls_run :
  let w := fst (exec prompt_oracle
                  (scheduleLocalNotifications (lit "21:30") [lit "mon"] true text)
                  before_nine) in
  let r := exec prompt_oracle
             (scheduleLocalNotifications (lit "09:00") [lit "mon"] true voice) w in
  map seconds w.(device).(scheduled) = [Some 45029%Z] /\
  map seconds (fst r).(device).(scheduled) = [Some 60%Z].
Proof. vm_compute. auto. Qed.

(** The night the clock is set back (New York, 1 November 2026, 00:30
    local time): "00:15" has passed today, tomorrow's 00:15 is 24 h 45 min
    away by the clock, and the zone's extra hour makes it 89100 s. *)
Example fall_back_night_delay :
  let d := fall_back_night.(device) in
  local_time_exists d (today_at d 0 15) /\
  local_time_exists d (today_at d 0 15 + MS_PER_DAY) /\
  secondsUntilNextOccurrence (Some 0%Z) (Some 15%Z) d = Some 89100%Z /\
  secondsUntilNextOccurrence (Some 1%Z) (Some 30%Z) d = Some 3600%Z /\
  secondsUntilNextOccurrence (Some 3%Z) (Some 0%Z) d = Some 12600%Z.
Proof.
  repeat split; try reflexivity; vm_compute; discriminate.
Qed.

(** ** Ending a session *)

Lemma log_trimmed_refl w : log_trimmed w w.
Proof. intros H. exact H. Qed.

Lemma log_trimmed_trans w1 w2 w3 :
  log_trimmed w1 w2 -> log_trimmed w2 w3 -> log_trimmed w1 w3.
Proof. intros H1 H2 H. auto. Qed.

Lemma user_messages_trimmed_add w (d : Device) r t :
  user_messages_trimmed w ->
  (r = user -> trimmed t = true) ->
  Forall (fun m => role m = user -> trimmed (content m) = true)
    (messages (snd (addMessage r t (d, screen w)))).
Proof.
  intros Hw Ht. simpl. apply Forall_app. split; [exact Hw|].
  constructor; [exact Ht|constructor].
Qed.

Section LogTrimmed.

Variable R : forall X : Type, Call X -> result X -> Prop.
Variable p : Params.

Lemma onTranscript_trimmed t :
  trimmed t = true ->
  keeps log_trimmed R (call_handler EvOnTranscript (onTranscript (screen_options p)) t).
Proof.
  intros Ht. apply keeps_modify. intros w Hw.
  apply (@user_messages_trimmed_add w (device w) user t Hw). auto.
Qed.

Lemma onResponse_trimmed t :
  keeps log_trimmed R (call_handler EvOnResponse (onResponse (screen_options p)) t).
Proof.
  simpl. destruct (screen_recordOnly p); simpl.
  - apply keeps_ret, log_trimmed_refl.
  - apply keeps_modify. intros w Hw.
    apply (@user_messages_trimmed_add w (device w) assistant t Hw). discriminate.
Qed.

Lemma onError_trimmed m :
  keeps log_trimmed R (call_handler EvOnError (onError (screen_options p)) m).
Proof. apply keeps_ret, log_trimmed_refl. Qed.

Lemma onPartialTranscript_trimmed t :
  keeps log_trimmed R
    (call_handler EvOnPartialTranscript (onPartialTranscript (screen_options p)) t).
Proof. apply keeps_ret, log_trimmed_refl. Qed.

End LogTrimmed.

Ltac trimmed_leaf := intros ? H; exact H.

Ltac trimmed_named :=
  first [ apply onTranscript_trimmed; apply trimmed_trim; assumption
        | apply onResponse_trimmed
        | apply onError_trimmed
        | apply onPartialTranscript_trimmed
        | eauto with gate ].

Ltac trimmed_go :=
  keeps_go log_trimmed_refl log_trimmed_trans trimmed_named trimmed_leaf.

Section LogTrimmedOps.

Variable R : forall X : Type, Call X -> result X -> Prop.
Variable key : jsstr.
Variable uid : N.
Variable settings : VoiceSettings.
Variable p : Params.

Lemma speak_trimmed text : keeps log_trimmed R (speak settings text).
Proof. unfold speak. trimmed_go. Qed.

Lemma startListening_trimmed : keeps log_trimmed R (startListening key (screen_options p)).
Proof. unfold startListening, connectToDeepgram. trimmed_go. Qed.

Lemma stopListening_trimmed :
  keeps log_trimmed R (stopListening key settings (screen_options p)).
Proof.
  pose proof speak_trimmed as Hs.
  unfold stopListening, stopListening_capture, transcribeAudioFile,
    stopListening_process, stopListening_reflect.
  trimmed_go.
Qed.

Lemma greet_trimmed : keeps log_trimmed R (greet uid settings (screen_options p)).
Proof.
  pose proof speak_trimmed as Hs. unfold greet, fetched_question. trimmed_go.
Qed.

Lemma hook_op_trimmed op :
  keeps log_trimmed R (hook_op key uid settings (screen_options p) op).
Proof.
  pose proof speak_trimmed as Hs.
  pose proof startListening_trimmed as H1.
  pose proof stopListening_trimmed as H2.
  pose proof greet_trimmed as H3.
  destruct op; simpl; auto.
  - unfold toggleListening. trimmed_go.
  - unfold stopSpeaking. trimmed_go.
  - unfold suggestPrompt. trimmed_go.
  - unfold resetForNewSession. trimmed_go.
  - unfold clearHistory, resetForNewSession. trimmed_go.
  - unfold cleanup. trimmed_go.
  - unfold socket_onmessage. trimmed_go.
  - unfold socket_onclose. trimmed_go.
  - trimmed_go.
Qed.

Lemma handleEndSession_trimmed : keeps log_trimmed R (handleEndSession uid p).
Proof. unfold handleEndSession, stopSpeaking, setIsSessionActive. trimmed_go. Qed.

Lemma screen_op_trimmed op : keeps log_trimmed R (screen_op key uid settings p op).
Proof.
  pose proof speak_trimmed as Hs.
  pose proof greet_trimmed as Hg.
  pose proof handleEndSession_trimmed as He.
  destruct op; simpl.
  - apply hook_op_trimmed.
  - unfold handleStartSession, setIsSessionActive, resetForNewSession.
    keeps_go log_trimmed_refl log_trimmed_trans trimmed_named
      ltac:(first [ trimmed_leaf
                  | intros w Hw;
                    apply (@user_messages_trimmed_add w (device w) assistant _ Hw);
                    discriminate ]).
  - exact He.
  - unfold handleClose, stopSpeaking. trimmed_go.
Qed.

End LogTrimmedOps.

(** Whatever happened on the screen since it was mounted with an empty
    log, the user's messages in the log are trimmed and non-empty. *)
Lemma screen_run_trimmed key uid settings p (w0 : World) (session : list (Step ScreenOp)) :
  w0.(screen).(messages) = [] ->
  user_messages_trimmed
    (run (screen_op key uid settings p) (mkRunning w0 []) session).(world).
Proof.
  intros Hw0.
  refine (@run_guarantee log_trimmed any_result log_trimmed_refl log_trimmed_trans
            ScreenOp (screen_op key uid settings p) (fun _ => true) session
            _ _ _ _ (mkRunning w0 []) _ _).
  - intros op w.
    pose proof (@screen_op_trimmed any_result key uid settings p op w w eq_refl) as H.
    destruct (screen_op key uid settings p op w). apply H.
  - intros op _. apply screen_op_trimmed.
  - induction session as [|[op|i o|i] l IH]; simpl; auto.
  - apply all_steps_allowed.
  - constructor.
  - unfold user_messages_trimmed. simpl. rewrite Hw0. constructor.
Qed.

(** Trimmed texts joined by spaces need no trimming, and the result is
    empty only when there is no text. *)
Lemma join_trimmed (l : list jsstr) :
  Forall (fun s => trimmed s = true) l ->
  trim (join (lit " ") l) = join (lit " ") l /\
  truthy (join (lit " ") l) = match l with [] => false | _ :: _ => true end.
Proof.
  intros Hl. destruct l as [|x l]; [split; reflexivity|].
  assert (Hj : trimmed (join (lit " ") (x :: l)) = true)
    by (apply trimmed_join; [discriminate|exact Hl]).
  split; [apply trim_trimmed | apply trimmed_truthy]; exact Hj.
Qed.

Lemma user_transcript_trimmed w :
  user_messages_trimmed w ->
  let texts := map content (filter (fun m => Role_eqb m.(role) user) w.(screen).(messages)) in
  trim (user_transcript w.(screen).(messages)) = join (lit " ") texts /\
  truthy (join (lit " ") texts) = match texts with [] => false | _ :: _ => true end.
Proof.
  intros Hw texts. unfold user_transcript. fold texts.
  apply join_trimmed.
  unfold texts. unfold user_messages_trimmed in Hw.
  induction Hw as [|m l Hm Hl IH]; simpl; [constructor|].
  destruct (role m); simpl; auto.
Qed.

(** What ending a session does, in terms of the transcript it reads. *)
Lemma handleEndSession_exec uid p (o : Oracle) w :
  let t := trim (user_transcript (messages (screen w))) in
  exists added,
    trace (fst (exec o (handleEndSession uid p) w)) = trace w ++ EvSpeechStop :: added /\
    journal_calls added =
      if truthy t then [mkJournalCreate uid t (prompt p) true t (lit "voice_note")] else [].
Proof.
  intros t. unfold exec, handleEndSession, setIsSessionActive, stopSpeaking, setState, emit.
  cbn -[trim user_transcript truthy lit]. fold t.
  destruct (truthy t); cbn -[trim user_transcript truthy lit].
  - destruct (o _ (api_journals_create _)) as [l [v|e]|]; cbn -[trim user_transcript truthy lit];
      repeat rewrite <- app_assoc; eexists; (split; [reflexivity|]);
      unfold journal_calls; rewrite ?flat_map_app; cbn -[lit]; reflexivity.
  - repeat rewrite <- app_assoc; eexists; (split; [reflexivity|]); reflexivity.
Qed.

(** C2. On a voice session screen mounted with an empty log, after any
    interleaving of the screen's and the hook's operations, ending the
    session first stops speech playback; then, if the log holds no user
    message, it never asks the backend to create a journal entry, and if it
    holds at least one, it asks exactly once, for a voice entry whose
    content and voice transcript are the texts of all user messages, in
    the order of the log, joined by single spaces. *)
Theorem end_session_persists key uid settings p (o : Oracle) (w0 : World)
    (session : list (Step ScreenOp)) :
  w0.(screen).(messages) = [] ->
  let w := (run (screen_op key uid settings p) (mkRunning w0 []) session).(world) in
  let texts := map content (filter (fun m => Role_eqb m.(role) user) w.(screen).(messages)) in
  let r := exec o (handleEndSession uid p) w in
  exists added,
    trace (fst r) = trace w ++ EvSpeechStop :: added /\
    journal_calls added =
      match texts with
      | [] => []
      | _ :: _ =>
          [mkJournalCreate uid (join (lit " ") texts) p.(prompt) true
             (join (lit " ") texts) (lit "voice_note")]
      end.
Proof.
  intros Hw0 w texts r.
  pose proof (@screen_run_trimmed key uid settings p w0 session Hw0) as Hw. fold w in Hw.
  destruct (@user_transcript_trimmed w Hw) as [Ht Hne]. fold texts in Ht, Hne.
  destruct (@handleEndSession_exec uid p o w) as (added & Ha & Hj).
  exists added. split; [exact Ha|].
  rewrite Hj, Ht, Hne. destruct texts; reflexivity.
Qed.

(** A session with two turns, ended. *)
Lemma end_session_persists_witness :
  mounted.(screen).(messages) = [] /\
  let w := (run (screen_op [] 1 sample_settings sample_params) (mkRunning mounted [])
              two_turn_session).(world) in
  let texts := map content (filter (fun m => Role_eqb m.(role) user) w.(screen).(messages)) in
  let r := exec prompt_oracle (handleEndSession 1 sample_params) w in
  exists added,
    trace (fst r) = trace w ++ EvSpeechStop :: added /\
    journal_calls added =
      match texts with
      | [] => []
      | _ :: _ =>
          [mkJournalCreate 1 (join (lit " ") texts) sample_params.(prompt) true
             (join (lit " ") texts) (lit "voice_note")]
      end.
Proof.
  split; [reflexivity|].
  apply (@end_session_persists [] 1 sample_settings sample_params prompt_oracle mounted
           two_turn_session).
  reflexivity.
Defined.

(** In that session both turns are in the one request. *)
Example two_turn_session_saved :
  let w := (run (screen_op [] 1 sample_settings sample_params) (mkRunning mounted [])
              two_turn_session).(world) in
  map role w.(screen).(messages) = [assistant; user; user; assistant] /\
  journal_calls (trace (fst (exec prompt_oracle (handleEndSession 1 sample_params) w)))
  = [mkJournalCreate 1
       (lit "I had a really productive day today I had a really productive day today")
       None true
       (lit "I had a really productive day today I had a really productive day today")
       (lit "voice_note")].
Proof. vm_compute. auto. Qed.

(** Ending a session in which nothing was said asks for nothing. *)
Example silent_session_not_saved :
  let w := (run (screen_op [] 1 sample_settings sample_params) (mkRunning mounted [])
              [Start OpHandleStartSession]).(world) in
  journal_calls (trace (fst (exec prompt_oracle (handleEndSession 1 sample_params) w))) = [].
Proof. vm_compute. reflexivity. Qed.

(** ** Frames: what a block leaves alone and what it logs *)

Section Frames.

Variable X : Type.
Variable allowed : Event -> bool.
Variable f : World -> X.

Lemma frame_refl w : frame allowed f w w.
Proof. split; [reflexivity|]. exists []. split; [symmetry; apply app_nil_r|reflexivity]. Qed.

Lemma frame_trans w1 w2 w3 :
  frame allowed f w1 w2 -> frame allowed f w2 w3 -> frame allowed f w1 w3.
Proof.
  intros [E1 (t1 & T1 & A1)] [E2 (t2 & T2 & A2)]. split; [congruence|].
  exists (t1 ++ t2). split.
  - rewrite T2, T1, app_assoc. reflexivity.
  - rewrite forallb_app, A1, A2. reflexivity.
Qed.

Lemma frame_silent w w' : f w' = f w -> trace w' = trace w -> frame allowed f w w'.
Proof.
  intros E T. split; [exact E|]. exists []. split; [rewrite app_nil_r; exact T|reflexivity].
Qed.

Lemma frame_event e w w' :
  f w' = f w -> trace w' = trace w ++ [e] -> allowed e = true -> frame allowed f w w'.
Proof.
  intros E T A. split; [exact E|]. exists [e]. split; [exact T|]. simpl. rewrite A. reflexivity.
Qed.

End Frames.

(** Events a filter rejects are not in a trace of events it does not
    admit. *)
Lemma filter_disjoint (allowed g : Event -> bool) (t : list Event) :
  (forall e, allowed e = true -> g e = false) ->
  forallb allowed t = true -> filter g t = [].
Proof.
  intros H. induction t as [|e t IH]; simpl; intros Ht; [reflexivity|].
  apply andb_true_iff in Ht as [He Ht]. rewrite (H e He). auto.
Qed.

Lemma flat_map_disjoint A (allowed : Event -> bool) (g : Event -> list A) (t : list Event) :
  (forall e, allowed e = true -> g e = []) ->
  forallb allowed t = true -> flat_map g t = [].
Proof.
  intros H. induction t as [|e t IH]; simpl; intros Ht; [reflexivity|].
  apply andb_true_iff in Ht as [He Ht]. rewrite (H e He). auto.
Qed.

Ltac framed_leaf :=
  intros;
  repeat match goal with
         | |- context [let (_, _) := ?x in _] => destruct x
         end;
  first [ apply frame_silent; reflexivity
        | eapply frame_event; reflexivity ].

Ltac framed_go allowed f :=
  keeps_go (@frame_refl _ allowed f) (@frame_trans _ allowed f)
    ltac:(eauto with gate) framed_leaf.

Section Blocks.

Variable R : forall X : Type, Call X -> result X -> Prop.

Lemma transcribeAudioFile_frame key uri :
  keeps (frame capture_event beside_capture) R (transcribeAudioFile key uri).
Proof. unfold transcribeAudioFile. framed_go capture_event beside_capture. Qed.

Lemma stopListening_capture_frame key :
  keeps (frame capture_event beside_capture) R (stopListening_capture key).
Proof.
  pose proof transcribeAudioFile_frame as Ht.
  unfold stopListening_capture. framed_go capture_event beside_capture.
Qed.

Lemma speak_frame settings text :
  keeps (frame speak_event beside_speak) R (speak settings text).
Proof. unfold speak. framed_go speak_event beside_speak. Qed.

End Blocks.

(** Run to its end, the capture block leaves the state, the screen and
    the exchange flag alone and logs only its own events. *)
Lemma stopListening_capture_exec key (o : Oracle) w :
  frame capture_event beside_capture w (fst (exec o (stopListening_capture key) w)).
Proof.
  apply exec_guarantee with (R := any_result).
  - exact (@frame_refl _ capture_event beside_capture).
  - exact (@frame_trans _ capture_event beside_capture).
  - apply stopListening_capture_frame.
  - apply any_oracle_allowed.
  - intros ms w1. apply frame_silent; reflexivity.
Qed.

Lemma speak_exec settings text (o : Oracle) w :
  frame speak_event beside_speak w (fst (exec o (speak settings text) w)).
Proof.
  apply exec_guarantee with (R := any_result).
  - exact (@frame_refl _ speak_event beside_speak).
  - exact (@frame_trans _ speak_event beside_speak).
  - apply speak_frame.
  - apply any_oracle_allowed.
  - intros ms w1. apply frame_silent; reflexivity.
Qed.

(** ** A turn in which nothing was heard *)

Lemma capture_quiet t :
  forallb capture_event t = true ->
  filter is_reflection_call t = [] /\ filter is_speech_call t = [] /\
  filter is_alert t = [] /\
  transcripts t = [] /\ responses t = [] /\ errors_reported t = [].
Proof.
  intros Ht. repeat split;
    first [ apply (filter_disjoint capture_event _ t); [|exact Ht]
          | apply (flat_map_disjoint capture_event _ t); [|exact Ht] ];
    intros e; destruct e as [X c| | | | | | | | | | | | | ]; try reflexivity; try discriminate;
    destruct c; try reflexivity; discriminate.
Qed.

Lemma then_exec_bind A B C (o : Oracle) (m : A -> Fn B) (g : B -> Fn C) r :
  then_exec o (fun a => bind (m a) g) r = then_exec o g (then_exec o m r).
Proof. destruct r as [w [a|e|]]; simpl; auto. apply exec_bind. Qed.

(** [stopListening] run to its end, block by block. *)
Lemma stopListening_exec key settings options (o : Oracle) w :
  exec o (stopListening key settings options) w =
  catch_exec o
    (fun e =>
       emit (EvConsoleError (lit "Error stopping recording:")) ;;
       setState (fun prev =>
         set_error (Some (message_or e (lit "Failed to process recording")))
           (set_isProcessing false prev)) ;;
       call_handler EvOnError options.(onError) (error_message e))%fn
    (then_exec o (fun _ => setAudioModeAsync (mkAudioMode false None))
       (then_exec o (fun _ => stopListening_process settings options)
          (exec o (stopListening_capture key)
             (fst (exec o (setState (fun prev =>
                             set_isProcessing true (set_isListening false prev))) w))))).
Proof.
  unfold stopListening. rewrite exec_try_catch, exec_bind, exec_setState.
  unfold then_exec at 1. rewrite exec_bind, then_exec_bind. reflexivity.
Qed.

(** With an empty final transcript the processing block is its [else]
    branch. *)
Lemma empty_turn_process settings options (o : Oracle) w :
  trim (fullTranscript (refs w)) = [] ->
  exec o (stopListening_process settings options) w
  = exec o (setState (set_isProcessing false) ;;
            call_handler EvOnError options.(onError) (Some no_speech_message)) w.
Proof.
  intros Ht. unfold stopListening_process. rewrite exec_bind, exec_read.
  unfold then_exec. cbv zeta. rewrite Ht. reflexivity.
Qed.

Ltac exec_steps H :=
  repeat first [ rewrite exec_bind in H | rewrite exec_emit in H | rewrite exec_setState in H
               | rewrite exec_modify in H | rewrite exec_ret in H
               | progress unfold then_exec in H ].

(** C7, amended.  A turn whose capture block ends normally with a final
    transcript that trims to the empty string: the hook is neither
    listening nor processing afterwards, it dispatches no reflection call
    and no speech, reports no transcript and no reply (so the screen
    appends no message), and passes "No speech detected. Please try
    again." to [onError] exactly when the caller registered that
    callback; [state.error] is left as it was when the audio mode reset
    succeeds.  With no [onError] registered -- the voice session screen
    registers none -- the screen is unchanged and nothing is reported. *)
Theorem empty_turn_reports key settings options (o : Oracle) w :
  let w1 := fst (exec o (setState (fun prev =>
                            set_isProcessing true (set_isListening false prev))) w) in
  let c := exec o (stopListening_capture key) w1 in
  let r := exec o (stopListening key settings options) w in
  snd c = Returned tt ->
  trim (fullTranscript (refs (fst c))) = [] ->
  (fst r).(state).(isListening) = false /\
  (fst r).(state).(isProcessing) = false /\
  (fst r).(state).(isSpeaking) = w.(state).(isSpeaking) /\
  reflections (fst r) = reflections w /\
  speeches (fst r) = speeches w /\
  transcripts (fst r).(trace) = transcripts w.(trace) /\
  responses (fst r).(trace) = responses w.(trace) /\
  (exists rest,
     errors_reported (fst r).(trace)
     = errors_reported w.(trace)
       ++ match options.(onError) with Some _ => [Some no_speech_message] | None => [] end
       ++ rest /\
     (forall t, o _ (Audio_setAudioModeAsync (mkAudioMode false None)) = SettlesAfter t (Ok tt) ->
        rest = [] /\ (fst r).(state).(error) = w.(state).(error) /\ snd r = Returned tt)) /\
  (options.(onError) = None ->
     (fst r).(screen) = w.(screen) /\
     errors_reported (fst r).(trace) = errors_reported w.(trace) /\
     alerts (fst r) = alerts w).
Proof.
  intros w1 c r Hc Ht.
  pose proof (stopListening_capture_exec key o w1) as Hf. fold c in Hf.
  assert (Hr : r = catch_exec o
    (fun e =>
       emit (EvConsoleError (lit "Error stopping recording:")) ;;
       setState (fun prev =>
         set_error (Some (message_or e (lit "Failed to process recording")))
           (set_isProcessing false prev)) ;;
       call_handler EvOnError options.(onError) (error_message e))%fn
    (then_exec o (fun _ => setAudioModeAsync (mkAudioMode false None))
       (then_exec o (fun _ => stopListening_process settings options) c)))
    by apply stopListening_exec.
  clearbody r.
  destruct c as [w2 oc]. simpl in Hc, Ht, Hf. subst oc.
  destruct Hf as [Hb (t & Htr & Hall)].
  apply capture_quiet in Hall as (Q1 & Q2 & Q3 & Q4 & Q5 & Q6).
  unfold beside_capture in Hb. injection Hb as Hst Hsc _ _ _ _ _.
  unfold then_exec at 2 in Hr. rewrite (empty_turn_process settings options o w2 Ht) in Hr.
  rewrite exec_bind, exec_setState in Hr. unfold then_exec at 2 in Hr.
  unfold reflections, speeches, alerts, count, transcripts, responses, errors_reported in *.
  simpl in Htr, Hst, Hsc.
  unfold call_handler in Hr.
  destruct (onError options) as [h|].
  - rewrite exec_modify in Hr. unfold then_exec in Hr. rewrite exec_setAudioModeAsync in Hr.
    destruct (h (Some no_speech_message) _) as [d s] eqn:Eh.
    destruct (o _ (Audio_setAudioModeAsync _)) as [l [[]|e]|];
      unfold catch_exec in Hr; exec_steps Hr; subst r; simpl;
      try destruct (h (error_message e) _) as [d' s'];
      simpl; rewrite Hst, Htr; simpl;
      rewrite ?filter_app, ?flat_map_app; simpl;
      rewrite ?filter_app, ?flat_map_app, ?Q1, ?Q2, ?Q3, ?Q4, ?Q5, ?Q6; simpl;
      rewrite ?app_nil_r;
      repeat (split; [reflexivity|]).
    + split; [exists []; split; [reflexivity|auto] | discriminate].
    + split; [exists [error_message e]; split;
                [rewrite <- ?app_assoc; reflexivity | intros ? E; discriminate E]
             | discriminate].
    + split; [exists []; split; [reflexivity | intros ? E; discriminate E] | discriminate].
  - rewrite exec_ret in Hr. unfold then_exec in Hr. rewrite exec_setAudioModeAsync in Hr.
    destruct (o _ (Audio_setAudioModeAsync _)) as [l [[]|e]|];
      unfold catch_exec in Hr; exec_steps Hr; subst r; simpl;
      rewrite Hst, Hsc, Htr; simpl;
      rewrite ?filter_app, ?flat_map_app; simpl;
      rewrite ?filter_app, ?flat_map_app, ?Q1, ?Q2, ?Q3, ?Q4, ?Q5, ?Q6; simpl;
      rewrite ?app_nil_r;
      repeat (split; [reflexivity|]).
    + split; [exists []; split; [rewrite ?app_nil_r; reflexivity|auto] | auto].
    + split; [exists []; split; [rewrite ?app_nil_r; reflexivity | intros ? E; discriminate E]
             | auto].
    + split; [exists []; split; [rewrite ?app_nil_r; reflexivity | intros ? E; discriminate E]
             | auto].
Qed.

(** A recording of silence, stopped by a caller that registered
    [onError]: the report reaches the callback and nothing else happens. *)
Lemma empty_turn_reports_witness :
  let w1 := fst (exec silence_oracle (setState (fun prev =>
                   set_isProcessing true (set_isListening false prev))) recording_now) in
  let c := exec silence_oracle (stopListening_capture sample_key) w1 in
  let r := exec silence_oracle (stopListening sample_key sample_settings reporting_options)
             recording_now in
  snd c = Returned tt /\
  trim (fullTranscript (refs (fst c))) = [] /\
  (fst r).(state).(isListening) = false /\
  (fst r).(state).(isProcessing) = false /\
  reflections (fst r) = reflections recording_now /\
  speeches (fst r) = speeches recording_now /\
  transcripts (fst r).(trace) = transcripts recording_now.(trace) /\
  exists rest,
    errors_reported (fst r).(trace)
    = errors_reported recording_now.(trace) ++ [Some no_speech_message] ++ rest.
Proof.
  intros w1 c r.
  assert (H1 : snd c = Returned tt) by reflexivity.
  assert (H2 : trim (fullTranscript (refs (fst c))) = []) by reflexivity.
  destruct (@empty_turn_reports sample_key sample_settings reporting_options silence_oracle
              recording_now H1 H2)
    as (A1 & A2 & _ & A4 & A5 & A6 & _ & (rest & A8 & _) & _).
  repeat (split; [assumption|]).
  exists rest. exact A8.
Defined.

(** C7, as stated, fails on the voice session screen: the recording is
    silent, the turn ends with an empty transcript and no message -- and
    nothing tells the user: no [onError] call (the screen registers
    none), no alert, and [state.error] stays [null]. *)
Lemma no_speech_not_surfaced :
  let r := exec silence_oracle
             (stopListening sample_key sample_settings (screen_options sample_params))
             recording_now in
  snd r = Returned tt /\
  trim (fullTranscript (refs (fst r))) = [] /\
  (fst r).(screen).(messages) = [] /\
  (fst r).(state).(isProcessing) = false /\
  filter is_surfacing (fst r).(trace) = [] /\
  (fst r).(state).(error) = None /\
  onError (screen_options sample_params) = None.
Proof. vm_compute. repeat split. Qed.

(** ** A turn in which the reflection agent fails *)

(** [speak] of a text that is not blank: it starts by raising
    [isSpeaking] and looking up the voices, hands the text to the speech
    engine once the voices are known, and never throws. *)
Lemma speak_starts settings text (o : Oracle) w :
  truthy (trim text) = true ->
  let r := exec o (speak settings text) w in
  raised (snd r) = false /\
  exists post,
    trace (fst r) = trace w ++ EvSetState (set_isSpeaking true (state w))
                      :: EvAwait Speech_getAvailableVoicesAsync :: post /\
    forall tv voices, o _ Speech_getAvailableVoicesAsync = SettlesAfter tv (Ok voices) ->
      exists post',
        post = EvAwait (Speech_speak text (speech_options settings (find is_female_voice voices)))
               :: post'.
Proof.
  intros Hblank r. assert (Hr : r = exec o (speak settings text) w) by reflexivity.
  clearbody r. unfold speak in Hr. rewrite Hblank in Hr. cbn [negb] in Hr.
  rewrite exec_try_catch, exec_bind, exec_setState in Hr. unfold then_exec in Hr.
  rewrite exec_bind, exec_await in Hr.
  destruct (o _ Speech_getAvailableVoicesAsync) as [tv [voices|e]|].
  - unfold then_exec in Hr. cbv zeta in Hr. rewrite exec_bind, exec_await_race in Hr.
    destruct (o unit (Speech_speak text _)) as [t [x|e]|];
      [destruct (t <=? speak_timeout text)%N|destruct (t <=? speak_timeout text)%N|];
      simpl in Hr; subst r; simpl; (split; [reflexivity|]); rewrite <- ?app_assoc; simpl;
      eexists; (split; [reflexivity|]);
      intros tv' voices' E; injection E as _ <-; eexists; reflexivity.
  - simpl in Hr. subst r. simpl. split; [reflexivity|]. rewrite <- ?app_assoc. simpl.
    eexists; (split; [reflexivity|]). intros tv' voices' E. discriminate E.
  - simpl in Hr. subst r. simpl. split; [reflexivity|]. rewrite <- ?app_assoc. simpl.
    eexists; (split; [reflexivity|]). intros tv' voices' E. discriminate E.
Qed.

(** The end of a turn on the voice session screen, from the audio mode
    reset on: it never throws and touches neither the screen nor the refs. *)
Lemma turn_closing p (o : Oracle) w (oc : Outcome unit) :
  raised oc = false ->
  let r := catch_exec o
    (fun e =>
       emit (EvConsoleError (lit "Error stopping recording:")) ;;
       setState (fun prev =>
         set_error (Some (message_or e (lit "Failed to process recording")))
           (set_isProcessing false prev)) ;;
       call_handler EvOnError (screen_options p).(onError) (error_message e))%fn
    (then_exec o (fun _ => setAudioModeAsync (mkAudioMode false None)) (w, oc)) in
  raised (snd r) = false /\
  frame closing_event beside_closing w (fst r) /\
  (forall t, o _ (Audio_setAudioModeAsync (mkAudioMode false None)) = SettlesAfter t (Ok tt) ->
     (fst r).(state).(error) = w.(state).(error)).
Proof.
  intros Hoc r. unfold r. clear r. destruct oc as [[]|e|]; try discriminate; simpl.
  - rewrite exec_setAudioModeAsync.
    destruct (o _ (Audio_setAudioModeAsync _)) as [l [[]|e]|];
      unfold frame, beside_closing; simpl; rewrite <- ?app_assoc; simpl.
    + repeat split; auto. eexists [_]. split; reflexivity.
    + repeat split; auto; [eexists [_; _; _]; split; reflexivity | intros t E; discriminate E].
    + repeat split; auto. eexists [_]. split; reflexivity.
  - repeat split; auto. exists []. rewrite app_nil_r. split; reflexivity.
Qed.


(** The processing block when the reflection request is rejected: up to
    the call of [speak], with the fallback as the reply. *)
Lemma failed_reflection_process settings p (o : Oracle) w l e :
  let said := trim (fullTranscript (refs w)) in
  truthy said = true ->
  screen_recordOnly p = false ->
  hasRespondedRef (refs w) = false ->
  o _ (api_voice_getReflection said) = SettlesAfter l (Thrown e) ->
  exists w4,
    exec o (stopListening_process settings (screen_options p)) w
    = exec o (speak settings reflection_fallback) w4 /\
    trace w4 = trace w ++ [EvSetState (set_transcript said (state w)); EvOnTranscript said;
                           EvAwait (api_voice_getReflection said);
                           EvConsoleWarn (lit "Voice reflection API failed:");
                           EvSetState (state w4); EvOnResponse reflection_fallback] /\
    state w4 = set_isProcessing false (set_transcript said (state w)) /\
    map (fun m => (role m, content m)) (messages (screen w4))
    = map (fun m => (role m, content m)) (messages (screen w))
      ++ [(user, said); (assistant, reflection_fallback)] /\
    conversationHistory (refs w4)
    = conversationHistory (refs w)
      ++ [mkHistoryEntry user said; mkHistoryEntry assistant reflection_fallback].
Proof.
  intros said Hsaid Hrec Hflag Ho.
  unfold stopListening_process. rewrite exec_bind, exec_read. unfold then_exec. cbv zeta.
  fold said. clearbody said. rewrite Hsaid.
  rewrite exec_bind, exec_setState. unfold then_exec.
  rewrite exec_bind. unfold call_handler at 1. cbn [onTranscript screen_options].
  rewrite exec_modify. unfold then_exec.
  cbn [recordOnly screen_options]. rewrite Hrec.
  rewrite exec_bind, exec_read. unfold then_exec.
  unfold addMessage at 1 2. cbn [device screen log on_state on_screen on_device refs].
  rewrite Hflag. cbn [negb]. unfold stopListening_reflect.
  rewrite exec_bind, exec_set_ref. unfold then_exec.
  rewrite exec_bind, exec_try_catch, exec_bind, exec_await, Ho.
  unfold then_exec at 2. unfold catch_exec.
  rewrite exec_bind, exec_emit. unfold then_exec at 2. rewrite exec_ret. unfold then_exec.
  rewrite exec_bind, exec_set_ref. unfold then_exec.
  rewrite exec_bind, exec_setState. unfold then_exec.
  rewrite exec_bind. unfold call_handler. cbn [onResponse screen_options]. rewrite Hrec.
  rewrite exec_modify. unfold then_exec. rewrite exec_await_async.
  eexists. split; [reflexivity|].
  unfold addMessage. simpl. rewrite <- ?app_assoc. simpl. rewrite !map_app. simpl.
  rewrite <- ?app_assoc. simpl.
  repeat split.
Qed.

Lemma speak_quiet t :
  forallb speak_event t = true ->
  filter is_surfacing t = [] /\ filter is_reflection_call t = [] /\ responses t = [].
Proof.
  intros Ht. repeat split;
    first [ apply (filter_disjoint speak_event _ t); [|exact Ht]
          | apply (flat_map_disjoint speak_event _ t); [|exact Ht] ];
    intros e; destruct e as [X c| | | | | | | | | | | | | ]; try reflexivity; try discriminate;
    destruct c; try reflexivity; discriminate.
Qed.

Lemma closing_quiet t :
  forallb closing_event t = true ->
  filter is_surfacing t = [] /\ filter is_reflection_call t = [] /\ responses t = [].
Proof.
  intros Ht. repeat split;
    first [ apply (filter_disjoint closing_event _ t); [|exact Ht]
          | apply (flat_map_disjoint closing_event _ t); [|exact Ht] ];
    intros e; destruct e as [X c| | | | | | | | | | | | | ]; try reflexivity; try discriminate;
    destruct c; try reflexivity; discriminate.
Qed.

Lemma capture_unsurfaced t :
  forallb capture_event t = true -> filter is_surfacing t = [].
Proof.
  apply filter_disjoint.
  intros e; destruct e as [X c| | | | | | | | | | | | | ]; try reflexivity; try discriminate.
Qed.

(** C6.  A turn on the voice session screen (not record-only) that
    reaches the exchange -- the capture block ended normally with a
    transcript that is not blank, and the session had not had its
    exchange -- and whose reflection request is rejected: the reply is
    the fixed fallback string; it is passed to [onResponse], so the log
    gains the user's message and an assistant message holding the
    fallback; right after, [speak] raises [isSpeaking] (with
    [isProcessing] down) and hands the fallback to the speech engine once
    the voices are known; [stopListening] does not throw, no [onError]
    call and no alert is made, and [state.error] is left as it was when
    the audio mode reset succeeds. *)
Theorem agent_failure_masked key settings p (o : Oracle) w l e :
  let w1 := fst (exec o (setState (fun prev =>
                            set_isProcessing true (set_isListening false prev))) w) in
  let c := exec o (stopListening_capture key) w1 in
  let said := trim (fullTranscript (refs (fst c))) in
  let r := exec o (stopListening key settings (screen_options p)) w in
  snd c = Returned tt ->
  truthy said = true ->
  screen_recordOnly p = false ->
  hasRespondedRef (refs w) = false ->
  o _ (api_voice_getReflection said) = SettlesAfter l (Thrown e) ->
  reflections (fst r) = S (reflections w) /\
  responses (fst r).(trace) = responses w.(trace) ++ [reflection_fallback] /\
  map (fun m => (role m, content m)) (fst r).(screen).(messages)
  = map (fun m => (role m, content m)) w.(screen).(messages)
    ++ [(user, said); (assistant, reflection_fallback)] /\
  (exists pre s post,
     (fst r).(trace) = pre ++ EvOnResponse reflection_fallback :: EvSetState s
                         :: EvAwait Speech_getAvailableVoicesAsync :: post /\
     s.(isSpeaking) = true /\ s.(isProcessing) = false /\
     forall tv voices,
       o _ Speech_getAvailableVoicesAsync = SettlesAfter tv (Ok voices) ->
       exists post',
         post = EvAwait (Speech_speak reflection_fallback
                           (speech_options settings (find is_female_voice voices))) :: post') /\
  raised (snd r) = false /\
  filter is_surfacing (fst r).(trace) = filter is_surfacing w.(trace) /\
  (forall t, o _ (Audio_setAudioModeAsync (mkAudioMode false None)) = SettlesAfter t (Ok tt) ->
     (fst r).(state).(error) = w.(state).(error)).
Proof.
  intros w1 c said r Hc Hsaid Hrec Hflag Ho.
  pose proof (stopListening_capture_exec key o w1) as Hf. fold c in Hf.
  assert (Hr : r = catch_exec o
    (fun e =>
       emit (EvConsoleError (lit "Error stopping recording:")) ;;
       setState (fun prev =>
         set_error (Some (message_or e (lit "Failed to process recording")))
           (set_isProcessing false prev)) ;;
       call_handler EvOnError (screen_options p).(onError) (error_message e))%fn
    (then_exec o (fun _ => setAudioModeAsync (mkAudioMode false None))
       (then_exec o (fun _ => stopListening_process settings (screen_options p)) c)))
    by apply stopListening_exec.
  clearbody r.
  destruct c as [w2 oc]. simpl in Hc, said, Hf. subst oc.
  destruct Hf as [Hb (tc & Htc & Hcap)].
  unfold beside_capture in Hb. injection Hb as Hst Hsc _ Hfl _ _ _.
  simpl in Hst, Hsc, Hfl, Htc.
  assert (Hflag2 : hasRespondedRef (refs w2) = false) by congruence.
  destruct (@failed_reflection_process settings p o w2 l e Hsaid Hrec Hflag2 Ho)
    as (w4 & Hproc & Ht4 & Hs4 & Hm4 & _).
  fold said in Ht4, Hs4, Hm4.
  unfold then_exec at 2 in Hr. rewrite Hproc in Hr.
  pose proof (speak_exec settings reflection_fallback o w4) as [Hb5 (ts & Hts & Hsp)].
  destruct (@speak_starts settings reflection_fallback o w4 eq_refl) as (Hoc5 & post & Hpost & Hv).
  destruct (exec o (speak settings reflection_fallback) w4) as [w5 oc5].
  simpl in Hb5, Hts, Hoc5, Hpost.
  destruct (@turn_closing p o w5 oc5 Hoc5) as (Hoc6 & [Hb6 (tl & Htl & Hcl)] & Herr).
  rewrite <- Hr in Hoc6, Hb6, Htl, Herr. clear Hr.
  unfold beside_speak in Hb5. injection Hb5 as _ Hsc5 _ _ _ _ _ _ Herr5.
  unfold beside_closing in Hb6. injection Hb6 as Hsc6 _.
  assert (Ets : ts = EvSetState (set_isSpeaking true (state w4))
                    :: EvAwait Speech_getAvailableVoicesAsync :: post)
    by (rewrite Hts in Hpost; apply app_inv_head in Hpost; exact Hpost).
  destruct (capture_quiet tc Hcap) as (C1 & _ & _ & _ & C5 & _).
  pose proof (capture_unsurfaced tc Hcap) as C7.
  destruct (speak_quiet ts Hsp) as (S1 & S2 & S3).
  destruct (closing_quiet tl Hcl) as (L1 & L2 & L3).
  assert (Htrace : trace (fst r) =
            trace w
            ++ [EvSetState (set_isProcessing true (set_isListening false (state w)))]
            ++ tc
            ++ [EvSetState (set_transcript said (state w2)); EvOnTranscript said;
                EvAwait (api_voice_getReflection said);
                EvConsoleWarn (lit "Voice reflection API failed:");
                EvSetState (state w4); EvOnResponse reflection_fallback]
            ++ ts ++ tl)
    by (rewrite Htl, Hts, Ht4, Htc, <- !app_assoc; reflexivity).
  split; [|split; [|split; [|split; [|split; [|split]]]]].
  - unfold reflections, count. rewrite Htrace, !filter_app, C1, S2, L2. simpl.
    rewrite !length_app. simpl. lia.
  - unfold responses in *. rewrite Htrace, !flat_map_app, C5, S3, L3. simpl.
    rewrite ?app_nil_r. reflexivity.
  - rewrite Hsc6, Hsc5, Hm4, Hsc. reflexivity.
  - exists (trace w
            ++ [EvSetState (set_isProcessing true (set_isListening false (state w)))]
            ++ tc
            ++ [EvSetState (set_transcript said (state w2)); EvOnTranscript said;
                EvAwait (api_voice_getReflection said);
                EvConsoleWarn (lit "Voice reflection API failed:");
                EvSetState (state w4)]),
      (set_isSpeaking true (state w4)), (post ++ tl).
    split; [|split; [|split]].
    + rewrite Htrace, Ets, <- !app_assoc. reflexivity.
    + reflexivity.
    + rewrite Hs4. reflexivity.
    + intros tv voices E. destruct (Hv tv voices E) as [post' ->].
      exists (post' ++ tl). reflexivity.
  - exact Hoc6.
  - rewrite Htrace, !filter_app, C7, S1, L1. simpl. rewrite ?app_nil_r. reflexivity.
  - intros t E. rewrite (Herr t E), Herr5, Hs4, Hst. reflexivity.
Qed.

(** The agent is down while a recording without a transcription key is
    stopped. *)
Lemma agent_failure_masked_witness :
  let w1 := fst (exec agent_down_oracle (setState (fun prev =>
                   set_isProcessing true (set_isListening false prev))) recording_now) in
  let c := exec agent_down_oracle (stopListening_capture []) w1 in
  let said := trim (fullTranscript (refs (fst c))) in
  let r := exec agent_down_oracle
             (stopListening [] sample_settings (screen_options sample_params))
             recording_now in
  snd c = Returned tt /\
  truthy said = true /\
  screen_recordOnly sample_params = false /\
  hasRespondedRef (refs recording_now) = false /\
  @agent_down_oracle _ (api_voice_getReflection said)
  = SettlesAfter 10 (Thrown (ErrorObj (lit "Request failed"))) /\
  responses (fst r).(trace) = responses recording_now.(trace) ++ [reflection_fallback] /\
  map (fun m => (role m, content m)) (fst r).(screen).(messages)
  = map (fun m => (role m, content m)) recording_now.(screen).(messages)
    ++ [(user, said); (assistant, reflection_fallback)] /\
  raised (snd r) = false /\
  filter is_surfacing (fst r).(trace) = filter is_surfacing recording_now.(trace).
Proof.
  intros w1 c said r.
  assert (H1 : snd c = Returned tt) by reflexivity.
  assert (H2 : truthy said = true) by reflexivity.
  assert (H3 : screen_recordOnly sample_params = false) by reflexivity.
  assert (H4 : hasRespondedRef (refs recording_now) = false) by reflexivity.
  assert (H5 : @agent_down_oracle _ (api_voice_getReflection said)
               = SettlesAfter 10 (Thrown (ErrorObj (lit "Request failed")))) by reflexivity.
  repeat (split; [assumption|]).
  destruct (@agent_failure_masked [] sample_settings sample_params agent_down_oracle
              recording_now 10 (ErrorObj (lit "Request failed")) H1 H2 H3 H4 H5)
    as (_ & A2 & A3 & _ & A5 & A6 & _).
  repeat (split; [assumption|]). exact A6.
Defined.

(** In that turn the fallback is what the speech engine is given, and
    the turn ends normally with the hook idle. *)
Example agent_down_turn :
  let r := exec agent_down_oracle
             (stopListening [] sample_settings (screen_options sample_params))
             recording_now in
  snd r = Returned tt /\
  speeches (fst r) = 1 /\
  responses (fst r).(trace) = [reflection_fallback] /\
  (fst r).(state).(isProcessing) = false /\
  (fst r).(state).(isSpeaking) = false /\
  (fst r).(state).(error) = None.
Proof. vm_compute. repeat split. Qed.

(** ** One exchange per session *)









(** The same two turns from the mount on: the bound is reached, both
    turns are in the log, and the one reply is spoken. *)
Example overlapping_turns_run :
  let r := run (hook_op [] 1 sample_settings (screen_options sample_params))
             (mkRunning mounted []) overlapping_turns in
  reflections r.(world) = 1 /\ speeches r.(world) = 1 /\
  map role r.(world).(screen).(messages) = [user; user; assistant].
Proof. vm_compute. auto. Qed.

(** A turn after the exchange is captured: its transcript is reported and
    appended, and nothing is asked of the agent. *)
Example follow_up_turn_run :
  let w' := fst (exec prompt_oracle
                   (stopListening [] sample_settings (screen_options sample_params))
                   after_exchange) in
  transcripts w'.(trace) = [lit "I had a really productive day today"] /\
  map content w'.(screen).(messages) = [lit "I had a really productive day today"] /\
  reflections w' = 0 /\ speeches w' = 0.
Proof. vm_compute. auto. Qed.

(** ** Runs in which only some operations are started *)

Section Started.

Variable G : World -> World -> Prop.
Variable R : forall X : Type, Call X -> result X -> Prop.
Hypothesis G_refl : forall w, G w w.
Hypothesis G_trans : forall w1 w2 w3, G w1 w2 -> G w2 w3 -> G w1 w3.

(** Soundness for a run in which only calls that keep [G] are started:
    nothing is asked of the other operations. *)
Lemma run_started Op (interp : Op -> Fn unit) (ok : Op -> bool) (l : list (Step Op)) :
  (forall op, ok op = true -> keeps G R (interp op)) ->
  forallb (starts ok) l = true ->
  Forall (step_allowed R) l ->
  forall r, Forall (segments G R) r.(tasks) ->
  G r.(world) (run interp r l).(world).
Proof.
  intros Hops Hok Hl. induction Hl as [|s l Hs Hl IH]; intros r Ht; simpl; auto.
  simpl in Hok. apply andb_true_iff in Hok as [Hok1 Hok2].
  apply G_trans with (w2 := (step interp r s).(world)).
  - eapply step_guarantee; eauto.
  - apply IH; auto.
    destruct s as [op|i o|i].
    + simpl in *. specialize (Hops op Hok1 r.(world) r.(world) eq_refl).
      destruct (interp op (world r)) as [w' p]. simpl.
      apply Forall_app. split; [exact Ht|]. constructor; [tauto|constructor].
    + apply (@step_segments G R Op (fun _ => ret tt) r (Settle i o)); auto;
        intros op w; exact Logic.I.
    + apply (@step_segments G R Op (fun _ => ret tt) r (Timer i)); auto;
        intros op w; exact Logic.I.
Qed.

End Started.

(** Running a call step by step, in a hypothesis [H : r = exec o m w]. *)
Ltac exec_in H :=
  repeat first [ rewrite exec_bind in H | rewrite exec_emit in H | rewrite exec_setState in H
               | rewrite exec_set_ref in H | rewrite exec_modify in H | rewrite exec_ret in H
               | rewrite exec_read in H | rewrite exec_throw in H | rewrite exec_try_catch in H
               | rewrite exec_await_async in H | rewrite exec_setAudioModeAsync in H
               | rewrite exec_await in H
               | progress unfold then_exec in H | progress unfold catch_exec in H
               | progress cbv zeta in H ].

(** The same, splitting on how each awaited promise settles. *)
Ltac exec_cases H :=
  repeat (exec_in H;
          match type of H with
          | context [match ?o ?X ?c with SettlesAfter _ _ => _ | NeverSettles => _ end] =>
              let E := fresh "Eo" in destruct (o X c) as [? [?|?]|] eqn:E
          end);
  exec_in H.

Ltac oracle_facts :=
  repeat match goal with
         | H : SettlesAfter _ _ = SettlesAfter _ _ |- _ => injection H as ? ?; subst
         | H : SettlesAfter _ _ = NeverSettles |- _ => discriminate H
         | H : NeverSettles = SettlesAfter _ _ |- _ => discriminate H
         | H : Ok _ = Thrown _ |- _ => discriminate H
         | H : Thrown _ = Ok _ |- _ => discriminate H
         | H : ?o ?X ?c = _, H' : ?o ?X ?c = _ |- _ => rewrite H in H'
         end.

(** ** Calls that never reject *)

Section NeverRejects.

Variable o : Oracle.

Lemma calm_ret A (a : A) : never_rejects o (ret a).
Proof. intros w. reflexivity. Qed.

Lemma calm_read A (g : World -> A) : never_rejects o (read g).
Proof. intros w. reflexivity. Qed.

Lemma calm_modify f : never_rejects o (modify f).
Proof. intros w. reflexivity. Qed.

Lemma calm_bind A B (m : Fn A) (f : A -> Fn B) :
  never_rejects o m -> (forall a, never_rejects o (f a)) -> never_rejects o (bind m f).
Proof.
  intros Hm Hf w. rewrite exec_bind. specialize (Hm w).
  destruct (exec o m w) as [w' [a|e|]]; simpl in *; auto. apply Hf.
Qed.

(** A [try] whose [catch] clause does not throw: whatever its body does. *)
Lemma calm_try_catch A (m : Fn A) (h : JsError -> Fn A) :
  (forall e, never_rejects o (h e)) -> never_rejects o (try_catch m h).
Proof.
  intros Hh w. rewrite exec_try_catch.
  destruct (exec o m w) as [w' [a|e|]]; simpl; auto. apply Hh.
Qed.

Lemma calm_await_async A (m : Fn A) : never_rejects o m -> never_rejects o (await_async m).
Proof. intros Hm w. rewrite exec_await_async. apply Hm. Qed.

(** A race against a timer settles with the call's result as a value. *)
Lemma calm_await_race X (c : Call X) ms : never_rejects o (await_race c ms).
Proof.
  intros w. rewrite exec_await_race.
  destruct (o c) as [t r|]; [destruct (t <=? ms)%N|]; reflexivity.
Qed.

End NeverRejects.

Ltac calm_go named :=
  repeat (first
    [ progress intros
    | progress cbv zeta
    | solve [named]
    | apply calm_ret | apply calm_read | apply calm_modify | apply calm_await_race
    | apply calm_try_catch | apply calm_bind | apply calm_await_async
    | match goal with
      | |- never_rejects _ (when _ _) => unfold when
      | |- never_rejects _ (emit _) => unfold emit
      | |- never_rejects _ (setState _) => unfold setState
      | |- never_rejects _ (set_ref _) => unfold set_ref
      | |- never_rejects _ (call_handler _ _ _) => unfold call_handler
      | |- never_rejects _ Math_random => unfold Math_random
      | |- never_rejects _ (if ?b then _ else _) => destruct b eqn:?
      | |- never_rejects _ (match ?x with _ => _ end) => destruct x eqn:?
      end ]).

Section CalmHook.

Variable o : Oracle.

Lemma speak_calm settings text : never_rejects o (speak settings text).
Proof. unfold speak. calm_go ltac:(fail). Qed.



Lemma greet_calm uid settings options : never_rejects o (greet uid settings options).
Proof.
  pose proof speak_calm as Hs. unfold greet, fetched_question. calm_go ltac:(eauto).
Qed.


End CalmHook.


(** X2.  The three handlers of the voice session screen never reject:
    a failed save of the journal entry, a failed question fetch and a
    failed speech all end inside the handler. *)
Theorem screen_handlers_never_reject uid settings p (o : Oracle) (w : World) :
  raised (snd (exec o (handleStartSession uid settings p) w)) = false /\
  raised (snd (exec o (handleEndSession uid p) w)) = false /\
  raised (snd (exec o (handleClose uid p) w)) = false.
Proof.
  pose proof (speak_calm o) as Hs.
  pose proof (greet_calm o) as Hg.
  assert (He : never_rejects o (handleEndSession uid p))
    by (unfold handleEndSession, stopSpeaking, setIsSessionActive; calm_go ltac:(eauto)).
  repeat split.
  - revert w. change (never_rejects o (handleStartSession uid settings p)).
    unfold handleStartSession, setIsSessionActive, resetForNewSession. calm_go ltac:(eauto).
  - apply He.
  - revert w. change (never_rejects o (handleClose uid p)).
    unfold handleClose, stopSpeaking. calm_go ltac:(eauto).
Qed.


(** ** Starting and stopping the capture *)

(** X4.  When the microphone permission is not granted, [startListening]
    returns without touching the recorder, the socket or the audio mode
    (no further platform call is made): it clears [isListening], stores
    "Microphone permission not granted" in [state.error] and passes it to
    [onError] when one is registered. *)
Theorem startListening_permission_denied key options (o : Oracle) (w : World) t s :
  o _ Audio_requestPermissionsAsync = SettlesAfter t (Ok s) ->
  s <> granted ->
  let r := exec o (startListening key options) w in
  let msg := lit "Microphone permission not granted" in
  snd r = Returned tt /\
  (fst r).(state).(isListening) = false /\
  (fst r).(state).(error) = Some msg /\
  (fst r).(refs).(recording) = w.(refs).(recording) /\
  (fst r).(refs).(deepgramSocket) = w.(refs).(deepgramSocket) /\
  exists s1 s2,
    (fst r).(trace)
    = w.(trace)
      ++ [EvSetState s1; EvAwait Audio_requestPermissionsAsync;
          EvConsoleError (lit "Error starting recording:"); EvSetState s2]
      ++ match options.(onError) with Some _ => [EvOnError (Some msg)] | None => [] end.
Proof.
  intros Ho Hs r msg.
  assert (Hr : r = exec o (startListening key options) w) by reflexivity.
  clearbody r. unfold startListening in Hr.
  rewrite exec_try_catch, exec_bind, exec_setState in Hr. unfold then_exec at 1 in Hr.
  rewrite exec_bind, exec_set_ref in Hr. unfold then_exec at 1 in Hr.
  rewrite exec_bind, exec_await, Ho in Hr. unfold then_exec at 1 in Hr.
  rewrite exec_bind in Hr.
  assert (E : exec o match s with
                     | granted => ret tt
                     | _ => throw (ErrorObj (lit "Microphone permission not granted"))
                     end = fun w' => (w', Raised (ErrorObj (lit "Microphone permission not granted"))))
    by (destruct s; [contradiction| |]; reflexivity).
  rewrite E in Hr. unfold then_exec, catch_exec in Hr.
  exec_in Hr. unfold call_handler in Hr. cbn [error_message] in Hr.
  destruct (onError options) as [h|]; exec_in Hr; subst r; simpl;
    try destruct (h _ _) as [d sc]; simpl;
    repeat (split; [reflexivity|]); do 2 eexists; rewrite <- !app_assoc; reflexivity.
Qed.

Lemma startListening_permission_denied_witness :
  @mic_denied _ Audio_requestPermissionsAsync = SettlesAfter 10 (Ok denied) /\
  denied <> granted /\
  let r := exec mic_denied (startListening sample_key reporting_options) mounted in
  snd r = Returned tt /\
  (fst r).(state).(isListening) = false /\
  (fst r).(state).(error) = Some (lit "Microphone permission not granted") /\
  (fst r).(refs).(recording) = None.
Proof.
  assert (H1 : @mic_denied _ Audio_requestPermissionsAsync = SettlesAfter 10 (Ok denied))
    by reflexivity.
  assert (H2 : denied <> granted) by discriminate.
  split; [exact H1|]. split; [exact H2|].
  destruct (@startListening_permission_denied sample_key reporting_options mic_denied mounted
              10 denied H1 H2) as (A1 & A2 & A3 & A4 & _).
  repeat split; assumption.
Defined.

(** X5.  A streaming socket that cannot be opened does not stop the
    capture: with a key configured, the permission granted and the
    recorder created, [startListening] still ends listening with the
    recording in place and the audio session in recording mode; the
    failure is only warned about on the console and left in
    [state.error] as "Connection error" ([onError] is not called). *)
Theorem startListening_fallback_mode key options (o : Oracle) (w : World) t1 t2 t3 t4 e rec :
  key_missing key = false ->
  o _ Audio_requestPermissionsAsync = SettlesAfter t1 (Ok granted) ->
  o _ (Audio_setAudioModeAsync (mkAudioMode true (Some true))) = SettlesAfter t2 (Ok tt) ->
  o _ (WebSocket_open key) = SettlesAfter t3 (Thrown e) ->
  o _ Audio_Recording_createAsync = SettlesAfter t4 (Ok rec) ->
  let r := exec o (startListening key options) w in
  snd r = Returned tt /\
  (fst r).(refs).(recording) = Some rec /\
  (fst r).(refs).(deepgramSocket) = w.(refs).(deepgramSocket) /\
  (fst r).(state).(isListening) = true /\
  (fst r).(state).(isConnected) = false /\
  (fst r).(state).(error) = Some (lit "Connection error") /\
  (fst r).(device).(audioMode) = mkAudioMode true (Some true) /\
  errors_reported (fst r).(trace) = errors_reported w.(trace) /\
  In (EvConsoleWarn (lit "Deepgram connection failed, using fallback mode:")) (fst r).(trace).
Proof.
  intros Hk H1 H2 H3 H4 r.
  assert (Hr : r = exec o (startListening key options) w) by reflexivity.
  clearbody r. unfold startListening, connectToDeepgram, when in Hr. rewrite Hk in Hr.
  cbn [negb] in Hr.
  exec_in Hr. rewrite H1 in Hr. exec_in Hr. rewrite H2 in Hr. exec_in Hr.
  rewrite H3 in Hr. exec_in Hr. rewrite H4 in Hr. exec_in Hr.
  subst r. simpl. unfold errors_reported. rewrite !flat_map_app. simpl. rewrite !app_nil_r.
  repeat (split; [reflexivity|]).
  rewrite !in_app_iff. simpl. auto 10.
Qed.

Lemma startListening_fallback_mode_witness :
  key_missing sample_key = false /\
  let r := exec socket_down (startListening sample_key reporting_options) mounted in
  snd r = Returned tt /\
  (fst r).(refs).(recording) = Some (mkRecording (Some (lit "file:///rec.wav"))) /\
  (fst r).(state).(isListening) = true /\
  (fst r).(state).(error) = Some (lit "Connection error") /\
  errors_reported (fst r).(trace) = [].
Proof.
  assert (H0 : key_missing sample_key = false) by reflexivity.
  split; [exact H0|].
  destruct (@startListening_fallback_mode sample_key reporting_options socket_down mounted
              10 10 10 10 ThrownValue (mkRecording (Some (lit "file:///rec.wav")))
              H0 eq_refl eq_refl eq_refl eq_refl)
    as (A1 & A2 & _ & A4 & _ & A6 & _ & A8 & _).
  repeat split; assumption.
Defined.

(** X6.  When the recorder cannot be created, the audio session has
    already been switched to recording mode and is left there: the
    [catch] clause clears [isListening] and stores the error, and nothing
    resets the mode. *)
Theorem startListening_create_fails key options (o : Oracle) (w : World) t1 t2 t4 e :
  key_missing key = true ->
  options.(onError) = None ->
  o _ Audio_requestPermissionsAsync = SettlesAfter t1 (Ok granted) ->
  o _ (Audio_setAudioModeAsync (mkAudioMode true (Some true))) = SettlesAfter t2 (Ok tt) ->
  o _ Audio_Recording_createAsync = SettlesAfter t4 (Thrown e) ->
  let r := exec o (startListening key options) w in
  snd r = Returned tt /\
  (fst r).(state).(isListening) = false /\
  (fst r).(state).(error) = Some (message_or e (lit "Failed to start recording")) /\
  (fst r).(refs).(recording) = w.(refs).(recording) /\
  (fst r).(device).(audioMode) = mkAudioMode true (Some true).
Proof.
  intros Hk Hn H1 H2 H4 r.
  assert (Hr : r = exec o (startListening key options) w) by reflexivity.
  clearbody r. unfold startListening in Hr. rewrite Hk, Hn in Hr. cbn [negb] in Hr.
  unfold when, call_handler in Hr.
  exec_in Hr. rewrite H1 in Hr. exec_in Hr. rewrite H2 in Hr. exec_in Hr.
  rewrite H4 in Hr. exec_in Hr.
  subst r. simpl. repeat split.
Qed.

Lemma startListening_create_fails_witness :
  key_missing [] = true /\
  onError (screen_options sample_params) = None /\
  let r := exec recorder_busy (startListening [] (screen_options sample_params)) mounted in
  snd r = Returned tt /\
  (fst r).(state).(isListening) = false /\
  (fst r).(state).(error) = Some (lit "Only one Recording object can be prepared") /\
  (fst r).(device).(audioMode) = mkAudioMode true (Some true).
Proof.
  split; [reflexivity|]. split; [reflexivity|].
  destruct (@startListening_create_fails [] (screen_options sample_params) recorder_busy mounted
              10 10 10 (ErrorObj (lit "Only one Recording object can be prepared"))
              eq_refl eq_refl eq_refl eq_refl eq_refl)
    as (A1 & A2 & A3 & _ & A5).
  repeat split; assumption.
Defined.

(** X7.  The unmount [cleanup] releases everything: provided the stop of
    a running recording settles (fulfilled or rejected -- the rejection
    is ignored), it returns with no recording and no socket left, having
    closed the socket that was open, and stops speech last; the hook's
    state is not touched. *)
Theorem cleanup_releases (o : Oracle) (w : World) :
  (forall rec, w.(refs).(recording) = Some rec ->
     exists t res, o _ (Recording_stopAndUnloadAsync rec) = SettlesAfter t res) ->
  let r := exec o cleanup w in
  snd r = Returned tt /\
  (fst r).(refs).(recording) = None /\
  (fst r).(refs).(deepgramSocket) = None /\
  (fst r).(state) = w.(state) /\
  (exists before, (fst r).(trace) = before ++ [EvSpeechStop]) /\
  (forall s, w.(refs).(deepgramSocket) = Some s -> In (EvSocketClose s) (fst r).(trace)).
Proof.
  intros Hstop r.
  assert (Hr : r = exec o cleanup w) by reflexivity.
  clearbody r. unfold cleanup in Hr. exec_in Hr.
  destruct (recording (refs w)) as [rec|] eqn:Erec.
  - destruct (Hstop rec eq_refl) as (t & res & Ho).
    exec_in Hr. rewrite Ho in Hr. destruct res as [[]|e]; exec_in Hr; simpl in Hr;
      destruct (deepgramSocket (refs w)) as [s|] eqn:Es; exec_in Hr; subst r; simpl; rewrite ?Es, ?Erec;
      repeat (split; [reflexivity|]);
      (split; [eexists; reflexivity|]); intros s' E; inversion E; subst;
      rewrite ?in_app_iff; simpl; auto.
  - exec_in Hr. simpl in Hr. rewrite ?Erec in Hr.
    destruct (deepgramSocket (refs w)) as [s|] eqn:Es; exec_in Hr; subst r; simpl; rewrite ?Es, ?Erec;
      repeat (split; [reflexivity|]);
      (split; [eexists; reflexivity|]); intros s' E; inversion E; subst;
      rewrite ?in_app_iff; simpl; auto.
Qed.

Lemma cleanup_releases_witness :
  (forall rec, recording_now.(refs).(recording) = Some rec ->
     exists t res, @stop_fails_oracle _ (Recording_stopAndUnloadAsync rec) = SettlesAfter t res) /\
  let r := exec stop_fails_oracle cleanup recording_now in
  snd r = Returned tt /\
  (fst r).(refs).(recording) = None /\
  (fst r).(refs).(deepgramSocket) = None.
Proof.
  assert (H : forall rec, recording_now.(refs).(recording) = Some rec ->
     exists t res, @stop_fails_oracle _ (Recording_stopAndUnloadAsync rec) = SettlesAfter t res)
    by (intros rec _; do 2 eexists; reflexivity).
  split; [exact H|].
  destruct (@cleanup_releases stop_fails_oracle recording_now H) as (A1 & A2 & A3 & _).
  repeat split; assumption.
Defined.

Lemma truthy_trim s : truthy (trim s) = true -> truthy s = true.
Proof. destruct s; [discriminate|reflexivity]. Qed.

(** One frame of the socket. *)
Lemma socket_onmessage_commits options f w :
  let w' := fst (socket_onmessage options f w) in
  snd (socket_onmessage options f w) = Done (Ok tt) /\
  fullTranscript (refs w')
  = fold_left (fun full t => full ++ (if truthy full then lit " " else []) ++ t)
      (heard [f]) (fullTranscript (refs w)) /\
  (transcript (state w) = fullTranscript (refs w) ->
   transcript (state w') = fullTranscript (refs w')).
Proof.
  unfold socket_onmessage, heard. simpl.
  destruct (frame_transcript f) as [t|]; [|simpl; auto].
  destruct (truthy (trim t)) eqn:Ht.
  - rewrite (truthy_trim _ Ht). destruct (is_final f); simpl.
    + unfold bind, set_ref, modify, read, setState, call_handler; simpl.
      destruct (onPartialTranscript options) as [h|]; simpl; [|auto].
      destruct (h _ _); simpl. auto.
    + unfold bind, read, call_handler; simpl.
      destruct (onPartialTranscript options) as [h|]; simpl; [|auto].
      destruct (h _ _); simpl. auto.
  - rewrite !andb_false_r. simpl. destruct (truthy t); simpl; auto.
Qed.

Lemma accumulate_join (ts : list jsstr) : forall full,
  Forall (fun t => truthy t = true) ts ->
  fold_left (fun full t => full ++ (if truthy full then lit " " else []) ++ t) ts full
  = join (lit " ") ((if truthy full then [full] else []) ++ ts).
Proof.
  induction ts as [|t ts IH]; intros full Hts.
  - simpl. destruct full; reflexivity.
  - inversion Hts as [|? ? Ht Hts']; subst. simpl fold_left. rewrite (IH _ Hts').
    destruct full as [|c full]; simpl truthy; cbv iota.
    + simpl app. rewrite Ht. reflexivity.
    + destruct ts as [|t' ts].
      * reflexivity.
      * cbn [app join]. rewrite <- !app_assoc. reflexivity.
Qed.

Lemma heard_truthy fs : Forall (fun t => truthy t = true) (heard fs).
Proof.
  unfold heard. induction fs as [|f fs IH]; simpl; [constructor|].
  apply Forall_app. split; [|exact IH].
  destruct (frame_transcript f) as [t|]; [|constructor].
  destruct (is_final f); simpl; [|constructor].
  destruct (truthy (trim t)) eqn:Ht; constructor; [|constructor].
  apply truthy_trim, Ht.
Qed.

Lemma heard_app a b : heard (a ++ b) = heard a ++ heard b.
Proof. unfold heard. apply flat_map_app. Qed.

(** X8.  The streaming transcript is the final frames' transcripts joined
    by single spaces: after any sequence of socket frames,
    [fullTranscript] is what it was before (when that was not empty)
    followed by the transcript of every final frame whose transcript is
    not blank, in order, separated by one space each; interim frames,
    blank frames and frames that do not parse commit nothing; and
    [state.transcript] follows [fullTranscript]. *)
Theorem final_frames_accumulate key uid settings options (fs : list Frame) (w : World) :
  let r := run (hook_op key uid settings options) (mkRunning w [])
             (map (fun f => Start (OpSocketMessage f)) fs) in
  fullTranscript (refs (world r))
  = join (lit " ")
      ((if truthy (fullTranscript (refs w)) then [fullTranscript (refs w)] else [])
       ++ heard fs) /\
  (transcript (state w) = fullTranscript (refs w) ->
   transcript (state (world r)) = fullTranscript (refs (world r))).
Proof.
  intros r. rewrite <- accumulate_join by apply heard_truthy. subst r.
  generalize (@nil (Async unit)). revert w.
  induction fs as [|f fs IH]; intros w ts; [simpl; auto|].
  cbn [map run fold_left step]. unfold run in IH.
  cbn [hook_op world tasks].
  destruct (socket_onmessage_commits options f w) as (Hd & Hf & Ht).
  destruct (socket_onmessage options f w) as [w' p]. cbn [fst snd] in Hd, Hf, Ht.
  specialize (IH w' (ts ++ [p])). destruct IH as [IH1 IH2].
  split.
  - rewrite IH1. change (f :: fs) with ([f] ++ fs).
    rewrite heard_app, fold_left_app, Hf. reflexivity.
  - intros E. apply IH2, Ht, E.
Qed.

(** Two final frames among interim, blank and unparsable ones. *)
Example sample_frames_heard :
  let r := run (hook_op sample_key 1 sample_settings reporting_options) (mkRunning mounted [])
             (map (fun f => Start (OpSocketMessage f)) sample_frames) in
  fullTranscript (refs (world r)) = lit "I slept well and woke up early." /\
  transcript (state (world r)) = lit "I slept well and woke up early.".
Proof. vm_compute. auto. Qed.

(** X9.  With a key configured, [transcribeAudioFile] never rejects, and
    when it returns [fullTranscript] is one of three things: what it
    was (the provider heard nothing, or answered without a transcript),
    the provider's transcript, or -- whenever reading the file or the
    upload fails -- the fixed sentence "I'd like to reflect on my day",
    which then stands for the user's words. *)
Theorem transcribe_with_key key uri (o : Oracle) (w : World) :
  key_missing key = false ->
  let r := exec o (transcribeAudioFile key uri) w in
  raised (snd r) = false /\
  (snd r = Returned tt ->
   fullTranscript (refs (fst r)) = fullTranscript (refs w) \/
   fullTranscript (refs (fst r)) = canned_transcript \/
   exists resp l t,
     o _ (Response_json_transcript resp) = SettlesAfter l (Ok (Some (Some t))) /\
     truthy t = true /\
     fullTranscript (refs (fst r)) = t) /\
  (forall l e, o _ (fetch_uri uri) = SettlesAfter l (Thrown e) ->
     snd r = Returned tt /\ fullTranscript (refs (fst r)) = canned_transcript) /\
  (forall l1 resp l2 blob l3 e,
     o _ (fetch_uri uri) = SettlesAfter l1 (Ok resp) ->
     o _ (Response_blob resp) = SettlesAfter l2 (Ok blob) ->
     o _ (fetch_deepgram_listen key blob) = SettlesAfter l3 (Thrown e) ->
     snd r = Returned tt /\ fullTranscript (refs (fst r)) = canned_transcript).
Proof.
  intros Hk r.
  assert (Hr : r = exec o (transcribeAudioFile key uri) w) by reflexivity.
  clearbody r. unfold transcribeAudioFile in Hr. rewrite Hk in Hr.
  exec_cases Hr;
    try (destruct a2 as [[t'|]|]; [unfold when in Hr; destruct (truthy t') eqn:Et| |]);
    exec_in Hr; subst r; simpl;
    (split; [reflexivity|]);
    (split;
     [ intros Hret;
       first [ discriminate Hret
             | left; reflexivity
             | right; left; reflexivity
             | right; right; do 3 eexists; split; [eassumption|split; [eassumption|reflexivity]] ]
     | ]);
    split; intros; oracle_facts; try discriminate; try (split; reflexivity).
Qed.

Lemma transcribe_with_key_witness :
  key_missing sample_key = false /\
  let r := exec upload_fails (transcribeAudioFile sample_key (lit "file:///rec.wav")) mounted in
  snd r = Returned tt /\ fullTranscript (refs (fst r)) = canned_transcript.
Proof.
  split; [reflexivity|].
  destruct (@transcribe_with_key sample_key (lit "file:///rec.wav") upload_fails mounted eq_refl)
    as (_ & _ & A3 & _).
  exact (A3 10%N (ErrorObj (lit "Network request failed")) eq_refl).
Defined.

(** ** The opening question *)

Lemma speak_asks_nothing t :
  forallb speak_event t = true ->
  filter is_question_call t = [] /\ responses t = [].
Proof.
  intros Ht. split;
    first [ apply (filter_disjoint speak_event _ t); [|exact Ht]
          | apply (flat_map_disjoint speak_event _ t); [|exact Ht] ];
    intros e; destruct e as [X c| | | | | | | | | | | | | ]; try reflexivity; try discriminate;
    destruct c; try reflexivity; discriminate.
Qed.

(** What [greet] does once the question is chosen. *)
Lemma greet_tail settings options (o : Oracle) q w :
  let r := exec o (set_ref (fun r =>
               set_conversationHistory
                 (r.(conversationHistory) ++ [mkHistoryEntry assistant q]) r) ;;
             call_handler EvOnResponse options.(onResponse) q ;;
             await_async (speak settings q)) w in
  conversationHistory (refs (fst r))
  = conversationHistory (refs w) ++ [mkHistoryEntry assistant q] /\
  responses (fst r).(trace)
  = responses w.(trace) ++ match options.(onResponse) with Some _ => [q] | None => [] end /\
  count is_question_call (fst r).(trace) = count is_question_call w.(trace) /\
  (truthy (trim q) = true ->
   forall tv voices,
     o _ Speech_getAvailableVoicesAsync = SettlesAfter tv (Ok voices) ->
     In (EvAwait (Speech_speak q (speech_options settings (find is_female_voice voices))))
        (fst r).(trace)).
Proof.
  intros r. assert (Hr : r = exec o (set_ref (fun r =>
               set_conversationHistory
                 (r.(conversationHistory) ++ [mkHistoryEntry assistant q]) r) ;;
             call_handler EvOnResponse options.(onResponse) q ;;
             await_async (speak settings q)) w) by reflexivity.
  clearbody r. unfold call_handler in Hr.
  rewrite exec_bind, exec_set_ref in Hr. unfold then_exec at 1 in Hr.
  rewrite exec_bind in Hr.
  destruct (onResponse options) as [h|].
  - rewrite exec_modify in Hr. unfold then_exec in Hr. rewrite exec_await_async in Hr.
    match type of Hr with _ = exec o _ ?w1 =>
      pose proof (speak_exec settings q o w1) as [Hb (t & Ht & Ha)];
      pose proof (@speak_starts settings q o w1) as Hst end.
    rewrite <- Hr in Hb, Ht, Hst. clear Hr.
    destruct (speak_asks_nothing t Ha) as [Q1 Q2].
    unfold beside_speak in Hb. injection Hb as Hrefs _ _ _ _ _ _ _ _.
    destruct (h q _) as [d s]. simpl in Hrefs, Ht.
    split; [rewrite Hrefs; reflexivity|].
    split; [rewrite Ht; unfold responses in *; rewrite !flat_map_app, Q2; simpl;
            rewrite !app_nil_r; reflexivity|].
    split; [rewrite Ht; unfold count; rewrite !filter_app, Q1; simpl;
            rewrite !app_nil_r; reflexivity|].
    intros Hq tv voices E. destruct (Hst Hq) as (_ & post & Hpost & Hv).
    destruct (Hv tv voices E) as [post' ->]. rewrite Hpost.
    rewrite !in_app_iff. simpl. auto 10.
  - rewrite exec_ret in Hr. unfold then_exec in Hr. rewrite exec_await_async in Hr.
    match type of Hr with _ = exec o _ ?w1 =>
      pose proof (speak_exec settings q o w1) as [Hb (t & Ht & Ha)];
      pose proof (@speak_starts settings q o w1) as Hst end.
    rewrite <- Hr in Hb, Ht, Hst. clear Hr.
    destruct (speak_asks_nothing t Ha) as [Q1 Q2].
    unfold beside_speak in Hb. injection Hb as Hrefs _ _ _ _ _ _ _ _.
    simpl in Hrefs, Ht.
    split; [rewrite Hrefs; reflexivity|].
    split; [rewrite Ht; unfold responses in *; rewrite !flat_map_app, Q2; simpl;
            rewrite !app_nil_r; reflexivity|].
    split; [rewrite Ht; unfold count; rewrite !filter_app, Q1; simpl;
            rewrite !app_nil_r; reflexivity|].
    intros Hq tv voices E. destruct (Hst Hq) as (_ & post & Hpost & Hv).
    destruct (Hv tv voices E) as [post' ->]. rewrite Hpost.
    rewrite !in_app_iff. simpl. auto 10.
Qed.

(** X10.  [greet] asks one question that is never empty: the trimmed
    [startingQuestion] when it is not blank (then no question is
    requested from the backend); and, when [startingQuestion] is blank or
    missing and the request for a question is rejected, "How are you
    feeling right now?".  The question is appended to the conversation
    history as one assistant entry and passed to [onResponse]; nothing is
    appended only while the request never settles. *)
Theorem greet_asks uid settings options (o : Oracle) (w : World) :
  let r := exec o (greet uid settings options) w in
  exists asked : list jsstr,
    conversationHistory (refs (fst r))
    = conversationHistory (refs w) ++ map (mkHistoryEntry assistant) asked /\
    responses (fst r).(trace)
    = responses w.(trace) ++ match options.(onResponse) with Some _ => asked | None => [] end /\
    (asked = [] /\ snd r = Hung \/ exists q, asked = [q] /\ truthy q = true) /\
    (forall s, options.(startingQuestion) = Some s -> truthy (trim s) = true ->
       asked = [trim s] /\
       count is_question_call (fst r).(trace) = count is_question_call w.(trace)) /\
    (forall l e,
       match options.(startingQuestion) with Some s => truthy (trim s) | None => false end = false ->
       o _ (api_journals_getQuestion uid 3) = SettlesAfter l (Thrown e) ->
       asked = [default_question]).
Proof.
  intros r. assert (Hr : r = exec o (greet uid settings options) w) by reflexivity.
  clearbody r. unfold greet in Hr. rewrite exec_bind in Hr.
  assert (Hq : forall w1,
            exec o (fetched_question uid) w1
            = match o _ (api_journals_getQuestion uid 3) with
              | SettlesAfter l (Ok (Some (Some q))) =>
                  (advance l (log (EvAwait (api_journals_getQuestion uid 3)) w1),
                   Returned (js_or q default_question))
              | SettlesAfter l _ =>
                  (advance l (log (EvAwait (api_journals_getQuestion uid 3)) w1),
                   Returned default_question)
              | NeverSettles => (log (EvAwait (api_journals_getQuestion uid 3)) w1, Hung)
              end).
  { intros w1. unfold fetched_question.
    rewrite exec_bind, exec_try_catch, exec_bind, exec_await.
    destruct (o _ (api_journals_getQuestion uid 3)) as [l [[[q|]|]|e]|]; reflexivity. }
  assert (Hdefault : forall q, truthy (js_or q default_question) = true)
    by (intros q; unfold js_or; destruct (truthy q) eqn:E; [exact E|reflexivity]).
  destruct (startingQuestion options) as [s|] eqn:Es;
    [destruct (truthy (trim s)) eqn:Et|].
  - rewrite exec_ret in Hr. unfold then_exec in Hr.
    destruct (@greet_tail settings options o (trim s) w) as (A & B & C & _).
    rewrite <- Hr in A, B, C. exists [trim s]. simpl.
    split; [exact A|]. split; [exact B|]. split; [right; eauto|].
    split; [intros s' E _; injection E as <-; auto|]. intros l e E. discriminate E.
  - rewrite Hq in Hr.
    destruct (o _ (api_journals_getQuestion uid 3)) as [l [[[q|]|]|e]|] eqn:Eo;
      unfold then_exec in Hr;
      try (match type of Hr with _ = exec o _ ?w1 =>
             match type of Hr with context [mkHistoryEntry assistant ?q] =>
               destruct (@greet_tail settings options o q w1) as (A & B & C & _);
               rewrite <- Hr in A, B, C; exists [q]
             end
           end;
           simpl in A, B; unfold responses in *; rewrite flat_map_app in B; simpl in B;
           rewrite app_nil_r in B; simpl;
           split; [exact A|]; split; [exact B|]; split; [right; eauto|];
           split; [intros s' E E'; injection E as <-; congruence|];
           intros l' e' _ E; try discriminate E; reflexivity).
    subst r. exists []. simpl. rewrite app_nil_r. unfold responses. rewrite flat_map_app. simpl.
    rewrite app_nil_r. destruct (onResponse options); rewrite ?app_nil_r;
      (split; [reflexivity|]); (split; [reflexivity|]); (split; [left; auto|]);
      (split; [intros s' E E'; injection E as <-; congruence|]);
      intros l' e' _ E; discriminate E.
  - rewrite Hq in Hr.
    destruct (o _ (api_journals_getQuestion uid 3)) as [l [[[q|]|]|e]|] eqn:Eo;
      unfold then_exec in Hr;
      try (match type of Hr with _ = exec o _ ?w1 =>
             match type of Hr with context [mkHistoryEntry assistant ?q] =>
               destruct (@greet_tail settings options o q w1) as (A & B & C & _);
               rewrite <- Hr in A, B, C; exists [q]
             end
           end;
           simpl in A, B; unfold responses in *; rewrite flat_map_app in B; simpl in B;
           rewrite app_nil_r in B; simpl;
           split; [exact A|]; split; [exact B|]; split; [right; eauto|];
           split; [intros s' E E'; discriminate E|];
           intros l' e' _ E; try discriminate E; reflexivity).
    subst r. exists []. simpl. rewrite app_nil_r. unfold responses. rewrite flat_map_app. simpl.
    rewrite app_nil_r. destruct (onResponse options); rewrite ?app_nil_r;
      (split; [reflexivity|]); (split; [reflexivity|]); (split; [left; auto|]);
      (split; [intros s' E E'; discriminate E|]);
      intros l' e' _ E; discriminate E.
Qed.


(** ** The voice session screen *)

(** X11.  Closing the screen saves nothing unless a session is active and
    the log is not empty: otherwise [handleClose] only stops speech and
    navigates back to the tabs -- no journal request is made and the
    screen's state is left as it is. *)
Theorem close_saves_only_active_sessions uid p (o : Oracle) (w : World) :
  w.(screen).(isSessionActive) = false \/ w.(screen).(messages) = [] ->
  let r := exec o (handleClose uid p) w in
  snd r = Returned tt /\
  (fst r).(trace)
  = w.(trace) ++ [EvSpeechStop; EvSetState (set_isSpeaking false w.(state));
                  EvRouterReplace (lit "/(tabs)")] /\
  (fst r).(screen) = w.(screen) /\
  (fst r).(state).(isSpeaking) = false.
Proof.
  intros Hw r. assert (Hr : r = exec o (handleClose uid p) w) by reflexivity.
  clearbody r. unfold handleClose, stopSpeaking in Hr. exec_in Hr.
  assert (E : isSessionActive (screen w) && negb (List.length (messages (screen w)) =? 0) = false).
  { destruct Hw as [-> | ->]; [reflexivity|apply andb_false_r]. }
  rewrite E in Hr. exec_in Hr. subst r. simpl. rewrite <- !app_assoc. repeat split.
Qed.

Lemma close_saves_only_active_sessions_witness :
  (mounted.(screen).(isSessionActive) = false \/ mounted.(screen).(messages) = []) /\
  let r := exec prompt_oracle (handleClose 1 sample_params) mounted in
  snd r = Returned tt /\
  (fst r).(trace)
  = mounted.(trace) ++ [EvSpeechStop; EvSetState (set_isSpeaking false mounted.(state));
                        EvRouterReplace (lit "/(tabs)")].
Proof.
  assert (H : mounted.(screen).(isSessionActive) = false \/ mounted.(screen).(messages) = [])
    by (left; reflexivity).
  split; [exact H|].
  destruct (@close_saves_only_active_sessions 1 sample_params prompt_oracle mounted H)
    as (A1 & A2 & _).
  split; assumption.
Defined.

(** X12.  A session started with a prompt (and not record-only) asks
    that prompt: [handleStartSession] resets the exchange, appends the
    trimmed prompt to the log as an assistant message and speaks it,
    without requesting a question from the backend; the prompt does not
    enter the conversation history. *)
Theorem start_with_prompt uid settings p (o : Oracle) (w : World) q :
  screen_recordOnly p = false ->
  promptQuestion p = Some q ->
  let r := exec o (handleStartSession uid settings p) w in
  (exists m, (fst r).(screen).(messages) = w.(screen).(messages) ++ [m] /\
             role m = assistant /\ content m = q) /\
  trimmed q = true /\
  (fst r).(screen).(isSessionActive) = true /\
  (fst r).(refs).(hasRespondedRef) = false /\
  (fst r).(refs).(conversationHistory) = [] /\
  count is_question_call (fst r).(trace) = count is_question_call w.(trace) /\
  raised (snd r) = false /\
  (forall tv voices,
     o _ Speech_getAvailableVoicesAsync = SettlesAfter tv (Ok voices) ->
     In (EvAwait (Speech_speak q (speech_options settings (find is_female_voice voices))))
        (fst r).(trace)).
Proof.
  intros Hrec Hq r. assert (Hr : r = exec o (handleStartSession uid settings p) w) by reflexivity.
  clearbody r. unfold handleStartSession, setIsSessionActive, resetForNewSession in Hr.
  rewrite Hrec, Hq in Hr. exec_in Hr.
  assert (Ht : trimmed q = true).
  { unfold promptQuestion in Hq. destruct (prompt p) as [s|]; [|discriminate].
    destruct (truthy (trim s)) eqn:E; [|discriminate]. injection Hq as <-.
    apply trimmed_trim, E. }
  match type of Hr with _ = exec o _ ?w1 =>
    pose proof (speak_exec settings q o w1) as [Hb (t & Htr & Ha)];
    destruct (@speak_starts settings q o w1) as (Hoc & post & Hpost & Hv);
      [rewrite (trim_trimmed _ Ht); apply trimmed_truthy, Ht|]
  end.
  rewrite <- Hr in Hb, Htr, Hoc, Hpost. clear Hr.
  unfold beside_speak in Hb. injection Hb as Hrefs Hsc _ _ _ _ _ _ _.
  unfold addMessage in *. simpl in Hrefs, Hsc, Htr, Hpost.
  assert (Q : filter is_question_call t = []).
  { apply (filter_disjoint speak_event _ t); [|exact Ha].
    intros e; destruct e as [X c| | | | | | | | | | | | | ]; try reflexivity; try discriminate.
    destruct c; try reflexivity; discriminate. }
  split; [eexists; rewrite Hsc; simpl; repeat split|].
  split; [exact Ht|]. rewrite Hsc, Hrefs. simpl.
  repeat (split; [reflexivity|]).
  split; [unfold count; rewrite Htr, !filter_app, Q; simpl; rewrite !app_nil_r; reflexivity|].
  split; [exact Hoc|].
  intros tv voices E. destruct (Hv tv voices E) as [post' ->]. rewrite Hpost.
  rewrite !in_app_iff. simpl. auto 10.
Qed.

Lemma start_with_prompt_witness :
  screen_recordOnly prompted_params = false /\
  promptQuestion prompted_params = Some (lit "What made you smile today?") /\
  let r := exec prompt_oracle (handleStartSession 1 sample_settings prompted_params) mounted in
  (exists m, (fst r).(screen).(messages) = mounted.(screen).(messages) ++ [m] /\
             role m = assistant /\ content m = lit "What made you smile today?") /\
  count is_question_call (fst r).(trace) = count is_question_call mounted.(trace).
Proof.
  split; [reflexivity|]. split; [reflexivity|].
  destruct (@start_with_prompt 1 sample_settings prompted_params prompt_oracle mounted
              (lit "What made you smile today?") eq_refl eq_refl)
    as (A1 & _ & _ & _ & _ & A6 & _).
  split; assumption.
Defined.

(** *** The log only grows *)

Lemma log_grows_refl w : log_grows w w.
Proof. exists []. symmetry. apply app_nil_r. Qed.

Lemma log_grows_trans w1 w2 w3 : log_grows w1 w2 -> log_grows w2 w3 -> log_grows w1 w3.
Proof.
  intros [a Ha] [b Hb]. exists (a ++ b). rewrite Hb, Ha, app_assoc. reflexivity.
Qed.

Ltac grows_leaf :=
  intros; unfold addMessage;
  repeat match goal with
         | |- context [let (_, _) := ?x in _] => destruct x
         end;
  first [ exists []; simpl; symmetry; apply app_nil_r
        | eexists [_]; simpl; reflexivity ].

Ltac grows_go named :=
  keeps_go log_grows_refl log_grows_trans named grows_leaf.

Section Grows.

Variable R : forall X : Type, Call X -> result X -> Prop.
Variable key : jsstr.
Variable uid : N.
Variable settings : VoiceSettings.
Variable p : Params.

Lemma options_grow :
  (forall t, keeps log_grows R (call_handler EvOnTranscript (onTranscript (screen_options p)) t)) /\
  (forall t, keeps log_grows R (call_handler EvOnResponse (onResponse (screen_options p)) t)) /\
  (forall m, keeps log_grows R (call_handler EvOnError (onError (screen_options p)) m)) /\
  (forall t, keeps log_grows R
     (call_handler EvOnPartialTranscript (onPartialTranscript (screen_options p)) t)).
Proof.
  split; [|split; [|split]]; intros t.
  - apply keeps_modify. grows_leaf.
  - simpl. destruct (screen_recordOnly p); simpl;
      [apply keeps_ret, log_grows_refl | apply keeps_modify; grows_leaf].
  - apply keeps_ret, log_grows_refl.
  - apply keeps_ret, log_grows_refl.
Qed.

Lemma screen_op_grows op : keeps log_grows R (screen_op key uid settings p op).
Proof.
  destruct options_grow as (O1 & O2 & O3 & O4).
  assert (Hs : forall t, keeps log_grows R (speak settings t))
    by (intros; unfold speak; grows_go ltac:(eauto)).
  assert (H1 : keeps log_grows R (startListening key (screen_options p)))
    by (unfold startListening, connectToDeepgram; grows_go ltac:(eauto)).
  assert (H2 : keeps log_grows R (stopListening key settings (screen_options p)))
    by (unfold stopListening, stopListening_capture, transcribeAudioFile,
          stopListening_process, stopListening_reflect; grows_go ltac:(eauto)).
  assert (H3 : keeps log_grows R (greet uid settings (screen_options p)))
    by (unfold greet, fetched_question; grows_go ltac:(eauto)).
  assert (H4 : keeps log_grows R (handleEndSession uid p))
    by (unfold handleEndSession, stopSpeaking, setIsSessionActive; grows_go ltac:(eauto)).
  destruct op as [op| | |]; simpl; auto.
  - destruct op; simpl; auto.
    + unfold toggleListening. grows_go ltac:(eauto).
    + unfold stopSpeaking. grows_go ltac:(eauto).
    + unfold suggestPrompt. grows_go ltac:(eauto).
    + unfold resetForNewSession. grows_go ltac:(eauto).
    + unfold clearHistory, resetForNewSession. grows_go ltac:(eauto).
    + unfold cleanup. grows_go ltac:(eauto).
    + unfold socket_onmessage. grows_go ltac:(eauto).
    + unfold socket_onclose. grows_go ltac:(eauto).
    + grows_go ltac:(eauto).
  - unfold handleStartSession, setIsSessionActive, resetForNewSession. grows_go ltac:(eauto).
  - unfold handleClose, stopSpeaking. grows_go ltac:(eauto).
Qed.

End Grows.

(** X13.  The message log is append-only: whatever the screen and the
    hook do, in any interleaving, the messages that were in the log stay
    where they are and new ones are added at the end.  In particular
    starting a new session does not clear the log of the previous one. *)
Theorem message_log_append_only key uid settings p (w0 : World)
    (session : list (Step ScreenOp)) :
  let w := (run (screen_op key uid settings p) (mkRunning w0 []) session).(world) in
  exists added, w.(screen).(messages) = w0.(screen).(messages) ++ added.
Proof.
  refine (@run_started log_grows any_result log_grows_refl log_grows_trans
            ScreenOp (screen_op key uid settings p) (fun _ => true) session
            _ _ _ (mkRunning w0 []) _).
  - intros op _. apply screen_op_grows.
  - induction session as [|[op|i o|i] l IH]; simpl; auto.
  - apply all_steps_allowed.
  - constructor.
Qed.

(** *** Record-only sessions *)

Lemma ai_silent_refl w : ai_silent w w.
Proof. repeat split. exists []. split; [symmetry; apply app_nil_r|constructor]. Qed.

Lemma ai_silent_trans w1 w2 w3 : ai_silent w1 w2 -> ai_silent w2 w3 -> ai_silent w1 w3.
Proof.
  intros (A1 & A2 & A3 & a & A4 & A5) (B1 & B2 & B3 & b & B4 & B5).
  repeat split; try congruence.
  exists (a ++ b). split; [rewrite B4, A4, app_assoc; reflexivity|apply Forall_app; auto].
Qed.

Ltac ai_leaf :=
  intros; unfold addMessage;
  repeat match goal with
         | |- context [let (_, _) := ?x in _] => destruct x
         end;
  unfold ai_silent, reflections, speeches, count; simpl;
  rewrite ?filter_app; simpl; rewrite ?app_nil_r;
  repeat (split; [reflexivity|]);
  first [ exists []; split; [simpl; symmetry; apply app_nil_r|constructor]
        | eexists [_]; split; [simpl; reflexivity|repeat constructor] ].

Ltac ai_go named :=
  keeps_go ai_silent_refl ai_silent_trans named ai_leaf.

Section RecordOnly.

Variable R : forall X : Type, Call X -> result X -> Prop.
Variable key : jsstr.
Variable uid : N.
Variable settings : VoiceSettings.
Variable p : Params.
Hypothesis Hrec : screen_recordOnly p = true.

Ltac record_only :=
  cbn [recordOnly onResponse onError onTranscript onPartialTranscript screen_options];
  rewrite ?Hrec.

Lemma screen_op_record_only op :
  screen_triggers op = true -> keeps ai_silent R (screen_op key uid settings p op).
Proof.
  assert (H1 : keeps ai_silent R (startListening key (screen_options p)))
    by (unfold startListening, connectToDeepgram; record_only; ai_go ltac:(eauto)).
  assert (H2 : keeps ai_silent R (stopListening key settings (screen_options p)))
    by (unfold stopListening, stopListening_capture, transcribeAudioFile,
          stopListening_process, call_handler; record_only; ai_go ltac:(eauto)).
  assert (H4 : keeps ai_silent R (handleEndSession uid p))
    by (unfold handleEndSession, stopSpeaking, setIsSessionActive; ai_go ltac:(eauto)).
  destruct op as [op| | |]; simpl; intros Hop; auto.
  - destruct op; simpl; try discriminate Hop; auto.
    + unfold toggleListening. ai_go ltac:(eauto).
    + unfold stopSpeaking. ai_go ltac:(eauto).
    + unfold cleanup. ai_go ltac:(eauto).
    + unfold socket_onmessage, call_handler. record_only. ai_go ltac:(eauto).
    + unfold socket_onclose. ai_go ltac:(eauto).
    + ai_go ltac:(eauto).
  - unfold handleStartSession, setIsSessionActive, resetForNewSession. rewrite Hrec.
    ai_go ltac:(eauto).
  - unfold handleClose, stopSpeaking. ai_go ltac:(eauto).
Qed.

End RecordOnly.

(** X14.  In a record-only session no AI takes part: whatever the user
    does on the screen (start, microphone button, stop speaking, end,
    close) and however the calls interleave, no reflection is requested,
    no question is requested, nothing is spoken, and every message added
    to the log is the user's. *)
Theorem record_only_never_speaks key uid settings p (w0 : World)
    (session : list (Step ScreenOp)) :
  screen_recordOnly p = true ->
  forallb (starts screen_triggers) session = true ->
  let w := (run (screen_op key uid settings p) (mkRunning w0 []) session).(world) in
  reflections w = reflections w0 /\
  speeches w = speeches w0 /\
  count is_question_call w.(trace) = count is_question_call w0.(trace) /\
  exists added,
    w.(screen).(messages) = w0.(screen).(messages) ++ added /\
    Forall (fun m => m.(role) = user) added.
Proof.
  intros Hrec Hok.
  refine (@run_started ai_silent any_result ai_silent_refl ai_silent_trans
            ScreenOp (screen_op key uid settings p) screen_triggers session
            _ Hok _ (mkRunning w0 []) _).
  - intros op Hop. apply screen_op_record_only; auto.
  - apply all_steps_allowed.
  - constructor.
Qed.

Lemma record_only_never_speaks_witness :
  screen_recordOnly record_only_params = true /\
  forallb (starts screen_triggers) recorded_note = true /\
  let w := (run (screen_op [] 1 sample_settings record_only_params) (mkRunning mounted [])
              recorded_note).(world) in
  reflections w = reflections mounted /\
  speeches w = speeches mounted /\
  count is_question_call w.(trace) = count is_question_call mounted.(trace) /\
  exists added,
    w.(screen).(messages) = mounted.(screen).(messages) ++ added /\
    Forall (fun m => m.(role) = user) added.
Proof.
  split; [reflexivity|]. split; [reflexivity|].
  apply (@record_only_never_speaks [] 1 sample_settings record_only_params mounted
           recorded_note); reflexivity.
Defined.

(** The note is recorded and saved, and nothing was spoken. *)
Example recorded_note_run :
  let w := (run (screen_op [] 1 sample_settings record_only_params) (mkRunning mounted [])
              recorded_note).(world) in
  map role w.(screen).(messages) = [user] /\
  journal_calls w.(trace)
  = [mkJournalCreate 1 (lit "I had a really productive day today") None true
       (lit "I had a really productive day today") (lit "voice_note")] /\
  speeches w = 0.
Proof. vm_compute. auto. Qed.

(** ** Scheduling: refusals, failures and odd inputs *)

(** X16.  When the notification permission is not granted -- neither
    already nor when asked for -- [scheduleLocalNotifications] returns
    [{ ok: false, error: "Notification permission denied" }] without
    asking the platform for a trigger; the triggers that were pending
    have been cancelled all the same. *)
Theorem permission_denied_schedules_nothing time daysOfWeek mode (o : Oracle) (w : World)
    t0 t1 s t2 s' :
  daysOfWeek <> [] ->
  o _ Notifications_cancelAllScheduledNotificationsAsync = SettlesAfter t0 (Ok tt) ->
  o _ Notifications_getPermissionsAsync = SettlesAfter t1 (Ok s) -> s <> granted ->
  o _ Notifications_requestPermissionsAsync = SettlesAfter t2 (Ok s') -> s' <> granted ->
  let r := exec o (scheduleLocalNotifications time daysOfWeek true mode) w in
  snd r = Returned (mkScheduleOutcome false (Some (lit "Notification permission denied"))) /\
  (fst r).(device).(scheduled) = [] /\
  (fst r).(trace)
  = w.(trace) ++ [EvAwait Notifications_cancelAllScheduledNotificationsAsync;
                  EvAwait Notifications_getPermissionsAsync;
                  EvAwait Notifications_requestPermissionsAsync].
Proof.
  intros Hd H0 H1 Hs H2 Hs' r.
  assert (Hr : r = exec o (scheduleLocalNotifications time daysOfWeek true mode) w)
    by reflexivity.
  clearbody r. unfold scheduleLocalNotifications, requestNotificationPermissions in Hr.
  destruct daysOfWeek as [|day days]; [contradiction|]. cbn [negb orb List.length Nat.eqb] in Hr.
  exec_in Hr. rewrite H0 in Hr. exec_in Hr. rewrite H1 in Hr. exec_in Hr.
  destruct s; [contradiction| |]; exec_in Hr; rewrite H2 in Hr; exec_in Hr;
    (destruct s'; [contradiction| |]); exec_in Hr; subst r; simpl;
    rewrite <- !app_assoc; repeat split.
Qed.

Lemma permission_denied_schedules_nothing_witness :
  [lit "mon"] <> [] /\
  let r := exec notifications_refused
             (scheduleLocalNotifications (lit "09:00") [lit "mon"] true voice) before_nine in
  snd r = Returned (mkScheduleOutcome false (Some (lit "Notification permission denied"))) /\
  (fst r).(device).(scheduled) = [] /\
  List.length before_nine.(device).(scheduled) = 1.
Proof.
  assert (H : [lit "mon"] <> []) by discriminate.
  split; [exact H|].
  assert (Hs : undetermined <> granted) by discriminate.
  assert (Hs' : denied <> granted) by discriminate.
  destruct (@permission_denied_schedules_nothing (lit "09:00") [lit "mon"] voice
              notifications_refused before_nine 10 10 undetermined 10 denied
              H eq_refl eq_refl Hs eq_refl Hs') as (A1 & A2 & _).
  repeat split; assumption.
Defined.

(** X17.  A trigger the platform refuses is reported, not thrown: the call
    returns [{ ok: false, error }] with the error's message (or "Failed
    to schedule" when what was thrown is not an [Error]), after exactly
    one request, and no trigger is pending. *)
Theorem schedule_rejection_reported time daysOfWeek mode (o : Oracle) (w : World)
    t0 tp t e :
  daysOfWeek <> [] ->
  o _ Notifications_cancelAllScheduledNotificationsAsync = SettlesAfter t0 (Ok tt) ->
  permission_granted o tp ->
  (forall req, o _ (Notifications_scheduleNotificationAsync req) = SettlesAfter t (Thrown e)) ->
  let r := exec o (scheduleLocalNotifications time daysOfWeek true mode) w in
  snd r = Returned (mkScheduleOutcome false
                      (Some match e with
                            | ErrorObj m => m
                            | ThrownValue => lit "Failed to schedule"
                            end)) /\
  (fst r).(device).(scheduled) = [] /\
  exists added,
    (fst r).(trace) = w.(trace) ++ added /\ List.length (requests added) = 1.
Proof.
  intros Hd H0 Hp Hs r.
  assert (Hr : r = exec o (scheduleLocalNotifications time daysOfWeek true mode) w)
    by reflexivity.
  clearbody r. unfold scheduleLocalNotifications in Hr.
  destruct daysOfWeek as [|day days]; [contradiction|]. cbn [negb orb List.length Nat.eqb] in Hr.
  rewrite exec_bind, exec_await, H0 in Hr. unfold then_exec at 1 in Hr.
  rewrite exec_bind, exec_modify in Hr. unfold then_exec at 1 in Hr.
  rewrite exec_bind, exec_await_async in Hr.
  match type of Hr with context [exec o requestNotificationPermissions ?w1] =>
    destruct (exec_requestNotificationPermissions w1 Hp)
      as (w2 & E & _ & (tr & Htr & Hreq) & Hsch)
  end.
  rewrite E in Hr. unfold then_exec at 1 in Hr. cbn [negb] in Hr.
  exec_in Hr. rewrite Hs in Hr. exec_in Hr. subst r. simpl.
  split; [reflexivity|]. split; [rewrite Hsch; reflexivity|].
  rewrite Htr. simpl. rewrite <- !app_assoc. eexists. split; [reflexivity|].
  unfold requests in *. simpl. rewrite ?flat_map_app. simpl. rewrite ?flat_map_app, ?Hreq.
  reflexivity.
Qed.

Lemma schedule_rejection_reported_witness :
  [lit "mon"] <> [] /\
  permission_granted scheduler_fails 10 /\
  let r := exec scheduler_fails
             (scheduleLocalNotifications (lit "09:00") [lit "mon"] true voice) before_nine in
  snd r = Returned (mkScheduleOutcome false
                      (Some (lit "Failed to schedule the notification"))) /\
  (fst r).(device).(scheduled) = [].
Proof.
  assert (H : [lit "mon"] <> []) by discriminate.
  assert (Hp : permission_granted scheduler_fails 10) by (left; reflexivity).
  split; [exact H|]. split; [exact Hp|].
  destruct (@schedule_rejection_reported (lit "09:00") [lit "mon"] voice scheduler_fails
              before_nine 10 10 10 (ErrorObj (lit "Failed to schedule the notification"))
              H eq_refl Hp (fun req => eq_refl)) as (A1 & A2 & _).
  split; assumption.
Defined.

(** X18.  A cancellation the platform rejects is not caught: the call
    itself rejects with that error, before anything else is done -- the
    pending triggers stay, no permission is looked up and no trigger is
    requested. *)
Theorem cancel_rejection_propagates time daysOfWeek enabled mode (o : Oracle) (w : World) t e :
  o _ Notifications_cancelAllScheduledNotificationsAsync = SettlesAfter t (Thrown e) ->
  let r := exec o (scheduleLocalNotifications time daysOfWeek enabled mode) w in
  snd r = Raised e /\
  (fst r).(device).(scheduled) = w.(device).(scheduled) /\
  (fst r).(trace) = w.(trace) ++ [EvAwait Notifications_cancelAllScheduledNotificationsAsync].
Proof.
  intros H0 r.
  assert (Hr : r = exec o (scheduleLocalNotifications time daysOfWeek enabled mode) w)
    by reflexivity.
  clearbody r. unfold scheduleLocalNotifications in Hr.
  rewrite exec_bind, exec_await, H0 in Hr. unfold then_exec in Hr. subst r. repeat split.
Qed.

Lemma cancel_rejection_propagates_witness :
  let r := exec cancel_fails
             (scheduleLocalNotifications (lit "09:00") [lit "mon"] true voice) before_nine in
  snd r = Raised (ErrorObj (lit "Could not cancel")) /\
  (fst r).(device).(scheduled) = before_nine.(device).(scheduled).
Proof.
  destruct (@cancel_rejection_propagates (lit "09:00") [lit "mon"] true voice cancel_fails
              before_nine 10 (ErrorObj (lit "Could not cancel")) eq_refl) as (A1 & A2 & _).
  split; assumption.
Defined.

(** X19.  The time string is not validated.  When its hour or its minute
    does not parse -- no colon, an empty part, letters -- the delay is
    [NaN], and the call still asks the platform for a trigger with that
    delay; if the platform accepts it, the call reports success. *)
Theorem malformed_time_not_validated time daysOfWeek mode (o : Oracle) (w : World) t0 tp :
  daysOfWeek <> [] ->
  o _ Notifications_cancelAllScheduledNotificationsAsync = SettlesAfter t0 (Ok tt) ->
  permission_granted o tp ->
  parse_part (split_on 58 time) 0 = None \/ parse_part (split_on 58 time) 1 = None ->
  let r := exec o (scheduleLocalNotifications time daysOfWeek true mode) w in
  exists added request,
    (fst r).(trace) = w.(trace) ++ added /\
    requests added = [request] /\
    request.(seconds) = None /\
    (forall t, o _ (Notifications_scheduleNotificationAsync request) = SettlesAfter t (Ok tt) ->
       snd r = Returned (mkScheduleOutcome true None) /\
       (fst r).(device).(scheduled) = [request]).
Proof.
  intros Hd H0 Hp Hbad r.
  assert (Hr : r = exec o (scheduleLocalNotifications time daysOfWeek true mode) w)
    by reflexivity.
  clearbody r. unfold scheduleLocalNotifications in Hr.
  destruct daysOfWeek as [|day days]; [contradiction|]. cbn [negb orb List.length Nat.eqb] in Hr.
  rewrite exec_bind, exec_await, H0 in Hr. unfold then_exec at 1 in Hr.
  rewrite exec_bind, exec_modify in Hr. unfold then_exec at 1 in Hr.
  rewrite exec_bind, exec_await_async in Hr.
  match type of Hr with context [exec o requestNotificationPermissions ?w1] =>
    destruct (exec_requestNotificationPermissions w1 Hp)
      as (w2 & E & _ & (tr & Htr & Hreq) & Hsch)
  end.
  rewrite E in Hr. unfold then_exec at 1 in Hr. cbn [negb] in Hr.
  assert (Hnan : forall d, secondsUntilNextOccurrence (parse_part (split_on 58 time) 0)
                             (parse_part (split_on 58 time) 1) d = None).
  { intros d. unfold secondsUntilNextOccurrence.
    destruct Hbad as [-> | ->]; [reflexivity|].
    destruct (parse_part (split_on 58 time) 0); reflexivity. }
  exec_in Hr. rewrite Hnan in Hr.
  destruct (o _ (Notifications_scheduleNotificationAsync (notification_content mode None)))
    as [t [[]|e]|] eqn:Hs; exec_in Hr; subst r; simpl; rewrite Htr; simpl;
    rewrite <- ?app_assoc; do 2 eexists; (split; [reflexivity|]);
    unfold requests in *; simpl; rewrite ?flat_map_app; simpl; rewrite ?flat_map_app, ?Hreq;
    simpl; (split; [reflexivity|]); (split; [reflexivity|]);
    intros t' Ht'; rewrite Ht' in Hs; try discriminate Hs.
  rewrite Hsch. split; reflexivity.
Qed.

Lemma malformed_time_not_validated_witness :
  [lit "mon"] <> [] /\
  permission_granted prompt_oracle 10 /\
  (parse_part (split_on 58 (lit "0900")) 0 = None \/
   parse_part (split_on 58 (lit "0900")) 1 = None) /\
  let r := exec prompt_oracle
             (scheduleLocalNotifications (lit "0900") [lit "mon"] true voice) before_nine in
  exists request,
    (fst r).(device).(scheduled) = [request] /\ request.(seconds) = None /\
    snd r = Returned (mkScheduleOutcome true None).
Proof.
  assert (H : [lit "mon"] <> []) by discriminate.
  assert (Hp : permission_granted prompt_oracle 10) by (left; reflexivity).
  assert (Hbad : parse_part (split_on 58 (lit "0900")) 0 = None \/
                 parse_part (split_on 58 (lit "0900")) 1 = None) by (right; reflexivity).
  split; [exact H|]. split; [exact Hp|]. split; [exact Hbad|].
  destruct (@malformed_time_not_validated (lit "0900") [lit "mon"] voice prompt_oracle
              before_nine 10 10 H eq_refl Hp Hbad) as (added & request & _ & _ & A3 & A4).
  destruct (A4 10%N eq_refl) as [B1 B2].
  exists request. repeat split; assumption.
Defined.

(** X20.  In a zone without clock changes, for an hour and a minute of
    the day, the delay is a number between 60 and 86400 seconds: a
    trigger is requested for no less than a minute and no more than a day
    ahead.  Whatever the zone, the hour and the minute, a delay that is a
    number is at least 60 seconds.  (Across a change of the clock the
    delay can exceed a day: 89100 seconds the night the clock is set
    back.) *)
Theorem seconds_within_a_day (d : Device) h m offset :
  fixed_zone d offset ->
  (Z.of_N d.(Date_now) + 2 * MS_PER_DAY <= 8640000000000000)%Z ->
  (0 <= h < 24)%Z -> (0 <= m < 60)%Z ->
  (exists s, secondsUntilNextOccurrence (Some h) (Some m) d = Some s /\
             (60 <= s <= 86400)%Z) /\
  (forall d' hour minute s,
     secondsUntilNextOccurrence hour minute d' = Some s -> (60 <= s)%Z).
Proof.
  intros Hz Hnow Hh Hm. split.
  - pose proof (@fixed_zone_has_times d offset h m 0 Hz Hnow Hh Hm ltac:(lia)) as H0.
    pose proof (@fixed_zone_has_times d offset h m 1 Hz Hnow Hh Hm ltac:(lia)) as H1.
    rewrite Z.add_0_r in H0. rewrite Z.mul_1_l in H1.
    destruct (@secondsUntilNextOccurrence_next d h m Hh Hm H0 H1)
      as (next & E & _ & _ & _ & _ & Hfix).
    specialize (Hfix offset Hz). cbv zeta in E. rewrite E. eexists. split; [reflexivity|].
    unfold MIN_SECONDS, MS_PER_DAY in *.
    assert (0 <= (next - Z.of_N (Date_now d)) / 1000 <= 86400)%Z.
    { split; [apply Z.div_pos; lia|]. apply Z.div_le_upper_bound; lia. }
    lia.
  - intros d' hour minute s. unfold secondsUntilNextOccurrence.
    destruct hour as [h'|]; [|discriminate]. destruct minute as [m'|]; [|discriminate].
    destruct (Date_setHours d' _ h' m') as [n0|]; [|discriminate].
    destruct (if (n0 <=? _)%Z then _ else _) as [n|]; [|discriminate].
    intros E. injection E as <-. unfold MIN_SECONDS. lia.
Qed.

Lemma seconds_within_a_day_witness :
  fixed_zone before_nine.(device) 7200000 /\
  (Z.of_N before_nine.(device).(Date_now) + 2 * MS_PER_DAY <= 8640000000000000)%Z /\
  (0 <= 9 < 24)%Z /\ (0 <= 0 < 60)%Z /\
  exists s, secondsUntilNextOccurrence (Some 9%Z) (Some 0%Z) before_nine.(device) = Some s /\
            (60 <= s <= 86400)%Z.
Proof.
  assert (H0 : fixed_zone before_nine.(device) 7200000) by (intros t b; reflexivity).
  assert (H0' : (Z.of_N before_nine.(device).(Date_now) + 2 * MS_PER_DAY
                 <= 8640000000000000)%Z) by (vm_compute; discriminate).
  assert (H1 : (0 <= 9 < 24)%Z) by lia.
  assert (H2 : (0 <= 0 < 60)%Z) by lia.
  split; [exact H0|]. split; [exact H0'|]. split; [exact H1|]. split; [exact H2|].
  exact (proj1 (@seconds_within_a_day before_nine.(device) 9%Z 0%Z 7200000 H0 H0' H1 H2)).
Defined.

(** X21.  [requestNotificationPermissions] asks the user only when it has
    to: when the permission is already granted it returns [true] after
    the lookup alone; otherwise it asks, and returns whether the answer
    is "granted". *)
Theorem permissions_asked_when_needed (o : Oracle) (w : World) :
  let r := exec o requestNotificationPermissions w in
  (forall t, o _ Notifications_getPermissionsAsync = SettlesAfter t (Ok granted) ->
     snd r = Returned true /\
     (fst r).(trace) = w.(trace) ++ [EvAwait Notifications_getPermissionsAsync]) /\
  (forall t s t' s',
     o _ Notifications_getPermissionsAsync = SettlesAfter t (Ok s) -> s <> granted ->
     o _ Notifications_requestPermissionsAsync = SettlesAfter t' (Ok s') ->
     snd r = Returned match s' with granted => true | _ => false end /\
     (fst r).(trace) = w.(trace) ++ [EvAwait Notifications_getPermissionsAsync;
                                    EvAwait Notifications_requestPermissionsAsync]).
Proof.
  intros r.
  assert (Hr : r = exec o requestNotificationPermissions w) by reflexivity.
  clearbody r. unfold requestNotificationPermissions in Hr.
  rewrite exec_bind, exec_await in Hr.
  split.
  - intros t H. rewrite H in Hr. exec_in Hr. subst r. split; reflexivity.
  - intros t s t' s' H Hs H'. rewrite H in Hr.
    destruct s; [contradiction| |]; exec_in Hr; rewrite H' in Hr; exec_in Hr; subst r;
      simpl; rewrite <- !app_assoc; split; reflexivity.
Qed.

(** ** The poll timer and the app state *)

Lemma poll_spaced_refl w : poll_spaced w w.
Proof. unfold poll_spaced. repeat split; auto; lia. Qed.

Lemma poll_spaced_trans w1 w2 w3 : poll_spaced w1 w2 -> poll_spaced w2 w3 -> poll_spaced w1 w3.
Proof.
  unfold poll_spaced, CHECK_INTERVAL_MS.
  intros (A1 & A2 & A3 & A4) (B1 & B2 & B3 & B4).
  split; [lia|]. split; [lia|]. split.
  - intros E. rewrite B3, A3; lia.
  - intros Hlt.
    destruct (Nat.eq_dec (checks w2) (checks w1)) as [E12|N12];
      destruct (Nat.eq_dec (checks w3) (checks w2)) as [E23|N23].
    + lia.
    + specialize (A3 E12). destruct B4 as (C1 & C2 & C3); [lia|]. rewrite E12, A3 in *.
      repeat split; lia.
    + specialize (B3 E23). destruct A4 as (C1 & C2 & C3); [lia|]. rewrite E23, B3 in *.
      repeat split; lia.
    + destruct A4 as (C1 & C2 & C3); [lia|]. destruct B4 as (D1 & D2 & D3); [lia|].
      repeat split; lia.
Qed.

(** A step that dispatches no check and leaves the time of the last
    check alone. *)
Lemma poll_spaced_frame w w' :
  w'.(sched).(lastCheckedRef) = w.(sched).(lastCheckedRef) ->
  (w.(device).(Date_now) <= w'.(device).(Date_now))%N ->
  checks w' = checks w ->
  poll_spaced w w'.
Proof. intros E1 E2 E3. unfold poll_spaced. rewrite E1, E3. repeat split; lia. Qed.

Ltac spaced_leaf :=
  intros;
  apply poll_spaced_frame;
  [ reflexivity
  | simpl; lia
  | unfold checks; simpl; rewrite ?count_snoc; simpl; lia ].

Ltac spaced_go :=
  keeps_go poll_spaced_refl poll_spaced_trans ltac:(eauto with gate) spaced_leaf.

Section Spaced.

Variable R : forall X : Type, Call X -> result X -> Prop.

(** What follows the dispatch of the remote check dispatches no other. *)
Lemma after_check_spaced (response : Response) :
  keeps poll_spaced R
    (if negb response.(resp_ok) then ret None
     else
       data <- await (Response_json_check response) ;;
       ret (Some (mkCheckResult
                    match data.(should_trigger) with Some b => b | None => false end
                    data.(conversation_mode))))%fn.
Proof. spaced_go. Qed.

(** A tick dispatches a check only when [CHECK_INTERVAL_MS] have passed
    since the last one, and notes the time in the same segment. *)
Lemma poll_tick_spaced uid : keeps poll_spaced R (poll_tick uid).
Proof.
  unfold poll_tick.
  apply within_read_bind. intros st.
  destruct st; try (apply keeps_within; [exact poll_spaced_refl|exact poll_spaced_trans
                                        |apply keeps_ret, poll_spaced_refl
                                        |intros w0 w [<- _]; apply poll_spaced_refl]).
  apply within_read_bind. intros now. apply within_read_bind. intros last.
  destruct (Z.of_N now - Z.of_N last <? CHECK_INTERVAL_MS)%Z eqn:Hlt.
  - apply keeps_within; [exact poll_spaced_refl|exact poll_spaced_trans
                        |apply keeps_ret, poll_spaced_refl
                        |intros w0 w [[[<- _] _] _]; apply poll_spaced_refl].
  - apply Z.ltb_ge in Hlt.
    apply within_modify_bind with
      (P' := fun w0 w => w = on_sched (set_lastCheckedRef now) w0 /\
                         Date_now (device w0) = now /\ lastCheckedRef (sched w0) = last).
    { intros w0 w [[[<- _] Hn] Hl]. auto. }
    apply within_await_async; try exact poll_spaced_refl; try exact poll_spaced_trans.
    unfold checkAndPrompt.
    apply within_bind; try exact poll_spaced_refl; try exact poll_spaced_trans;
      [|intros result; spaced_go].
    apply within_await_async; try exact poll_spaced_refl; try exact poll_spaced_trans.
    unfold checkScheduleFromBackend.
    apply within_try_catch; try exact poll_spaced_refl; try exact poll_spaced_trans;
      [|intros e; spaced_go].
    apply within_bind; try exact poll_spaced_refl; try exact poll_spaced_trans;
      [|intros response; apply after_check_spaced].
    apply within_await; try exact poll_spaced_refl; try exact poll_spaced_trans.
    intros w0 w (Hw & Hn & Hl). subst w.
    unfold poll_spaced, checks. simpl. rewrite count_snoc. simpl.
    unfold CHECK_INTERVAL_MS in *. repeat split; lia.
Qed.

Lemma poll_op_spaced uid op : is_poll op = true -> keeps poll_spaced R (schedule_op uid op).
Proof.
  destruct op; simpl; try discriminate; intros _.
  - apply poll_tick_spaced.
  - apply keeps_modify. intros w. unfold poll_spaced, checks. simpl. repeat split; lia.
Qed.

End Spaced.

(** X22.  The poll timer's checks are at least [CHECK_INTERVAL_MS] apart:
    however many ticks arrive and however they interleave with pending
    checks, [n] remote checks take at least [(n - 1)] times two minutes
    of the clock -- so in a time [T] the ticks dispatch at most
    [1 + T / 120000] checks, whatever the time of the last check before
    -- and each of them comes two minutes or more after the check before
    it. *)
Theorem poll_ticks_are_paced uid (w0 : World) (events : list (Step ScheduleOp)) :
  (w0.(sched).(lastCheckedRef) <= w0.(device).(Date_now))%N ->
  forallb (starts is_poll) events = true ->
  let w := (run (schedule_op uid) (mkRunning w0 []) events).(world) in
  let n := (Z.of_nat (checks w) - Z.of_nat (checks w0))%Z in
  ((n - 1) * CHECK_INTERVAL_MS
   <= Z.of_N w.(device).(Date_now) - Z.of_N w0.(device).(Date_now))%Z /\
  (n * CHECK_INTERVAL_MS
   <= Z.of_N w.(device).(Date_now) - Z.of_N w0.(sched).(lastCheckedRef))%Z /\
  (0 <= n)%Z.
Proof.
  intros H0 Hok w n.
  assert (G : poll_spaced w0 w).
  { refine (@run_started poll_spaced any_result poll_spaced_refl poll_spaced_trans
              ScheduleOp (schedule_op uid) is_poll events _ Hok _ (mkRunning w0 []) _).
    - intros op Hop. apply poll_op_spaced, Hop.
    - apply all_steps_allowed.
    - constructor. }
  destruct G as (A1 & A2 & A3 & A4). unfold n, CHECK_INTERVAL_MS in *.
  destruct (Nat.eq_dec (checks w) (checks w0)) as [E|N].
  - specialize (A3 E). rewrite E. lia.
  - destruct A4 as (C1 & C2 & C3); [lia|]. lia.
Qed.

(** From the mount on (no check yet, [lastCheckedRef] is 0): four ticks
    in four minutes. *)
Lemma poll_ticks_are_paced_witness :
  (mounted.(sched).(lastCheckedRef) <= mounted.(device).(Date_now))%N /\
  forallb (starts is_poll) ticking = true /\
  let w := (run (schedule_op 1) (mkRunning mounted []) ticking).(world) in
  let n := (Z.of_nat (checks w) - Z.of_nat (checks mounted))%Z in
  ((n - 1) * CHECK_INTERVAL_MS
   <= Z.of_N w.(device).(Date_now) - Z.of_N mounted.(device).(Date_now))%Z /\
  n = 2%Z /\
  (Z.of_N w.(device).(Date_now) - Z.of_N mounted.(device).(Date_now) = 240000)%Z.
Proof.
  assert (H : (mounted.(sched).(lastCheckedRef) <= mounted.(device).(Date_now))%N)
    by (vm_compute; discriminate).
  split; [exact H|]. split; [reflexivity|].
  intros w n.
  split; [exact (proj1 (@poll_ticks_are_paced 1 mounted ticking H eq_refl))|].
  split; vm_compute; reflexivity.
Defined.

(** Four ticks in four minutes: two checks. *)
Example ticking_run :
  let w := (run (schedule_op 1) (mkRunning mounted []) ticking).(world) in
  checks w = 2 /\
  (w.(device).(Date_now) - mounted.(device).(Date_now) = 240000)%N.
Proof. vm_compute. auto. Qed.






Section Asleep.

Variable R : forall X : Type, Call X -> result X -> Prop.


End Asleep.



(** ** Printing and parsing numbers *)


Lemma digits_value_all l : forall a seen,
  forallb is_digit l = true ->
  (seen = true \/ l <> []) ->
  digits_value a seen l = Some (fold_left digit_step l a).
Proof.
  induction l as [|c l IH]; intros a seen Hl Hs; simpl.
  - destruct Hs as [-> | H]; [reflexivity|contradiction].
  - simpl in Hl. apply andb_true_iff in Hl as [Hc Hl]. rewrite Hc.
    apply IH; auto.
Qed.

Lemma digit_of_mod n : is_digit (48 + n mod 10) = true /\ (48 + n mod 10 - 48 = n mod 10)%N.
Proof.
  pose proof (N.mod_lt n 10 ltac:(discriminate)) as H. unfold is_digit.
  revert H. generalize (n mod 10)%N. intros d H.
  split; [apply andb_true_iff; split; apply N.leb_le; lia|lia].
Qed.

Lemma digits_from_spec fuel : forall n acc,
  (n < 2 ^ N.of_nat fuel)%N ->
  exists pre p,
    digits_from fuel n acc = pre ++ acc /\
    forallb is_digit pre = true /\
    (fuel <> O -> pre <> []) /\
    forall a, fold_left digit_step pre a = (a * p + Z.of_N n)%Z.
Proof.
  induction fuel as [|f IH]; intros n acc Hn.
  - exists [], 1%Z. simpl in *. repeat split; auto; try congruence.
    intros a. assert (n = 0%N) by lia. subst. lia.
  - cbn [digits_from]. destruct (digit_of_mod n) as [Hd Hv].
    destruct (n / 10 =? 0)%N eqn:Hq.
    + apply N.eqb_eq in Hq. exists [(48 + n mod 10)%N], 10%Z.
      repeat split; auto; try discriminate.
      * cbn [forallb]. rewrite Hd. reflexivity.
      * intros a. cbn [fold_left]. unfold digit_step. rewrite Hv.
        pose proof (N.div_mod n 10 ltac:(discriminate)) as E. rewrite Hq in E. lia.
    + apply N.eqb_neq in Hq.
      assert (Hlt : (n / 10 < 2 ^ N.of_nat f)%N).
      { apply N.Div0.div_lt_upper_bound.
        rewrite Nat2N.inj_succ, N.pow_succ_r' in Hn. lia. }
      destruct (IH (n / 10)%N ((48 + n mod 10)%N :: acc) Hlt) as (pre & p & E & Hp & _ & Hf).
      exists (pre ++ [(48 + n mod 10)%N]), (p * 10)%Z.
      repeat split.
      * rewrite E, <- app_assoc. reflexivity.
      * rewrite forallb_app, Hp. cbn [forallb andb]. rewrite Hd. reflexivity.
      * intros _ Hnil. apply app_eq_nil in Hnil as [_ Hnil]. discriminate.
      * intros a. rewrite fold_left_app, Hf. cbn [fold_left]. unfold digit_step. rewrite Hv.
        pose proof (N.div_mod n 10 ltac:(discriminate)) as E'.
        rewrite N2Z.inj_mod, N2Z.inj_div. 
        pose proof (Z.div_mod (Z.of_N n) 10 ltac:(lia)) as E2. change (Z.of_N 10) with 10%Z. lia.
Qed.

Lemma toString10_spec n :
  forallb is_digit (toString10 n) = true /\
  toString10 n <> [] /\
  forall a, exists p, fold_left digit_step (toString10 n) a = (a * p + Z.of_N n)%Z.
Proof.
  unfold toString10.
  assert (Hn : (n < 2 ^ N.of_nat (S (N.to_nat (N.log2 n))))%N).
  { rewrite Nat2N.inj_succ, N2Nat.id. destruct n as [|q]; [reflexivity|].
    apply N.log2_spec. reflexivity. }
  destruct (@digits_from_spec _ n [] Hn) as (pre & p & E & Hp & Hne & Hf).
  rewrite app_nil_r in E. rewrite E. repeat split; auto.
  intros a. exists p. apply Hf.
Qed.

Lemma fold_zeros k : fold_left digit_step (repeat 48%N k) 0%Z = 0%Z.
Proof. induction k as [|k IH]; simpl; auto. Qed.

Lemma padded_spec k n :
  let s := padStart k 48 (toString10 n) in
  forallb is_digit s = true /\ s <> [] /\ (k <= List.length s)%nat /\
  fold_left digit_step s 0%Z = Z.of_N n.
Proof.
  intros s. destruct (toString10_spec n) as (Hd & Hne & Hf). unfold s, padStart.
  repeat split.
  - rewrite forallb_app, Hd, andb_true_r.
    generalize (k - List.length (toString10 n))%nat. intros j.
    induction j; simpl; auto.
  - intros H. apply app_eq_nil in H as [_ H]. contradiction.
  - rewrite length_app, repeat_length. lia.
  - rewrite fold_left_app, fold_zeros. destruct (Hf 0%Z) as [p ->]. lia.
Qed.

Lemma parseInt10_digits s :
  forallb is_digit s = true -> s <> [] ->
  parseInt10 s = Some (fold_left digit_step s 0%Z).
Proof.
  intros Hd Hne. unfold parseInt10. destruct s as [|c r]; [contradiction|].
  assert (Hc : is_digit c = true) by (simpl in Hd; apply andb_true_iff in Hd; tauto).
  assert (Hs : is_js_space c = false).
  { unfold is_digit in Hc. apply andb_true_iff in Hc as [H1 H2].
    apply N.leb_le in H1, H2. unfold is_js_space.
    repeat match goal with
           | |- (_ || _)%bool = false => apply orb_false_iff; split
           | |- (_ && _)%bool = false => apply andb_false_iff
           end;
      try (apply N.eqb_neq; lia);
      try (right; apply N.leb_gt; lia); try (left; apply N.leb_gt; lia). }
  cbn [trimStart]. rewrite Hs.
  rewrite <- (@digits_value_all (c :: r) 0%Z false Hd (or_intror Hne)).
  unfold is_digit in Hc. apply andb_true_iff in Hc as [H1 H2].
  apply N.leb_le in H1, H2. clear Hd Hs Hne.
  destruct c as [|q]; [reflexivity|].
  do 6 (destruct q as [q|q|]; try reflexivity; try lia).
Qed.

Lemma split_on_colon (a b : jsstr) :
  forallb is_digit a = true -> forallb is_digit b = true ->
  split_on 58 (a ++ lit ":" ++ b) = [a; b].
Proof.
  intros Ha Hb.
  assert (Hb' : split_on 58 b = [b]).
  { clear Ha. induction b as [|c b IH]; [reflexivity|].
    simpl in Hb. apply andb_true_iff in Hb as [Hc Hr]. cbn [split_on].
    assert (E : (c =? 58)%N = false).
    { unfold is_digit in Hc. apply andb_true_iff in Hc as [_ H2]. apply N.leb_le in H2.
      apply N.eqb_neq. lia. }
    rewrite E, (IH Hr). reflexivity. }
  induction a as [|c a IH].
  - simpl. rewrite Hb'. reflexivity.
  - simpl in Ha. apply andb_true_iff in Ha as [Hc Hr].
    change ((c :: a) ++ lit ":" ++ b) with (c :: (a ++ lit ":" ++ b)). cbn [split_on].
    assert (E : (c =? 58)%N = false).
    { unfold is_digit in Hc. apply andb_true_iff in Hc as [_ H2]. apply N.leb_le in H2.
      apply N.eqb_neq. lia. }
    rewrite E, (IH Hr). reflexivity.
Qed.

(** X24.  The time string the settings screen builds is read back
    exactly by [scheduleLocalNotifications]: for every hour and minute,
    [hh:mm] splits at the colon into two parts that [parseInt] reads as
    that hour and that minute. *)
Theorem schedule_time_round_trip (h m : N) :
  parse_part (split_on 58 (schedule_time h m)) 0 = Some (Z.of_N h) /\
  parse_part (split_on 58 (schedule_time h m)) 1 = Some (Z.of_N m) /\
  List.length (split_on 58 (schedule_time h m)) = 2.
Proof.
  unfold schedule_time.
  destruct (padded_spec 2 h) as (H1 & H2 & _ & H4).
  destruct (padded_spec 2 m) as (M1 & M2 & _ & M4).
  rewrite split_on_colon by assumption. unfold parse_part. simpl.
  rewrite !parseInt10_digits by assumption. rewrite H4, M4. auto.
Qed.

(** X25.  [formatDuration] prints [m:ss] and loses nothing: the minutes
    are [seconds / 60] in decimal, the seconds [seconds % 60] in exactly
    two digits, and both read back with [parseInt]. *)
Theorem formatDuration_round_trip (seconds : N) :
  exists mm ss,
    formatDuration seconds = mm ++ lit ":" ++ ss /\
    split_on 58 (formatDuration seconds) = [mm; ss] /\
    parseInt10 mm = Some (Z.of_N (seconds / 60)) /\
    parseInt10 ss = Some (Z.of_N (seconds mod 60)) /\
    List.length ss = 2.
Proof.
  unfold formatDuration. cbv zeta.
  destruct (toString10_spec (seconds / 60)) as (H1 & H2 & H3).
  destruct (padded_spec 2 (seconds mod 60)) as (M1 & M2 & M3 & M4).
  exists (toString10 (seconds / 60)), (padStart 2 48 (toString10 (seconds mod 60))).
  split; [reflexivity|]. split; [apply split_on_colon; assumption|].
  rewrite !parseInt10_digits by assumption. rewrite M4.
  destruct (H3 0%Z) as [p ->]. rewrite Z.mul_0_l, Z.add_0_l.
  repeat split.
  unfold padStart. rewrite length_app, repeat_length.
  assert (Hlen : (List.length (toString10 (seconds mod 60)) <= 2)%nat).
  { pose proof (N.mod_lt seconds 60 ltac:(discriminate)) as Hlt.
    revert Hlt. generalize (seconds mod 60)%N. intros n Hlt.
    assert (Hall : forallb (fun k => Nat.leb (List.length (toString10 (N.of_nat k))) 2)
                     (seq 0 60) = true) by (vm_compute; reflexivity).
    rewrite forallb_forall in Hall. specialize (Hall (N.to_nat n)).
    rewrite N2Nat.id in Hall. apply Nat.leb_le, Hall, in_seq. lia. }
  lia.
Qed.

Lemma jsstr_eqb_eq a b : jsstr_eqb a b = true <-> a = b.
Proof. unfold jsstr_eqb. destruct (list_eq_dec N.eq_dec a b); split; congruence. Qed.

(** X26.  [toggleDay] flips the day and nothing else: the day is
    selected afterwards exactly when it was not before, every other day
    keeps its selection, and a selection without duplicates stays
    without duplicates. *)
Theorem toggleDay_flips day (prev : list jsstr) :
  (In day (toggleDay day prev) <-> ~ In day prev) /\
  (forall d, d <> day -> (In d (toggleDay day prev) <-> In d prev)) /\
  (NoDup prev -> NoDup (toggleDay day prev)).
Proof.
  assert (Hdd : jsstr_eqb day day = true) by (apply jsstr_eqb_eq; reflexivity).
  unfold toggleDay. destruct (existsb (jsstr_eqb day) prev) eqn:E.
  - apply existsb_exists in E as (x & Hx & Hxd). apply jsstr_eqb_eq in Hxd. subst x.
    split; [|split].
    + split; [|intros Hn; contradiction].
      intros Hin. apply filter_In in Hin as [_ Hin]. rewrite Hdd in Hin. discriminate.
    + intros d Hd. rewrite filter_In. split; [tauto|]. intros Hin. split; [exact Hin|].
      destruct (jsstr_eqb d day) eqn:Ed; [apply jsstr_eqb_eq in Ed; contradiction|reflexivity].
    + intros Hnd. apply NoDup_filter, Hnd.
  - assert (Hn : ~ In day prev).
    { intros Hin. assert (existsb (jsstr_eqb day) prev = true).
      { apply existsb_exists. exists day. split; [exact Hin|exact Hdd]. }
      congruence. }
    split; [|split].
    + split; [intros _; exact Hn|]. intros _. apply in_or_app. right. left. reflexivity.
    + intros d Hd. rewrite in_app_iff. simpl. split; [|tauto].
      intros [Hin|[Hin|[]]]; [exact Hin|congruence].
    + intros Hnd. apply NoDup_app; [exact Hnd|repeat constructor; intros []|].
      intros x Hx [<-|[]]. contradiction.
Qed.

(** X27.  Dictation on the compose screen: the transcripts the hook
    reports (none of them empty) are appended to the draft separated by
    single spaces, with no separator before the first one when the draft
    was empty. *)
Theorem dictation_joined (ts : list jsstr) (content0 : jsstr) :
  Forall (fun t => truthy t = true) ts ->
  fold_left compose_onTranscript ts content0
  = join (lit " ") ((if truthy content0 then [content0] else []) ++ ts).
Proof. apply accumulate_join. Qed.

Lemma dictation_joined_witness :
  Forall (fun t => truthy t = true) [lit "I slept well"; lit "and woke up early."] /\
  fold_left compose_onTranscript [lit "I slept well"; lit "and woke up early."] []
  = lit "I slept well and woke up early.".
Proof.
  assert (H : Forall (fun t => truthy t = true) [lit "I slept well"; lit "and woke up early."])
    by (repeat constructor).
  split; [exact H|].
  exact (@dictation_joined [lit "I slept well"; lit "and woke up early."] [] H).
Defined.

(** X28.  A tap on a notification the scheduler built opens the screen of
    its conversation mode: the voice session for "voice", the compose tab
    for "text"; a notification with another screen name, or none, opens
    nothing. *)
Theorem tapped_notification_opens_its_screen mode secs (o : Oracle) (w : World) :
  let r := exec o (handleNotificationResponse
                     (Some (notification_content mode secs).(data).(screen_name))) w in
  snd r = Returned tt /\
  (fst r).(trace)
  = w.(trace) ++ [EvRouterPush match mode with
                               | voice => lit "/voice-session"
                               | text => lit "/(tabs)/compose"
                               end] /\
  forall other,
    other <> lit "voice-session" -> other <> lit "compose" ->
    exec o (handleNotificationResponse (Some other)) w = (w, Returned tt) /\
    exec o (handleNotificationResponse None) w = (w, Returned tt).
Proof.
  intros r. subst r. destruct mode; (split; [reflexivity|]); (split; [reflexivity|]);
    intros other H1 H2; unfold handleNotificationResponse;
    (destruct (jsstr_eqb other (lit "voice-session")) eqn:E1;
     [apply jsstr_eqb_eq in E1; contradiction|]);
    (destruct (jsstr_eqb other (lit "compose")) eqn:E2;
     [apply jsstr_eqb_eq in E2; contradiction|]); split; reflexivity.
Qed.

(** ** The exchange, and a stop that fails *)

Lemma chosen_reply_speakable res : truthy (trim (chosen_reply res)) = true.
Proof.
  unfold chosen_reply. destruct res as [[r|]|]; try reflexivity.
  destruct (truthy (trim r)) eqn:E; [|reflexivity].
  pose proof (trimmed_trim _ E) as Ht. rewrite (trim_trimmed _ Ht). exact E.
Qed.

(** The processing block when the reflection agent answers: up to the
    call of [speak]. *)
Lemma answered_reflection_process settings p (o : Oracle) w l res :
  let said := trim (fullTranscript (refs w)) in
  truthy said = true ->
  screen_recordOnly p = false ->
  hasRespondedRef (refs w) = false ->
  o _ (api_voice_getReflection said) = SettlesAfter l (Ok res) ->
  exists w4,
    exec o (stopListening_process settings (screen_options p)) w
    = exec o (speak settings (chosen_reply res)) w4 /\
    trace w4 = trace w ++ [EvSetState (set_transcript said (state w)); EvOnTranscript said;
                           EvAwait (api_voice_getReflection said);
                           EvSetState (state w4); EvOnResponse (chosen_reply res)] /\
    state w4 = set_isProcessing false (set_transcript said (state w)) /\
    map (fun m => (role m, content m)) (messages (screen w4))
    = map (fun m => (role m, content m)) (messages (screen w))
      ++ [(user, said); (assistant, chosen_reply res)] /\
    conversationHistory (refs w4)
    = conversationHistory (refs w)
      ++ [mkHistoryEntry user said; mkHistoryEntry assistant (chosen_reply res)] /\
    hasRespondedRef (refs w4) = true.
Proof.
  intros said Hsaid Hrec Hflag Ho.
  unfold stopListening_process. rewrite exec_bind, exec_read. unfold then_exec. cbv zeta.
  fold said. clearbody said. rewrite Hsaid.
  rewrite exec_bind, exec_setState. unfold then_exec.
  rewrite exec_bind. unfold call_handler at 1. cbn [onTranscript screen_options].
  rewrite exec_modify. unfold then_exec.
  cbn [recordOnly screen_options]. rewrite Hrec.
  rewrite exec_bind, exec_read. unfold then_exec.
  unfold addMessage at 1 2. cbn [device screen log on_state on_screen on_device refs].
  rewrite Hflag. cbn [negb]. unfold stopListening_reflect.
  rewrite exec_bind, exec_set_ref. unfold then_exec.
  rewrite exec_bind, exec_try_catch, exec_bind, exec_await, Ho.
  unfold then_exec at 2.
  assert (E : forall w', exec o match res with
                     | Some (Some r) =>
                         ret (if truthy (trim r) then trim r else reflection_fallback)
                     | _ => ret reflection_fallback
                     end w' = (w', Returned (chosen_reply res)))
    by (intros w'; destruct res as [[r|]|]; reflexivity).
  rewrite E. unfold catch_exec, then_exec.
  rewrite exec_bind, exec_set_ref. unfold then_exec.
  rewrite exec_bind, exec_setState. unfold then_exec.
  rewrite exec_bind. unfold call_handler. cbn [onResponse screen_options]. rewrite Hrec.
  rewrite exec_modify. unfold then_exec. rewrite exec_await_async.
  eexists. split; [reflexivity|].
  unfold addMessage. simpl. rewrite <- ?app_assoc. simpl. rewrite !map_app. simpl.
  rewrite <- ?app_assoc. simpl.
  repeat split.
Qed.

Lemma closing_counts t :
  forallb closing_event t = true ->
  filter is_reflection_call t = [] /\ responses t = [] /\ filter is_speech_call t = [].
Proof.
  intros Ht. repeat split;
    first [ apply (filter_disjoint closing_event _ t); [|exact Ht]
          | apply (flat_map_disjoint closing_event _ t); [|exact Ht] ];
    intros e; destruct e as [X c| | | | | | | | | | | | | ]; try reflexivity; try discriminate;
    destruct c; try reflexivity; discriminate.
Qed.

(** X29.  The first turn of a session that hears something consults the
    agent: on the voice session screen (not record-only), a turn whose
    capture ends normally with a transcript that is not blank, in a
    session that has not had its exchange, dispatches exactly one
    reflection request and raises the flag; when the agent answers, its
    reply -- trimmed, or the fallback when the answer holds no reply or a
    blank one -- is never blank, is appended to the log after the user's
    message and to the conversation history, and is handed to the speech
    engine. *)
Theorem reply_is_spoken key settings p (o : Oracle) w l res :
  let w1 := fst (exec o (setState (fun prev =>
                            set_isProcessing true (set_isListening false prev))) w) in
  let c := exec o (stopListening_capture key) w1 in
  let said := trim (fullTranscript (refs (fst c))) in
  let reply := chosen_reply res in
  let r := exec o (stopListening key settings (screen_options p)) w in
  snd c = Returned tt ->
  truthy said = true ->
  screen_recordOnly p = false ->
  hasRespondedRef (refs w) = false ->
  o _ (api_voice_getReflection said) = SettlesAfter l (Ok res) ->
  reflections (fst r) = S (reflections w) /\
  (fst r).(refs).(hasRespondedRef) = true /\
  responses (fst r).(trace) = responses w.(trace) ++ [reply] /\
  map (fun m => (role m, content m)) (fst r).(screen).(messages)
  = map (fun m => (role m, content m)) w.(screen).(messages)
    ++ [(user, said); (assistant, reply)] /\
  (fst r).(refs).(conversationHistory)
  = w.(refs).(conversationHistory)
    ++ [mkHistoryEntry user said; mkHistoryEntry assistant reply] /\
  truthy (trim reply) = true /\
  raised (snd r) = false /\
  (forall tv voices,
     o _ Speech_getAvailableVoicesAsync = SettlesAfter tv (Ok voices) ->
     In (EvAwait (Speech_speak reply (speech_options settings (find is_female_voice voices))))
        (fst r).(trace)).
Proof.
  intros w1 c said reply r Hc Hsaid Hrec Hflag Ho.
  pose proof (stopListening_capture_exec key o w1) as Hf. fold c in Hf.
  assert (Hr : r = catch_exec o
    (fun e =>
       emit (EvConsoleError (lit "Error stopping recording:")) ;;
       setState (fun prev =>
         set_error (Some (message_or e (lit "Failed to process recording")))
           (set_isProcessing false prev)) ;;
       call_handler EvOnError (screen_options p).(onError) (error_message e))%fn
    (then_exec o (fun _ => setAudioModeAsync (mkAudioMode false None))
       (then_exec o (fun _ => stopListening_process settings (screen_options p)) c)))
    by apply stopListening_exec.
  clearbody r.
  destruct c as [w2 oc]. simpl in Hc, said, Hf. subst oc.
  destruct Hf as [Hb (tc & Htc & Hcap)].
  unfold beside_capture in Hb. injection Hb as Hst Hsc _ Hfl Hhist _ _.
  simpl in Hst, Hsc, Hfl, Hhist, Htc.
  assert (Hflag2 : hasRespondedRef (refs w2) = false) by congruence.
  destruct (@answered_reflection_process settings p o w2 l res Hsaid Hrec Hflag2 Ho)
    as (w4 & Hproc & Ht4 & Hs4 & Hm4 & Hh4 & Hf4).
  fold said in Ht4, Hs4, Hm4, Hh4. fold reply in Hproc, Ht4, Hm4, Hh4.
  pose proof (chosen_reply_speakable res) as Hsay. fold reply in Hsay.
  unfold then_exec at 2 in Hr. rewrite Hproc in Hr.
  pose proof (speak_exec settings reply o w4) as [Hb5 (ts & Hts & Hsp)].
  destruct (@speak_starts settings reply o w4 Hsay) as (Hoc5 & post & Hpost & Hv).
  destruct (exec o (speak settings reply) w4) as [w5 oc5].
  simpl in Hb5, Hts, Hoc5, Hpost.
  destruct (@turn_closing p o w5 oc5 Hoc5) as (Hoc6 & [Hb6 (tl & Htl & Hcl)] & _).
  rewrite <- Hr in Hoc6, Hb6, Htl. clear Hr.
  unfold beside_speak in Hb5. injection Hb5 as Hrefs5 Hsc5 _ _ _ _ _ _ _.
  unfold beside_closing in Hb6. injection Hb6 as Hsc6 Hrefs6.
  destruct (capture_quiet tc Hcap) as (C1 & _ & _ & _ & C5 & _).
  destruct (speak_quiet ts Hsp) as (_ & S2 & S3).
  destruct (closing_counts tl Hcl) as (L2 & L3 & _).
  assert (Htrace : trace (fst r) =
            trace w
            ++ [EvSetState (set_isProcessing true (set_isListening false (state w)))]
            ++ tc
            ++ [EvSetState (set_transcript said (state w2)); EvOnTranscript said;
                EvAwait (api_voice_getReflection said);
                EvSetState (state w4); EvOnResponse reply]
            ++ ts ++ tl)
    by (rewrite Htl, Hts, Ht4, Htc, <- !app_assoc; reflexivity).
  split; [|split; [|split; [|split; [|split; [|split; [|split]]]]]].
  - unfold reflections, count. rewrite Htrace, !filter_app, C1, S2, L2. simpl.
    rewrite !length_app. simpl. lia.
  - rewrite Hrefs6, Hrefs5. exact Hf4.
  - unfold responses in *. rewrite Htrace, !flat_map_app, C5, S3, L3. simpl.
    rewrite ?app_nil_r. reflexivity.
  - rewrite Hsc6, Hsc5, Hm4, Hsc. reflexivity.
  - rewrite Hrefs6, Hrefs5, Hh4, Hhist. reflexivity.
  - exact Hsay.
  - exact Hoc6.
  - intros tv voices E. destruct (Hv tv voices E) as [post' ->].
    rewrite Htl, Hpost. rewrite !in_app_iff. simpl. auto 10.
Qed.

Lemma reply_is_spoken_witness :
  let w1 := fst (exec agent_replies (setState (fun prev =>
                   set_isProcessing true (set_isListening false prev))) recording_now) in
  let c := exec agent_replies (stopListening_capture []) w1 in
  let said := trim (fullTranscript (refs (fst c))) in
  let r := exec agent_replies
             (stopListening [] sample_settings (screen_options sample_params))
             recording_now in
  snd c = Returned tt /\
  truthy said = true /\
  screen_recordOnly sample_params = false /\
  hasRespondedRef (refs recording_now) = false /\
  @agent_replies _ (api_voice_getReflection said)
  = SettlesAfter 10 (Ok (Some (Some (lit "  What helped you sleep?  ")))) /\
  reflections (fst r) = S (reflections recording_now) /\
  responses (fst r).(trace)
  = responses recording_now.(trace)
    ++ [chosen_reply (Some (Some (lit "  What helped you sleep?  ")))] /\
  chosen_reply (Some (Some (lit "  What helped you sleep?  "))) = lit "What helped you sleep?".
Proof.
  intros w1 c said r.
  assert (H1 : snd c = Returned tt) by reflexivity.
  assert (H2 : truthy said = true) by reflexivity.
  assert (H3 : screen_recordOnly sample_params = false) by reflexivity.
  assert (H4 : hasRespondedRef (refs recording_now) = false) by reflexivity.
  assert (H5 : @agent_replies _ (api_voice_getReflection said)
               = SettlesAfter 10 (Ok (Some (Some (lit "  What helped you sleep?  ")))))
    by reflexivity.
  repeat (split; [assumption|]).
  destruct (@reply_is_spoken [] sample_settings sample_params agent_replies
              recording_now 10 (Some (Some (lit "  What helped you sleep?  ")))
              H1 H2 H3 H4 H5)
    as (A1 & _ & A3 & _).
  split; [exact A1|]. split; [exact A3|]. reflexivity.
Defined.

(** X30.  A recording that cannot be stopped: [stopListening] ends idle
    with the error in [state.error] ("Failed to process recording" when
    the error has no message) and passed to [onError] when one is
    registered; no transcript is reported and no reflection requested;
    and the refs are left as they were -- the recording is still
    referenced and the socket still open. *)
Theorem stop_failure_reported key settings options (o : Oracle) (w : World) rec t e :
  w.(refs).(recording) = Some rec ->
  o _ (Recording_stopAndUnloadAsync rec) = SettlesAfter t (Thrown e) ->
  let r := exec o (stopListening key settings options) w in
  snd r = Returned tt /\
  (fst r).(state).(isListening) = false /\
  (fst r).(state).(isProcessing) = false /\
  (fst r).(state).(error) = Some (message_or e (lit "Failed to process recording")) /\
  (fst r).(refs) = w.(refs) /\
  transcripts (fst r).(trace) = transcripts w.(trace) /\
  reflections (fst r) = reflections w /\
  errors_reported (fst r).(trace)
  = errors_reported w.(trace)
    ++ match options.(onError) with Some _ => [error_message e] | None => [] end.
Proof.
  intros Hrec Ho r.
  assert (Hr : r = exec o (stopListening key settings options) w) by reflexivity.
  clearbody r. unfold stopListening, stopListening_capture in Hr.
  rewrite exec_try_catch, exec_bind, exec_setState in Hr. unfold then_exec at 1 in Hr.
  rewrite exec_bind, exec_bind, exec_read in Hr. unfold then_exec at 2 in Hr.
  cbn [refs log on_state] in Hr. rewrite Hrec in Hr.
  rewrite exec_bind, exec_await, Ho in Hr. unfold then_exec, catch_exec in Hr.
  unfold call_handler in Hr.
  destruct (onError options) as [h|]; exec_in Hr; subst r; simpl;
    try destruct (h _ _) as [d s]; simpl;
    unfold transcripts, errors_reported, reflections, count;
    simpl; rewrite ?filter_app, ?flat_map_app; simpl; rewrite ?app_nil_r;
    repeat split; destruct (refs w); reflexivity.
Qed.

Lemma stop_failure_reported_witness :
  recording_now.(refs).(recording) = Some (mkRecording (Some (lit "file:///rec.wav"))) /\
  let r := exec stop_fails_oracle (stopListening sample_key sample_settings reporting_options)
             recording_now in
  snd r = Returned tt /\
  (fst r).(state).(error) = Some (lit "Stop encountered an error: recording not stopped") /\
  (fst r).(refs) = recording_now.(refs) /\
  errors_reported (fst r).(trace)
  = [Some (lit "Stop encountered an error: recording not stopped")].
Proof.
  split; [reflexivity|].
  destruct (@stop_failure_reported sample_key sample_settings reporting_options
              stop_fails_oracle recording_now (mkRecording (Some (lit "file:///rec.wav"))) 10
              (ErrorObj (lit "Stop encountered an error: recording not stopped"))
              eq_refl eq_refl)
    as (A1 & _ & _ & A4 & A5 & _ & _ & A8).
  repeat split; assumption.
Defined.
